(** * THORNode state-machine core: memo parser, pool-unit issuance,
      keygen store, vault manager and yggdrasil handler; with the events,
      the block metas of the bitcoin chain client and the signer of bifrost.

    A shallow embedding of the Go sources, with the statements of the
    specification proved (or refuted) against it.

    Conventions of the embedding
    - [sdk.Uint] (an unsigned big integer) is [N]; [int64] block heights are
      [Z], with Go's truncating [/] and [%] written [Z.quot] and [Z.rem] and
      the conversion [uint64(x)] written as reduction modulo 2^64.
    - A Go [error] is [option string]: [None] is [nil].  A function whose
      value is only used when the error is [nil] returns a [result]; a
      function whose value and error are both returned to the caller
      returns a pair, as in Go.
    - A handler runs inside a block transaction: on an error result the
      writes made so far are discarded, so a stateful operation is a
      function [KState -> result KState].
    - Functions of other packages ([common], the cosmos [sdk], [strconv])
      are the fields of the class [Externals]; the codec and the helpers
      of this package that the sources call but do not contain are the
      fields of the classes [Codec] and [Helpers].  The handler, the block
      metas, their database and the signer have classes of their own for
      what they call and the sources do not contain: [NodeOps],
      [HandlerOps], [UtxoOps], [JsonCodec], [IteratorOps], [SignerOps]. *)

From Stdlib Require Import ZArith NArith Lia Ascii String DecimalString.
From Stdlib Require Import DecimalPos DecimalN DecimalZ.
From stdpp Require Import base option list strings gmap sorting.

Local Open Scope string_scope.

(** ** Results and errors *)

Definition error := option string.

Inductive result (A : Type) : Type :=
| Ok (a : A)
| Err (e : string).
Arguments Ok {A} a.
Arguments Err {A} e.

Definition rbind {A B} (r : result A) (k : A -> result B) : result B :=
  match r with
  | Ok a => k a
  | Err e => Err e
  end.

Notation "'do' x <- r ; k" := (rbind r (fun x => k))
  (at level 10, x name, r at level 100, k at level 200).

Definition is_Ok {A} (r : result A) : bool :=
  match r with Ok _ => true | Err _ => false end.

(** [for _, x := range xs { st, err = body(st, x); if err != nil { return err } }] *)
Fixpoint forM {A S} (body : S -> A -> result S) (xs : list A) (st : S) : result S :=
  match xs with
  | [] => Ok st
  | x :: xs' => do st' <- body st x; forM body xs' st'
  end.

(** ** Strings: the fragments of Go's [strings], [strconv] and [fmt] in use *)

(** [strings.ToLower] on ASCII input: a string is its bytes, and on a
    string of bytes below 128 [strings.ToLower] lowers the letters A to Z
    and changes nothing else.  On a string with a byte from 128 on
    [strings.ToLower] goes by the runes of the string ([unicode.ToLower],
    which lowers the Kelvin sign U+212A to the letter k); such a string is
    outside of what [ToLower] models, and [isASCII] tells the strings that
    are inside. *)
Definition lower_ascii (c : ascii) : ascii :=
  let n := N_of_ascii c in
  if ((65 <=? n) && (n <=? 90))%N then ascii_of_N (n + 32) else c.

Fixpoint ToLower (s : string) : string :=
  match s with
  | EmptyString => EmptyString
  | String c s' => String (lower_ascii c) (ToLower s')
  end.

Definition isASCII (s : string) : bool :=
  forallb (fun c => (N_of_ascii c <? 128)%N) (list_ascii_of_string s).

(** [strings.Split(s, sep)] for a separator of one byte. *)
Fixpoint Split (s : string) (sep : ascii) : list string :=
  match s with
  | EmptyString => [EmptyString]
  | String c s' =>
      if Ascii.eqb c sep then EmptyString :: Split s' sep
      else match Split s' sep with
           | [] => [String c EmptyString]
           | p :: ps => String c p :: ps
           end
  end.

(** [strconv.FormatUint(n, 10)] and the [%d] verb. *)
Definition FormatUint (n : N) : string := NilZero.string_of_uint (N.to_uint n).
Definition FormatInt (z : Z) : string := NilZero.string_of_int (Z.to_int z).

(** [parts[i]]; every use in the source is guarded by a test of [len(parts)]. *)
Definition idx (parts : list string) (i : nat) : string := nth i parts "".

(** ** Data model *)

Definition Chain := string.
Definition Address := string.
Definition TxID := string.
Definition PubKey := string.
Definition AccAddress := list Byte.byte.

Definition NoAddress : Address := "".
Definition BlankTxID : TxID := "".

Record Asset : Type := mkAsset {
  Asset_Chain : Chain;
  Asset_Symbol : string;
  Asset_Ticker : string
}.

Definition EmptyAsset : Asset := mkAsset "" "" "".

(** Modelled from the spec: [Asset.Equals] is not in the sources; section 3
    has "equality is structural and case-insensitive on symbol". *)
Definition Asset_Equals (a b : Asset) : bool :=
  String.eqb (Asset_Chain a) (Asset_Chain b)
  && String.eqb (ToLower (Asset_Symbol a)) (ToLower (Asset_Symbol b))
  && String.eqb (Asset_Ticker a) (Asset_Ticker b).

Record Coin : Type := mkCoin {
  Coin_Asset : Asset;
  Coin_Amount : N
}.

(** Modelled from the spec: [common.One] is not in the sources; section 3
    has [ONE = 100_000_000]. *)
Definition One : N := 100000000.

(** Modelled from the spec: the constant is not in the sources; section 6
    has [MaxUnstakeBasisPoints = 10000]. *)
Definition MaxUnstakeBasisPoints : N := 10000.

(** Modelled from the spec: the constant is not in the sources; section 4.6
    places genesis at block height 1. *)
Definition genesisBlockHeight : Z := 1.

(** ** Functions of other packages *)

Class Externals : Type := {
  (** [common.NewAsset], [common.NewAddress], [common.NewTxID] *)
  NewAsset : string -> result Asset;
  NewAddress : string -> result Address;
  NewTxID : string -> TxID * error;
  (** [Chain.IsBNB] *)
  IsBNB : Chain -> bool;
  (** [sdk.ParseUint], [sdk.AccAddressFromBech32], [strconv.ParseInt(s, 10, 64)] *)
  ParseUint : string -> result N;
  AccAddressFromBech32 : string -> result AccAddress;
  ParseInt : string -> result Z;
  (** [PubKey.GetAddress(chain)] *)
  GetAddress : PubKey -> Chain -> result Address;
}.

(** ** Memo parser *)

Module Memo.

Inductive TxType : Type :=
| txUnknown
| txStake
| txUnstake
| txSwap
| txOutbound
| txAdd
| txGas
| txBond
| txLeave
| txYggdrasilFund
| txYggdrasilReturn
| txReserve
| txRefund
| txMigrate
| txRagnarok.

#[export] Instance TxType_eq_dec : EqDecision TxType.
Proof. solve_decision. Defined.

Definition stringToTxTypeMap : list (string * TxType) :=
  [ ("stake", txStake); ("st", txStake); ("+", txStake);
    ("withdraw", txUnstake); ("unstake", txUnstake); ("wd", txUnstake);
    ("-", txUnstake);
    ("swap", txSwap); ("s", txSwap); ("=", txSwap);
    ("outbound", txOutbound);
    ("add", txAdd); ("a", txAdd); ("%", txAdd);
    ("gas", txGas); ("g", txGas); ("$", txGas);
    ("bond", txBond);
    ("leave", txLeave);
    ("yggdrasil+", txYggdrasilFund);
    ("yggdrasil-", txYggdrasilReturn);
    ("reserve", txReserve);
    ("refund", txRefund);
    ("migrate", txMigrate);
    ("ragnarok", txRagnarok) ].

(** [m[k]] with the [ok] flag, for a map literal with distinct keys. *)
Fixpoint map_get {V} (m : list (string * V)) (k : string) : option V :=
  match m with
  | [] => None
  | (k', v) :: m' => if String.eqb k k' then Some v else map_get m' k
  end.

(** A missing key reads as the zero value, the empty string. *)
Definition txToStringMap (tx : TxType) : string :=
  match tx with
  | txStake => "stake"
  | txUnstake => "unstake"
  | txSwap => "swap"
  | txOutbound => "outbound"
  | txRefund => "refund"
  | txAdd => "add"
  | txGas => "gas"
  | txBond => "bond"
  | txLeave => "leave"
  | txYggdrasilFund => "yggdrasil+"
  | txYggdrasilReturn => "yggdrasil-"
  | txReserve => "reserve"
  | txMigrate => "migrate"
  | txRagnarok => "ragnarok"
  | txUnknown => ""
  end.

Definition stringToTxType (s : string) : TxType * error :=
  let sl := ToLower s in
  match map_get stringToTxTypeMap sl with
  | Some t => (t, None)
  | None => (txUnknown, Some ("invalid tx type: " ++ s))
  end.

Definition TxType_String (tx : TxType) : string := txToStringMap tx.

Definition TxType_Equals (tx tx2 : TxType) : bool :=
  String.eqb (TxType_String tx) (TxType_String tx2).

Record MemoBase : Type := mkMemoBase {
  TxType_of : TxType;
  Asset_of : Asset
}.

(** The zero value [MemoBase{}]. *)
Definition MemoBase0 : MemoBase := mkMemoBase txUnknown EmptyAsset.

(** The dynamic type of a value of the interface [Memo]: one constructor for
    each struct that embeds [MemoBase]. *)
Inductive Memo : Type :=
| BaseMemo (b : MemoBase)
| GasMemo (b : MemoBase)
| AddMemo (b : MemoBase)
| StakeMemo (b : MemoBase) (RuneAmount AssetAmount : string) (Addr : Address)
| UnstakeMemo (b : MemoBase) (Amount : string)
| SwapMemo (b : MemoBase) (Destination : Address) (SlipLimit : N)
| OutboundMemo (b : MemoBase) (txid : TxID)
| RefundMemo (b : MemoBase) (txid : TxID)
| BondMemo (b : MemoBase) (NodeAddress : AccAddress)
| LeaveMemo (b : MemoBase)
| YggdrasilFundMemo (b : MemoBase)
| YggdrasilReturnMemo (b : MemoBase)
| ReserveMemo (b : MemoBase)
| MigrateMemo (b : MemoBase) (BlockHeight : Z)
| RagnarokMemo (b : MemoBase) (BlockHeight : Z).

Definition base (m : Memo) : MemoBase :=
  match m with
  | BaseMemo b | GasMemo b | AddMemo b | StakeMemo b _ _ _ | UnstakeMemo b _
  | SwapMemo b _ _ | OutboundMemo b _ | RefundMemo b _ | BondMemo b _
  | LeaveMemo b | YggdrasilFundMemo b | YggdrasilReturnMemo b
  | ReserveMemo b | MigrateMemo b _ | RagnarokMemo b _ => b
  end.

Definition NewRagnarokMemo (blockHeight : Z) : Memo := RagnarokMemo MemoBase0 blockHeight.
Definition NewMigrateMemo (blockHeight : Z) : Memo := MigrateMemo MemoBase0 blockHeight.
Definition NewOutboundMemo (txID : TxID) : Memo := OutboundMemo MemoBase0 txID.
Definition NewRefundMemo (txID : TxID) : Memo := RefundMemo MemoBase0 txID.

(** Base functions, promoted to every struct, and their overrides. *)
Definition GetType (m : Memo) : TxType := TxType_of (base m).
Definition IsType (m : Memo) (tx : TxType) : bool := TxType_Equals (TxType_of (base m)) tx.
Definition GetAsset (m : Memo) : Asset := Asset_of (base m).

Definition GetAmount (m : Memo) : string :=
  match m with UnstakeMemo _ a => a | _ => "" end.

Definition GetDestination (m : Memo) : Address :=
  match m with
  | SwapMemo _ d _ => d
  | StakeMemo _ _ _ a => a
  | _ => ""
  end.

Definition GetSlipLimit (m : Memo) : N :=
  match m with SwapMemo _ _ s => s | _ => 0%N end.

Definition GetTxID (m : Memo) : TxID :=
  match m with OutboundMemo _ t | RefundMemo _ t => t | _ => "" end.

Definition GetBlockHeight (m : Memo) : Z :=
  match m with MigrateMemo _ h | RagnarokMemo _ h => h | _ => 0%Z end.

Definition Memo_String (m : Memo) : string :=
  match m with
  | OutboundMemo _ t => "OUTBOUND:" ++ t
  | RefundMemo _ t => "REFUND:" ++ t
  | MigrateMemo _ h => "MIGRATE:" ++ FormatInt h
  | RagnarokMemo _ h => "RAGNAROK:" ++ FormatInt h
  | _ => ""
  end.

Definition noAssetMemos : list TxType :=
  [ txGas; txOutbound; txBond; txLeave; txRefund;
    txYggdrasilFund; txYggdrasilReturn; txReserve;
    txMigrate; txRagnarok ].

(** The type that [ParseMemo] stores in the memo it returns for an action:
    the constant written in the matching case, the zero value where the case
    builds the memo with [NewOutboundMemo] or [NewRefundMemo]. *)
Definition storedType (tx : TxType) : TxType :=
  match tx with
  | txReserve => txYggdrasilReturn
  | txOutbound | txRefund => txUnknown
  | _ => tx
  end.

Section Parse.
Context `{Ext : Externals}.

Definition noMemo : Memo := BaseMemo MemoBase0.

Definition ParseMemo (memo : string) : Memo * error :=
  if (String.length memo =? 0)%nat then (noMemo, Some "memo can't be empty") else
  let parts := Split memo ":" in
  match stringToTxType (idx parts 0) with
  | (_, Some err) => (noMemo, Some err)
  | (tx, None) =>
    let hasAsset :=
      fold_left (fun has memoType => if bool_decide (tx = memoType) then false else has)
                noAssetMemos true in
    let parsed_asset :=
      if hasAsset then
        if (length parts <? 2)%nat
        then Err ("cannot parse given memo: length " ++ FormatUint (N.of_nat (length parts)))
        else NewAsset (idx parts 1)
      else Ok EmptyAsset in
    match parsed_asset with
    | Err e => (noMemo, Some e)
    | Ok asset =>
      match tx with
      | txGas => (GasMemo (mkMemoBase txGas EmptyAsset), None)
      | txLeave => (LeaveMemo (mkMemoBase txLeave EmptyAsset), None)
      | txAdd => (AddMemo (mkMemoBase txAdd asset), None)
      | txStake =>
          if negb (IsBNB (Asset_Chain asset)) then
            if (length parts <? 3)%nat then
              (noMemo, Some "invalid stake. Cannot stake to a non BNB-based pool without providing an associated address")
            else
              match NewAddress (idx parts 2) with
              | Err e => (noMemo, Some e)
              | Ok addr => (StakeMemo (mkMemoBase txStake asset) "" "" addr, None)
              end
          else (StakeMemo (mkMemoBase txStake asset) "" "" NoAddress, None)
      | txUnstake =>
          if (length parts <? 2)%nat then (noMemo, Some "invalid unstake memo") else
          if (2 <? length parts)%nat then
            let withdrawAmount := idx parts 2 in
            match ParseUint withdrawAmount with
            | Err e => (noMemo, Some e)
            | Ok wa =>
                if negb (0 <? wa)%N || (MaxUnstakeBasisPoints <? wa)%N then
                  (noMemo, Some ("withdraw amount :" ++ withdrawAmount ++ " is invalid"))
                else (UnstakeMemo (mkMemoBase txUnstake asset) withdrawAmount, None)
            end
          else (UnstakeMemo (mkMemoBase txUnstake asset) "", None)
      | txSwap =>
          if (length parts <? 2)%nat then
            (noMemo, Some "missing swap parameters: memo should in SWAP:SYMBOLXX-XXX:DESTADDR:TRADE-TARGET format")
          else
            let dest :=
              if (2 <? length parts)%nat && (0 <? String.length (idx parts 2))%nat
              then NewAddress (idx parts 2) else Ok NoAddress in
            match dest with
            | Err e => (noMemo, Some e)
            | Ok destination =>
                let slip :=
                  if (3 <? length parts)%nat && (0 <? String.length (idx parts 3))%nat then
                    match ParseUint (idx parts 3) with
                    | Err _ => Err ("swap price limit:" ++ idx parts 3 ++ " is invalid")
                    | Ok amount => Ok amount
                    end
                  else Ok 0%N in
                match slip with
                | Err e => (noMemo, Some e)
                | Ok s => (SwapMemo (mkMemoBase txSwap asset) destination s, None)
                end
            end
      | txOutbound =>
          if (length parts <? 2)%nat then (noMemo, Some "not enough parameters") else
          let '(txID, err) := NewTxID (idx parts 1) in
          (NewOutboundMemo txID, err)
      | txRefund =>
          if (length parts <? 2)%nat then (noMemo, Some "not enough parameters") else
          let '(txID, err) := NewTxID (idx parts 1) in
          (NewRefundMemo txID, err)
      | txBond =>
          if (length parts <? 2)%nat then (noMemo, Some "not enough parameters") else
          match AccAddressFromBech32 (idx parts 1) with
          | Err e => (noMemo, Some (idx parts 1 ++ " is an invalid thorchain address: " ++ e))
          | Ok addr => (BondMemo (mkMemoBase txBond EmptyAsset) addr, None)
          end
      | txYggdrasilFund => (YggdrasilFundMemo (mkMemoBase txYggdrasilFund EmptyAsset), None)
      | txYggdrasilReturn => (YggdrasilReturnMemo (mkMemoBase txYggdrasilReturn EmptyAsset), None)
      | txReserve => (ReserveMemo (mkMemoBase txYggdrasilReturn EmptyAsset), None)
      | txMigrate =>
          if (length parts <? 2)%nat then (noMemo, Some "not enough parameters") else
          match ParseInt (idx parts 1) with
          | Err e => (noMemo, Some ("fail to convert (" ++ idx parts 1 ++ ") to a valid block height: " ++ e))
          | Ok blockHeight => (MigrateMemo (mkMemoBase txMigrate EmptyAsset) blockHeight, None)
          end
      | txRagnarok =>
          if (length parts <? 2)%nat then (noMemo, Some "not enough parameters") else
          match ParseInt (idx parts 1) with
          | Err e => (noMemo, Some ("fail to convert (" ++ idx parts 1 ++ ") to a valid block height: " ++ e))
          | Ok blockHeight => (RagnarokMemo (mkMemoBase txRagnarok EmptyAsset) blockHeight, None)
          end
      | txUnknown => (noMemo, Some ("TxType not supported: " ++ TxType_String tx))
      end
    end
  end.

End Parse.

End Memo.

(** ** Pool-unit issuance on stake *)

Module Stake.

Local Open Scope N_scope.

(** Modelled from the spec: [calculatePoolUnits] is not in the sources, only
    its tests are.  Section 4.2 leaves the function to the reference
    implementation ("the exact variant is the one present in the reference
    implementation") and asks that it fail with "total RUNE is zero" /
    "total asset is zero" when the first stake is one-sided into an empty
    pool.  The variant here is the one that the values of the specification
    and of the tests of the repository determine (scenarios 1 and 2 of
    section 8, the rows of [TestCalculatePoolUnits], the 11_250_000_000
    units of [TestStake]): with [R] and [A] the balances after the stake,
      units_added = (R + A) * (r*A + R*a) / (4*R*A)
    rounded to the nearest unit, halves upwards.  The formula displayed in
    section 4.2, [U * (r*A + a*R) / (2*R*A + r*A + a*R)], gives other
    values on these inputs and is not the one modelled.  The function
    returns the new pool units, the units of the staker and the error; on
    an error both amounts are zero, and the message is spelled as the test
    table spells it. *)
Definition calculatePoolUnits (oldPoolUnits poolRune poolAsset stakeRune stakeAsset : N)
  : N * N * error :=
  if stakeRune + poolRune =? 0 then
    (0, 0, Some "total RUNE in the pool is zero"%string)
  else if stakeAsset + poolAsset =? 0 then
    (0, 0, Some "total asset in the pool is zero"%string)
  else
    let poolRuneAfter := poolRune + stakeRune in
    let poolAssetAfter := poolAsset + stakeAsset in
    let nominator1 := poolRuneAfter + poolAssetAfter in
    let nominator2 := stakeRune * poolAssetAfter + poolRuneAfter * stakeAsset in
    let denominator := 4 * poolRuneAfter * poolAssetAfter in
    let stakeUnits := (2 * (nominator1 * nominator2) + denominator) / (2 * denominator) in
    (oldPoolUnits + stakeUnits, stakeUnits, None).




End Stake.

(** ** Vaults, node accounts, keygens and the keeper state *)

Inductive VaultType : Type := UnknownVault | AsgardVault | YggdrasilVault.
Inductive VaultStatus : Type := ActiveVault | RetiringVault | InactiveVault.
Inductive NodeStatus : Type :=
| NodeUnknown | NodeWhiteListed | NodeStandby | NodeReady | NodeActive | NodeDisabled.

#[export] Instance VaultType_eq_dec : EqDecision VaultType.
Proof. solve_decision. Defined.
#[export] Instance VaultStatus_eq_dec : EqDecision VaultStatus.
Proof. solve_decision. Defined.
#[export] Instance NodeStatus_eq_dec : EqDecision NodeStatus.
Proof. solve_decision. Defined.

Record Vault : Type := mkVault {
  Vault_BlockHeight : Z;
  Vault_PubKey : PubKey;
  Vault_Coins : list Coin;
  Vault_Type : VaultType;
  Vault_Status : VaultStatus;
  Vault_StatusSince : Z;
  Vault_Membership : list PubKey
}.

Record NodeAccount : Type := mkNodeAccount {
  NodeAccount_NodeAddress : string;
  NodeAccount_Status : NodeStatus;
  NodeAccount_PubKey : PubKey;   (* [PubKeySet.Secp256k1] *)
  NodeAccount_Bond : N
}.

Record Keygens : Type := mkKeygens {
  Keygens_Height : N;
  Keygens_Keygens : list (list PubKey)
}.

Record Tx : Type := mkTx {
  Tx_ID : TxID;
  Tx_Chain : Chain;
  Tx_FromAddress : Address;
  Tx_ToAddress : Address;
  Tx_Coins : list Coin;
  Tx_Memo : string
}.

Record TxOutItem : Type := mkTxOutItem {
  TxOutItem_Chain : Chain;
  TxOutItem_ToAddress : Address;
  TxOutItem_VaultPubKey : PubKey;
  TxOutItem_Coin : Coin;
  TxOutItem_Memo : string;
  TxOutItem_InHash : TxID
}.

Record MsgYggdrasil : Type := mkMsgYggdrasil {
  Msg_PubKey : PubKey;
  Msg_AddFunds : bool;
  Msg_Coins : list Coin;
  Msg_Tx : Tx
}.

(** [semver.Version] *)
Definition Version : Type := N * N * N.

(** Modelled from the spec: [NewVault] is not in the sources.  Section 3
    gives the record; a new vault has its height, status, type and pub key
    set, its status dated at that height, and no coins or members. *)
Definition NewVault (height : Z) (status : VaultStatus) (vtype : VaultType) (pk : PubKey) : Vault :=
  mkVault height pk [] vtype status height [].

(** Modelled from the spec: [NewKeygens] is not in the sources.  Section 3
    has [Keygens {height, groups}]; a new record has its height set and no
    group. *)
Definition NewKeygens (height : N) : Keygens := mkKeygens height [].

(** Modelled from the spec: [Vault.HasFunds] is not in the sources.  Section
    4.6 speaks of a "vault with nonzero funds": some coin has an amount that
    is not zero. *)
Definition Vault_HasFunds (v : Vault) : bool :=
  existsb (fun c => negb (Coin_Amount c =? 0)%N) (Vault_Coins v).

(** Modelled from the spec: [Vault.GetCoin] is not in the sources.  Section 3
    has [coins: mapping<Asset, U>]: the coin of the asset, with amount zero
    when the asset is not held. *)
Fixpoint Coins_GetCoin (cs : list Coin) (asset : Asset) : Coin :=
  match cs with
  | [] => mkCoin asset 0
  | c :: cs' => if Asset_Equals asset (Coin_Asset c) then c else Coins_GetCoin cs' asset
  end.

(** [v.GetCoin(asset)] *)
Definition Vault_GetCoin (v : Vault) (asset : Asset) : Coin :=
  Coins_GetCoin (Vault_Coins v) asset.

Definition set_Membership (v : Vault) (m : list PubKey) : Vault :=
  mkVault (Vault_BlockHeight v) (Vault_PubKey v) (Vault_Coins v) (Vault_Type v)
          (Vault_Status v) (Vault_StatusSince v) m.

Definition set_Bond (na : NodeAccount) (b : N) : NodeAccount :=
  mkNodeAccount (NodeAccount_NodeAddress na) (NodeAccount_Status na) (NodeAccount_PubKey na) b.

(** The codec of the store, [cdc.MarshalBinaryBare] and
    [cdc.UnmarshalBinaryBare] at [Keygens], with the encoded form [Buf] of a
    record, the key of a record, [KVStore.GetKey(ctx, prefix, key)], and
    the text of the error that [dbError(ctx, wrap, err)] builds; none of
    them is in the sources. *)
Class Codec : Type := {
  Buf : Type;
  MarshalBinaryBare : Keygens -> result Buf;
  UnmarshalBinaryBare : Buf -> result Keygens;
  GetKey : string -> string -> string;
  dbError : string -> string -> string;
}.

Definition prefixKeygen : string := "keygen".

Section Keeper.
Context `{Ext : Externals} `{Cdc : Codec}.

(** The state behind the keeper: the vault and node account records in
    iteration order, the raw store that holds the keygens, and the items
    handed to the outbound store, oldest first. *)
Record KState : Type := mkKState {
  ks_vaults : list Vault;
  ks_nodes : list NodeAccount;
  ks_store : gmap string Buf;
  ks_txout : list TxOutItem
}.

Definition set_vaults (st : KState) (vs : list Vault) : KState :=
  mkKState vs (ks_nodes st) (ks_store st) (ks_txout st).
Definition set_nodes (st : KState) (ns : list NodeAccount) : KState :=
  mkKState (ks_vaults st) ns (ks_store st) (ks_txout st).
Definition set_store (st : KState) (m : gmap string Buf) : KState :=
  mkKState (ks_vaults st) (ks_nodes st) m (ks_txout st).
Definition set_txout (st : KState) (q : list TxOutItem) : KState :=
  mkKState (ks_vaults st) (ks_nodes st) (ks_store st) q.

(** *** Keygens in the store *)

(** [k.GetKey(ctx, prefixKeygen, strconv.FormatUint(height, 10))] *)
Definition keygenKey (height : N) : string := GetKey prefixKeygen (FormatUint height).

Definition SetKeygens (st : KState) (keygens : Keygens) : result KState :=
  let key := keygenKey (Keygens_Height keygens) in
  match MarshalBinaryBare keygens with
  | Err err => Err (dbError "fail to marshal keygens" err)
  | Ok buf => Ok (set_store st (<[key := buf]> (ks_store st)))
  end.

Definition GetKeygens (st : KState) (height : N) : Keygens * error :=
  let key := keygenKey height in
  match ks_store st !! key with
  | None => (NewKeygens height, None)
  | Some buf =>
      match UnmarshalBinaryBare buf with
      | Err err => (mkKeygens 0 [], Some (dbError "fail to unmarshal keygens" err))
      | Ok keygens => (keygens, None)
      end
  end.

(** *** Keeper operations on vaults and node accounts

    The keeper is an interface whose implementation for vaults and node
    accounts is not in the sources.  Section 4.3 lists its operations; here
    they work on the lists of records, keyed by pub key, and do not fail
    except for a node account that does not exist. *)

(** Modelled from the spec: [get_vaults_by_status(status, type)] of section
    4.3, for the asgard type and any status. *)
Definition GetAsgardVaults (st : KState) : list Vault :=
  filter (fun v => Vault_Type v = AsgardVault) (ks_vaults st).

(** Modelled from the spec: [get_vaults_by_status(status, type)] of section
    4.3, for the asgard type. *)
Definition GetAsgardVaultsByStatus (st : KState) (status : VaultStatus) : list Vault :=
  filter (fun v => Vault_Status v = status) (GetAsgardVaults st).

(** Modelled from the spec: [list_active_nodes] of section 4.3. *)
Definition ListActiveNodeAccounts (st : KState) : list NodeAccount :=
  filter (fun na => NodeAccount_Status na = NodeActive) (ks_nodes st).

(** Modelled from the spec: [delete_vault] of section 4.3. *)
Definition DeleteVault (st : KState) (pk : PubKey) : KState :=
  set_vaults st (filter (fun v => Vault_PubKey v <> pk) (ks_vaults st)).

(** Modelled from the spec: [set_vault] of section 4.3; the record replaces
    the one stored under its pub key. *)
Definition SetVault (st : KState) (vault : Vault) : KState :=
  set_vaults st (filter (fun v => Vault_PubKey v <> Vault_PubKey vault) (ks_vaults st) ++ [vault]).

(** Modelled from the spec: [get_node_account] of section 4.3, by the pub key
    of the node. *)
Definition GetNodeAccountByPubKey (st : KState) (pk : PubKey) : result NodeAccount :=
  match List.find (fun na => bool_decide (NodeAccount_PubKey na = pk)) (ks_nodes st) with
  | Some na => Ok na
  | None => Err "node account not found"
  end.

(** Modelled from the spec: [set_node_account] of section 4.3; the record
    replaces the one stored under its pub key, or is added. *)
Definition SetNodeAccount (st : KState) (na : NodeAccount) : KState :=
  let same x := bool_decide (NodeAccount_PubKey x = NodeAccount_PubKey na) in
  set_nodes st (if existsb same (ks_nodes st)
                then map (fun x => if same x then na else x) (ks_nodes st)
                else ks_nodes st ++ [na]).

End Keeper.

(** Helpers of this package that the sources call but do not contain.
    - [GetTxOutStore version]: whether the versioned outbound store exists.
    - [TryAddTxOutItem_err toi]: the error, if any, with which the outbound
      store refuses an item.
    - [AssetValueInRune asset amt]: the value of an asset amount in RUNE
      at the pool price; no operation modelled here changes a pool.
    - [refundBond tx na st]: the bond refund of a node account.
    - [upsertYggdrasilReturnEvent height msg st]: building and saving the
      event of a return observed on an asgard vault. *)
Class Helpers `{Cdc : Codec} : Type := {
  GetTxOutStore : Version -> bool;
  TryAddTxOutItem_err : TxOutItem -> error;
  AssetValueInRune : Asset -> N -> N;
  refundBond : Tx -> NodeAccount -> KState -> result KState;
  upsertYggdrasilReturnEvent : Z -> MsgYggdrasil -> KState -> result KState;
}.

(** ** [sdk.Uint] and [int64] arithmetic *)

Definition MaxUint : N := 2 ^ 256 - 1.

(** [u.MulUint64(k)]: the product, a panic when it does not fit 256 bits. *)
Definition Uint_MulUint64 (u k : N) : result N :=
  if (u * k <=? MaxUint)%N then Ok (u * k)%N else Err "panic: Uint overflow".

(** [u.QuoUint64(k)] *)
Definition Uint_QuoUint64 (u k : N) : result N :=
  if (k =? 0)%N then Err "panic: division by zero" else Ok (u / k)%N.

(** [int64] wrap-around and the conversion [uint64(x)]. *)
Definition wrap64 (z : Z) : Z := ((z + 2 ^ 63) mod 2 ^ 64 - 2 ^ 63)%Z.
Definition uint64 (z : Z) : N := Z.to_N (z mod 2 ^ 64).

(** ** Vault manager *)

Module VaultMgr.
Section VaultMgr.
Context `{Ext : Externals} `{Hlp : Helpers}.

Definition errBadVersion : string := "bad version".

(** Modelled from the spec: [TxOutStore.TryAddTxOutItem] is not in the
    sources.  [EndBlock] hands the store one item for each coin that is
    due: [ks_txout] is the log of the items handed over, in order, and the
    store may refuse an item with an error.  What section 4.5 has the store
    do with an item that it takes (dropping an item whose in_hash,
    to_address and asset are those of a pending one, deducting the amount
    from the vault that pays, the gas) is not modelled.  [EndBlock] reads
    the vaults before its loops, so nothing that it computes depends on it;
    what is said below of the vault records after [EndBlock] is said of
    blocks in which no item is handed over. *)
Definition TryAddTxOutItem (st : KState) (toi : TxOutItem) : result KState :=
  match TryAddTxOutItem_err toi with
  | Some err => Err err
  | None => Ok (set_txout st (ks_txout st ++ [toi]))
  end.

Definition TriggerKeygen (height : Z) (st : KState) (nas : list NodeAccount) : result KState :=
  let keygen := map NodeAccount_PubKey nas in
  let keygens := NewKeygens (Z.to_N height) in
  let keygens := mkKeygens (Keygens_Height keygens) [keygen] in
  SetKeygens st keygens.

Definition processGenesisSetup (height : Z) (st : KState) : result KState :=
  if negb (height =? genesisBlockHeight)%Z then Ok st else
  let vaults := GetAsgardVaults st in
  if (0 <? length vaults)%nat then Ok st else
  let active := ListActiveNodeAccounts st in
  match active with
  | [] => Err "no active accounts,cannot proceed"
  | [na] =>
      let vault := NewVault 0 ActiveVault AsgardVault (NodeAccount_PubKey na) in
      let vault := set_Membership vault [NodeAccount_PubKey na] in
      Ok (SetVault st vault)
  | _ =>
      match TriggerKeygen height st active with
      | Err err => Err ("fail to trigger a keygen: " ++ err)
      | Ok st' => Ok st'
      end
  end.

(** The receiver of a coin: the loop over the active asgards that keeps the
    first vault with the least amount of the asset.  [a0] is [active[0]]. *)
Definition pickReceiver (a0 : Vault) (active : list Vault) (asset : Asset) : Coin * PubKey :=
  fold_left
    (fun '(cn, pk) asgard =>
       if (Coin_Amount (Vault_GetCoin asgard asset) <? Coin_Amount cn)%N
       then (Vault_GetCoin asgard asset, Vault_PubKey asgard)
       else (cn, pk))
    active (Vault_GetCoin a0 asset, Vault_PubKey a0).

(** [nth], the number of the migration round. *)
Definition migrateRound (height statusSince migrateInterval : Z) : Z :=
  wrap64 (Z.quot (height - statusSince) migrateInterval + 1).

Definition migrateAmount (nth : Z) (amount : N) : result N :=
  if (nth <? 5)%Z then
    do m <- Uint_MulUint64 amount (uint64 nth);
    Uint_QuoUint64 m 5
  else Ok amount.

(** The body of the loop over the coins of a retiring vault. *)
Definition migrateCoin (height migrateInterval : Z) (a0 : Vault) (active : list Vault)
    (vault : Vault) (st : KState) (coin : Coin) : result KState :=
  let '(cn, pk) := pickReceiver a0 active (Coin_Asset coin) in
  do addr <- GetAddress pk (Asset_Chain (Coin_Asset coin));
  let nth := migrateRound height (Vault_StatusSince vault) migrateInterval in
  do amt <- migrateAmount nth (Coin_Amount coin);
  let toi := mkTxOutItem (Asset_Chain (Coin_Asset coin)) addr (Vault_PubKey vault)
                         (mkCoin (Coin_Asset coin) amt) "migrate" BlankTxID in
  TryAddTxOutItem st toi.

(** The body of the loop over the retiring vaults.  A zero interval makes
    [%] panic. *)
Definition migrateVault (height migrateInterval : Z) (a0 : Vault) (active : list Vault)
    (st : KState) (vault : Vault) : result KState :=
  if negb (Vault_HasFunds vault) then Ok (DeleteVault st (Vault_PubKey vault)) else
  if (migrateInterval =? 0)%Z then Err "panic: integer divide by zero" else
  if (Z.rem (height - Vault_StatusSince vault) migrateInterval =? 0)%Z then
    forM (migrateCoin height migrateInterval a0 active vault) (Vault_Coins vault) st
  else Ok st.

Definition EndBlock (height : Z) (version : Version) (migrateInterval : Z) (st : KState)
  : result KState :=
  if (height =? genesisBlockHeight)%Z then processGenesisSetup height st else
  let retiring := GetAsgardVaultsByStatus st RetiringVault in
  let active := GetAsgardVaultsByStatus st ActiveVault in
  match active with
  | [] => Ok st
  | a0 :: _ =>
      if negb (GetTxOutStore version) then Err errBadVersion else
      forM (migrateVault height migrateInterval a0 active) retiring st
  end.

(** The schedule in the words of the specification: the round is
    [nth = 1 + (now - status_since) / interval], the amount is
    [balance * nth / 5] while [nth < 5] and the whole balance from the fifth
    round on.  [diff] is [now - status_since]. *)
Definition scheduleAmount (diff interval : Z) (balance : N) : N :=
  let nth := (1 + diff / interval)%Z in
  if (nth <? 5)%Z then (balance * Z.to_N nth / 5)%N else balance.

(** The coins that are due at [height]: those of the retiring vaults that
    have funds and whose age is a multiple of the interval, in the order of
    the two loops. *)
Definition dueCoins (height migrateInterval : Z) (retiring : list Vault) : list (Vault * Coin) :=
  flat_map (fun vault =>
              if Vault_HasFunds vault
                 && (Z.rem (height - Vault_StatusSince vault) migrateInterval =? 0)%Z
              then map (pair vault) (Vault_Coins vault) else []) retiring.

(** A retiring vault as the loop expects it: retired at a height between 0
    and the current one, with amounts that fit the 128 bits of section 3. *)
Definition wellFormed (height : Z) (vault : Vault) : Prop :=
  (0 <= Vault_StatusSince vault <= height)%Z
  /\ Forall (fun c => (Coin_Amount c < 2 ^ 128)%N) (Vault_Coins vault).

(** The item queued for a due coin. *)
Definition migrationItem (height migrateInterval : Z) (a0 : Vault) (active : list Vault)
    (vc : Vault * Coin) (toi : TxOutItem) : Prop :=
  let '(vault, coin) := vc in
  GetAddress (snd (pickReceiver a0 active (Coin_Asset coin))) (Asset_Chain (Coin_Asset coin))
  = Ok (TxOutItem_ToAddress toi)
  /\ toi = mkTxOutItem (Asset_Chain (Coin_Asset coin)) (TxOutItem_ToAddress toi)
                       (Vault_PubKey vault)
                       (mkCoin (Coin_Asset coin)
                               (scheduleAmount (height - Vault_StatusSince vault)
                                               migrateInterval (Coin_Amount coin)))
                       "migrate" BlankTxID.

End VaultMgr.
End VaultMgr.

(** ** Yggdrasil handler: funds returned by a yggdrasil vault *)

Module Yggdrasil.
Section Yggdrasil.
Context `{Ext : Externals} `{Hlp : Helpers}.

(** Modelled from the spec: [Vaults.HasAddress] is not in the sources.
    Section 4.6: a return "must be addressed to an Active asgard vault".  An
    address belongs to the vaults when it is the address of one of their pub
    keys on the chain. *)
Fixpoint Vaults_HasAddress (vs : list Vault) (chain : Chain) (address : Address) : result bool :=
  match vs with
  | [] => Ok false
  | v :: vs' =>
      do addr <- GetAddress (Vault_PubKey v) chain;
      if String.eqb addr address then Ok true else Vaults_HasAddress vs' chain address
  end.

(** Modelled from the spec: [slashNodeAccount] is not in the sources.
    Section 4.6: "the node's bond is slashed by the asset amount (valued in
    RUNE via pool price)".  The bond is an unsigned amount, which a slash
    cannot take below zero. *)
Definition slashNodeAccount (st : KState) (pk : PubKey) (asset : Asset) (slashAmount : N)
  : result KState :=
  do na <- GetNodeAccountByPubKey st pk;
  let runeValue := AssetValueInRune asset slashAmount in
  Ok (SetNodeAccount st (set_Bond na (NodeAccount_Bond na - runeValue)%N)).

(** The slashing loop of [handleYggdrasilReturn]. *)
Definition slashCoins (pk : PubKey) (coins : list Coin) (st : KState) : result KState :=
  forM (fun st c =>
          match slashNodeAccount st pk (Coin_Asset c) (Coin_Amount c) with
          | Err _ => Err "fail to slash account"
          | Ok st' => Ok st'
          end) coins st.

(** The RUNE value of the coins of a transaction, each coin counted once. *)
Definition slashedValue (coins : list Coin) : N :=
  fold_right (fun c acc => (AssetValueInRune (Coin_Asset c) (Coin_Amount c) + acc)%N) 0%N coins.

Definition handleYggdrasilReturn (height : Z) (msg : MsgYggdrasil) (vault : Vault)
    (version : Version) (st : KState) : result KState :=
  if bool_decide (Vault_Type vault = YggdrasilVault) then
    let asgardVaults := GetAsgardVaultsByStatus st ActiveVault in
    match Vaults_HasAddress asgardVaults (Tx_Chain (Msg_Tx msg)) (Tx_ToAddress (Msg_Tx msg)) with
    | Err _ => Err "unable to check recipient against active Asgards"
    | Ok isAsgardReceipient =>
        do st1 <- (if negb isAsgardReceipient
                   then slashCoins (Msg_PubKey msg) (Tx_Coins (Msg_Tx msg)) st
                   else Ok st);
        do na <- GetNodeAccountByPubKey st1 (Msg_PubKey msg);
        if bool_decide (NodeAccount_Status na = NodeActive) then Ok st1 else
        if negb (GetTxOutStore version) then Err VaultMgr.errBadVersion else
        refundBond (Msg_Tx msg) na st1
    end
  else if bool_decide (Vault_Type vault = AsgardVault) then
    upsertYggdrasilReturnEvent height msg st
  else Ok st.

End Yggdrasil.
End Yggdrasil.

(** ** An instance of the parameters, to run the model on concrete inputs *)

Module Sample.

Definition parse_dec (s : string) : result N :=
  match NilZero.uint_of_string s with
  | Some u => Ok (N.of_uint u)
  | None => Err ("cannot convert " ++ s ++ " to big.Int")
  end.

Definition new_asset (s : string) : result Asset :=
  match Split s "." with
  | [sym] => if (String.length sym =? 0)%nat then Err "invalid symbol"
             else Ok (mkAsset "BNB" sym sym)
  | [chain; sym] => if (String.length sym =? 0)%nat then Err "invalid symbol"
                    else Ok (mkAsset chain sym sym)
  | _ => Err "invalid asset"
  end.

#[export] Instance externals : Externals := {|
  NewAsset := new_asset;
  NewAddress := fun s => if (String.length s =? 0)%nat then Err "address is empty" else Ok s;
  NewTxID := fun s => if (String.length s =? 64)%nat then (s, None)
                      else ("", Some "TxID Error: Must be 64 characters");
  IsBNB := fun c => String.eqb c "BNB";
  ParseUint := parse_dec;
  AccAddressFromBech32 := fun _ => Err "decoding bech32 failed";
  ParseInt := fun s => match parse_dec s with Ok n => Ok (Z.of_N n) | Err e => Err e end;
  GetAddress := fun pk chain => Ok (chain ++ "/" ++ pk)
|}.

#[export] Instance codec : Codec := {|
  Buf := Keygens;
  MarshalBinaryBare := Ok;
  UnmarshalBinaryBare := Ok;
  GetKey := fun prefix key => prefix ++ "/" ++ key;
  dbError := fun wrap err => wrap ++ ": " ++ err
|}.

#[export] Instance helpers : Helpers := {|
  GetTxOutStore := fun _ => true;
  TryAddTxOutItem_err := fun _ => None;
  AssetValueInRune := fun _ amt => amt;
  refundBond := fun _ na st => Ok (SetNodeAccount st (set_Bond na 0));
  upsertYggdrasilReturnEvent := fun _ _ st => Ok st
|}.

Definition BTC : Asset := mkAsset "BTC" "BTC" "BTC".
Definition BNB : Asset := mkAsset "BNB" "BNB" "BNB".

(** Node accounts: two active nodes and one on standby. *)
Definition node1 : NodeAccount := mkNodeAccount "thor1" NodeActive "pk1" (100 * One).
Definition node2 : NodeAccount := mkNodeAccount "thor2" NodeActive "pk2" (100 * One).
Definition node3 : NodeAccount := mkNodeAccount "thor3" NodeStandby "pk3" (100 * One).

(** Scenario 6 of the specification: the yggdrasil vault of the third node
    sends 2 BNB and 1 BTC to an address that is not the address of the
    active asgard vault. *)
Definition yggVault : Vault :=
  mkVault 20 "pk3" [mkCoin BNB (5 * One)] YggdrasilVault ActiveVault 20 ["pk3"].

Definition misdirected : MsgYggdrasil :=
  let coins := [mkCoin BNB (2 * One); mkCoin BTC (1 * One)] in
  mkMsgYggdrasil "pk3" false coins
    (mkTx "A1B2" "BNB" "BNB/pk3" "BNB/elsewhere" coins "yggdrasil-").

(** Scenario 5 of the specification: a retiring vault with 1000 BTC, retired
    at height [H], next to one active asgard vault. *)
Definition H : Z := 5000.

Definition retiringVault : Vault :=
  mkVault 10 "asgard0" [mkCoin BTC (1000 * One)] AsgardVault RetiringVault H ["node1"].

Definition activeVault : Vault :=
  mkVault H "asgard1" [] AsgardVault ActiveVault H ["node1"; "node2"].

Definition migrating : KState :=
  mkKState [retiringVault; activeVault; yggVault] [node1; node2; node3] ∅ [].

(** The amounts of the items queued by [EndBlock] at [height]. *)
Definition migratedAt (height : Z) : result (list N) :=
  match VaultMgr.EndBlock height (0, 1, 0)%N 100 migrating with
  | Ok st' => Ok (map (fun toi => Coin_Amount (TxOutItem_Coin toi)) (ks_txout st'))
  | Err e => Err e
  end.

End Sample.

(** ** Vault manager: rotation *)

(** [NodeAccount.TryAddSignerPubKey] is not in the sources, and the signer
    membership that it extends is not among the fields kept of a node
    account: it is a function on node accounts. *)
Class NodeOps : Type := {
  TryAddSignerPubKey : NodeAccount -> PubKey -> NodeAccount;
}.

(** Modelled from the spec: [Vault.Contains] is not in the sources.  Section
    3 has [membership: set<PubKey>]: the pub key is one of the members. *)
Definition Vault_Contains (v : Vault) (pk : PubKey) : bool :=
  existsb (String.eqb pk) (Vault_Membership v).

(** Modelled from the spec: [Vault.UpdateStatus] is not in the sources.
    Section 4.6: "marked Retiring with status_since = now". *)
Definition Vault_UpdateStatus (v : Vault) (status : VaultStatus) (height : Z) : Vault :=
  mkVault (Vault_BlockHeight v) (Vault_PubKey v) (Vault_Coins v) (Vault_Type v)
          status height (Vault_Membership v).

Module Rotation.
Section Rotation.
Context `{Ext : Externals} `{Hlp : Helpers} `{Nops : NodeOps}.

(** The inner loop over the members of an active asgard, left at the first
    member that the new vault contains. *)
Definition conflicts (vault asgard : Vault) : bool :=
  existsb (Vault_Contains vault) (Vault_Membership asgard).

(** The body of the loop over the active asgards. *)
Definition retireConflicting (height : Z) (vault : Vault) (st : KState) (asgard : Vault) : KState :=
  if conflicts vault asgard
  then SetVault st (Vault_UpdateStatus asgard RetiringVault height)
  else st.

(** The body of the loop over the members of the new vault. *)
Definition addSigner (vault : Vault) (st : KState) (member : PubKey) : result KState :=
  do na <- GetNodeAccountByPubKey st member;
  Ok (SetNodeAccount st (TryAddSignerPubKey na (Vault_PubKey vault))).

Definition RotateVault (height : Z) (vault : Vault) (st : KState) : result KState :=
  let active := GetAsgardVaultsByStatus st ActiveVault in
  let st1 := fold_left (retireConflicting height vault) active st in
  do st2 <- forM (addSigner vault) (Vault_Membership vault) st1;
  Ok (SetVault st2 vault).

End Rotation.
End Rotation.

(** ** Yggdrasil handler: from [Run] to the fund and return handlers *)

(** What the handler needs and the sources do not contain:
    [msg.ValidateBasic], [isSignedByActiveNodeAccounts] on the signers of
    the message, the comparison [version.GTE] of the semver library, and the
    building and saving of the event of funds received by a yggdrasil
    vault. *)
Class HandlerOps `{Cdc : Codec} : Type := {
  ValidateBasic : MsgYggdrasil -> error;
  isSignedByActiveNodeAccounts : KState -> MsgYggdrasil -> bool;
  Version_GTE : Version -> Version -> bool;
  upsertYggdrasilFundEvent : Z -> MsgYggdrasil -> KState -> result KState;
}.

(** A message on the wire: the yggdrasil message, or one of another kind. *)
Inductive Msg : Type :=
| MsgYggdrasil_ (msg : MsgYggdrasil)
| MsgOther (kind : string).

Module Handler.
Section Handler.
Context `{Ext : Externals} `{Hlp : Helpers} {Hops : HandlerOps}.

Definition errInvalidMessage : string := "invalid message".

(** Modelled from the spec: [Keeper.GetVault] is not in the sources.
    Section 4.3 has [get_vault]: the record stored under the pub key, or
    none, which the handler reads as [ErrVaultNotFound]. *)
Definition GetVault (st : KState) (pk : PubKey) : option Vault :=
  List.find (fun v => bool_decide (Vault_PubKey v = pk)) (ks_vaults st).

(** The vault that [handleV1] works with: the stored one, or, when there is
    none, the zero vault with its status set to Active and its type to
    yggdrasil. *)
Definition vaultOrYggdrasil (st : KState) (pk : PubKey) : Vault :=
  match GetVault st pk with
  | Some vault =>
      if bool_decide (Vault_Type vault = UnknownVault)
      then mkVault (Vault_BlockHeight vault) (Vault_PubKey vault) (Vault_Coins vault)
                   YggdrasilVault ActiveVault (Vault_StatusSince vault)
                   (Vault_Membership vault)
      else vault
  | None => mkVault 0 "" [] YggdrasilVault ActiveVault 0 []
  end.

Definition handleYggdrasilFund (height : Z) (msg : MsgYggdrasil) (vault : Vault)
    (st : KState) : result KState :=
  if bool_decide (Vault_Type vault = YggdrasilVault)
  then upsertYggdrasilFundEvent height msg st
  else Ok st.

Definition handleV1 (height : Z) (msg : MsgYggdrasil) (version : Version)
    (st : KState) : result KState :=
  let vault := vaultOrYggdrasil st (Msg_PubKey msg) in
  if Msg_AddFunds msg then handleYggdrasilFund height msg vault st
  else Yggdrasil.handleYggdrasilReturn height msg vault version st.

Definition handle (height : Z) (msg : MsgYggdrasil) (version : Version)
    (st : KState) : result KState :=
  if Version_GTE version (0, 1, 0)%N then handleV1 height msg version st
  else Err VaultMgr.errBadVersion.

Definition validateV1 (msg : MsgYggdrasil) (st : KState) : error :=
  match ValidateBasic msg with
  | Some err => Some err
  | None =>
      if negb (isSignedByActiveNodeAccounts st msg)
      then Some "not signed by an active node account"
      else None
  end.

Definition validate (msg : MsgYggdrasil) (version : Version) (st : KState) : error :=
  if Version_GTE version (0, 1, 0)%N then validateV1 msg st
  else Some VaultMgr.errBadVersion.

Definition Run (height : Z) (m : Msg) (version : Version) (st : KState) : result KState :=
  match m with
  | MsgOther _ => Err errInvalidMessage
  | MsgYggdrasil_ msg =>
      match validate msg version st with
      | Some err => Err err
      | None => handle height msg version st
      end
  end.

End Handler.
End Handler.

(** ** Events *)

#[export] Instance Asset_eq_dec : EqDecision Asset.
Proof. solve_decision. Defined.

(** [a.Add(b)] on [sdk.Uint]: the sum, a panic when it does not fit 256
    bits. *)
Definition Uint_Add (a b : N) : result N :=
  if (a + b <=? MaxUint)%N then Ok (a + b)%N else Err "panic: Uint overflow".

Module Events.
Local Open Scope list_scope.

(** Modelled from the spec: [EventStatus] is not in the sources; section 4.4
    has [status ∈ {Pending, Success, Refund}]. *)
Inductive EventStatus : Type := EventPending | EventSuccess | EventRefund.

Record Fee : Type := mkFee {
  Fee_Coins : list Coin;
  Fee_PoolDeduct : N
}.

Record Event : Type := mkEvent {
  Event_ID : Z;
  Event_Height : Z;
  Event_Type : string;
  Event_InTx : Tx;
  Event_OutTxs : list Tx;
  Event_Fee : Fee;
  Event_Event : list Byte.byte;
  Event_Status : EventStatus
}.

Definition NewEvent (typ : string) (ht : Z) (inTx : Tx) (evt : list Byte.byte)
    (status : EventStatus) : Event :=
  mkEvent 0 ht typ inTx [] (mkFee [] 0) evt status.

Section Pop.
(** [TxID.Equals], which is not in the sources. *)
Variable TxID_Equals : TxID -> TxID -> bool.

(** The loop of [PopByInHash], an event at a time, appending to [found] or
    to [events]. *)
Definition PopByInHash (evts : list Event) (txID : TxID) : list Event * list Event :=
  fold_left
    (fun '(found, events) evt =>
       if TxID_Equals (Tx_ID (Event_InTx evt)) txID
       then (found ++ [evt], events)
       else (found, events ++ [evt]))
    evts ([], []).
End Pop.

Record GasPool : Type := mkGasPool {
  GasPool_Asset : Asset;
  GasPool_AssetAmt : N;
  GasPool_RuneAmt : N;
  GasPool_Count : Z
}.

(** [NewEventGas]: no pool yet. *)
Definition NewEventGas : list GasPool := [].

(** [UpsertGasPool] on the pools of the event: the first pool of the asset
    has the two amounts added to its own, or the pool is appended. *)
Fixpoint UpsertGasPool (pools : list GasPool) (pool : GasPool) : result (list GasPool) :=
  match pools with
  | [] => Ok [pool]
  | p :: ps =>
      if bool_decide (GasPool_Asset p = GasPool_Asset pool) then
        do runeAmt <- Uint_Add (GasPool_RuneAmt p) (GasPool_RuneAmt pool);
        do assetAmt <- Uint_Add (GasPool_AssetAmt p) (GasPool_AssetAmt pool);
        Ok (mkGasPool (GasPool_Asset p) assetAmt runeAmt (GasPool_Count p) :: ps)
      else
        do ps' <- UpsertGasPool ps pool;
        Ok (p :: ps')
  end.

(** Sums over the pools of an event. *)
Definition totalRune (pools : list GasPool) : N :=
  fold_right (fun p acc => (GasPool_RuneAmt p + acc)%N) 0%N pools.
Definition totalAsset (pools : list GasPool) : N :=
  fold_right (fun p acc => (GasPool_AssetAmt p + acc)%N) 0%N pools.

End Events.

(** ** Bitcoin chain client: block metas and their storage *)

(** What the block metas are made of and the sources do not contain: the
    unspent outputs with their [GetKey] and [VaultPubKey], [PubKey.Equals],
    the floating point numbers of a fee, which are only stored, and
    [strings.EqualFold] of Go's library, equality of two strings under
    Unicode case folding. *)
Class UtxoOps : Type := {
  UnspentTransactionOutput : Type;
  UTXO_GetKey : UnspentTransactionOutput -> string;
  UTXO_VaultPubKey : UnspentTransactionOutput -> PubKey;
  PubKey_Equals : PubKey -> PubKey -> bool;
  float64 : Type;
  EqualFold : string -> string -> bool;
}.

Module Bitcoin.
Local Open Scope list_scope.

Section BlockMeta.
Context `{Uops : UtxoOps}.

Record BlockMeta : Type := mkBlockMeta {
  BlockMeta_PreviousHash : string;
  BlockMeta_Height : Z;
  BlockMeta_BlockHash : string;
  BlockMeta_UnspentTransactionOutputs : list UnspentTransactionOutput;
  BlockMeta_Spent : bool
}.

Record TransactionFee : Type := mkTransactionFee {
  TransactionFee_Fee : float64;
  TransactionFee_VSize : Z
}.

Definition NewBlockMeta (previousHash : string) (height : Z) (blockHash : string) : BlockMeta :=
  mkBlockMeta previousHash height blockHash [] false.

Definition set_utxos (b : BlockMeta) (utxos : list UnspentTransactionOutput) : BlockMeta :=
  mkBlockMeta (BlockMeta_PreviousHash b) (BlockMeta_Height b) (BlockMeta_BlockHash b)
              utxos (BlockMeta_Spent b).

Definition GetUTXOs (b : BlockMeta) (pubKey : PubKey) : list UnspentTransactionOutput :=
  List.filter (fun item => PubKey_Equals (UTXO_VaultPubKey item) pubKey)
              (BlockMeta_UnspentTransactionOutputs b).

(** The search loop of [RemoveUTXO]: the index of the first output whose key
    matches, [None] for the -1 of the source. *)
Fixpoint idxToDelete (utxos : list UnspentTransactionOutput) (key : string) (idx : nat)
  : option nat :=
  match utxos with
  | [] => None
  | item :: utxos' =>
      if EqualFold (UTXO_GetKey item) key then Some idx
      else idxToDelete utxos' key (S idx)
  end.

Definition RemoveUTXO (b : BlockMeta) (key : string) : BlockMeta :=
  match idxToDelete (BlockMeta_UnspentTransactionOutputs b) key 0 with
  | None => b
  | Some i =>
      set_utxos b (firstn i (BlockMeta_UnspentTransactionOutputs b)
                   ++ skipn (S i) (BlockMeta_UnspentTransactionOutputs b))
  end.

Definition AddUTXO (b : BlockMeta) (utxo : UnspentTransactionOutput) : BlockMeta :=
  set_utxos b (BlockMeta_UnspentTransactionOutputs b ++ [utxo]).

End BlockMeta.

(** [json.Marshal] and [json.Unmarshal] at the two stored types, with the
    stored form [BBuf] of a value and its length in bytes. *)
Class JsonCodec `{Uops : UtxoOps} : Type := {
  BBuf : Type;
  BBuf_len : BBuf -> nat;
  Marshal_BlockMeta : BlockMeta -> result BBuf;
  Unmarshal_BlockMeta : BBuf -> result BlockMeta;
  Marshal_TransactionFee : TransactionFee -> result BBuf;
  Unmarshal_TransactionFee : BBuf -> result TransactionFee;
}.

(** [iterator.Key()] of goleveldb, which is not in the sources, returns a
    slice of a buffer that the iterator owns and may overwrite at its next
    step: a caller that keeps the slice, and does not copy it, reads later
    what the buffer holds then.  A slice that is kept is told by the step of
    the iteration at which it was taken: [Key_read keys i] is what the
    slice taken at step [i] of an iteration over the keys [keys] holds once
    the iteration is over. *)
Class IteratorOps : Type := {
  Key_read : list string -> nat -> string;
}.

Definition TransactionFeeKey : string := "transactionfee-".
Definition PrefixBlocMeta : string := "blockmeta-".

Section Accessor.
Context `{Jc : JsonCodec} `{Iops : IteratorOps}.

(** The database behind [LevelDBBlockMetaAccessor]: keys to stored values.
    Reading and writing do not fail, except that reading a key that is not
    there is the error of [db.Get]. *)
Definition getBlockMetaKey (height : Z) : string :=
  (PrefixBlocMeta ++ FormatInt height)%string.

Definition GetBlockMeta (db : gmap string BBuf) (height : Z) : option BlockMeta * error :=
  let key := getBlockMetaKey height in
  match db !! key with
  | None => (None, None)
  | Some v =>
      match Unmarshal_BlockMeta v with
      | Err err => (None, Some ("fail to unmarshal block meta from json: " ++ err)%string)
      | Ok blockMeta => (Some blockMeta, None)
      end
  end.

Definition SaveBlockMeta (db : gmap string BBuf) (height : Z) (blockMeta : BlockMeta)
  : result (gmap string BBuf) :=
  let key := getBlockMetaKey height in
  match Marshal_BlockMeta blockMeta with
  | Err err => Err ("fail to marshal block meta to json: " ++ err)%string
  | Ok buf => Ok (<[key := buf]> db)
  end.

(** [db.NewIterator(util.BytesPrefix(prefix))]: the entries whose key begins
    with the prefix, by ascending key. *)
Definition iterate (prefix : string) (db : gmap string BBuf) : list (string * BBuf) :=
  merge_sort (fun p q => String.le (fst p) (fst q))
             (List.filter (fun p => String.prefix prefix (fst p)) (map_to_list db)).

Definition GetBlockMetas (db : gmap string BBuf) : result (list BlockMeta) :=
  forM (fun blockMetas '(_, buf) =>
          if (BBuf_len buf =? 0)%nat then Ok blockMetas else
          match Unmarshal_BlockMeta buf with
          | Err err => Err ("fail to unmarshal block meta: " ++ err)%string
          | Ok blockMeta => Ok (blockMetas ++ [blockMeta])
          end)
       (iterate PrefixBlocMeta db) [].

(** The first loop of [PruneBlockMeta].  [targetToDelete] is a list of the
    slices that [iterator.Key()] returned, appended as they are: each is
    told here by the step of the iteration at which it was taken. *)
Definition targetToDelete (db : gmap string BBuf) (height : Z) : result (list nat) :=
  let entries := iterate PrefixBlocMeta db in
  forM (fun targets '(i, (_, buf)) =>
          if (BBuf_len buf =? 0)%nat then Ok targets else
          match Unmarshal_BlockMeta buf with
          | Err err => Err ("fail to unmarshal block meta: " ++ err)%string
          | Ok blockMeta =>
              if (BlockMeta_Height blockMeta <=? height)%Z
              then Ok (targets ++ [i]) else Ok targets
          end)
       (combine (seq 0 (length entries)) entries) [].

(** The second loop deletes, for each slice, the key that the slice holds
    after the iteration. *)
Definition PruneBlockMeta (db : gmap string BBuf) (height : Z) : result (gmap string BBuf) :=
  let keys := map fst (iterate PrefixBlocMeta db) in
  do targets <- targetToDelete db height;
  Ok (fold_left (fun db i => delete (Key_read keys i) db) targets db).

Definition UpsertTransactionFee (db : gmap string BBuf) (fee : float64) (vSize : Z)
  : result (gmap string BBuf) :=
  match Marshal_TransactionFee (mkTransactionFee fee vSize) with
  | Err err => Err ("fail to marshal transaction fee struct to json: " ++ err)%string
  | Ok buf => Ok (<[TransactionFeeKey := buf]> db)
  end.

Definition GetTransactionFee (db : gmap string BBuf) : result (float64 * Z) :=
  match db !! TransactionFeeKey with
  | None => Err "fail to get transaction fee from storage: leveldb: not found"
  | Some buf =>
      match Unmarshal_TransactionFee buf with
      | Err err => Err ("fail to unmarshal transaction fee: " ++ err)%string
      | Ok transactionFee =>
          Ok (TransactionFee_Fee transactionFee, TransactionFee_VSize transactionFee)
      end
  end.

End Accessor.
End Bitcoin.

(** ** Signer: signing and sending the outbound items of a block *)

Module Signer.
Local Open Scope list_scope.

(** The fields of [types.TxArrayItem] and [types.TxOut] that the signer
    reads. *)
Record TxArrayItem : Type := mkTxArrayItem {
  TxArrayItem_To : string;
  TxArrayItem_VaultPubKey : PubKey;
  TxArrayItem_Memo : string;
  TxArrayItem_OutHash : TxID
}.

Record TxOut : Type := mkTxOut {
  TxOut_Height : string;
  TxOut_Chain : Chain;
  TxOut_TxArray : list TxArrayItem
}.

(** What the signer does to the outside: it asks for a signature, it
    broadcasts a signed transaction. *)
Inductive Action : Type :=
| Sign (tai : TxArrayItem) (height : Z)
| Broadcast (hexTx : list Byte.byte).

(** What the signer calls and the sources do not contain:
    [PubKeyManager.HasKey], [TxID.IsEmpty], [Binance.SignTx] with its signed
    bytes ([None] for nil) and its error, and [Binance.BroadcastTx] with its
    error; the answers of the last two may depend on what was done before. *)
Class SignerOps : Type := {
  HasKey : PubKey -> bool;
  TxID_IsEmpty : TxID -> bool;
  SignTx : list Action -> TxArrayItem -> Z -> option (list Byte.byte) * error;
  BroadcastTx : list Action -> list Byte.byte -> error;
}.

Section Signer.
Context `{Ext : Externals} `{Sops : SignerOps}.

Definition shouldSign (tai : TxArrayItem) : bool := HasKey (TxArrayItem_VaultPubKey tai).

(** [signAndSendToBinanceChain], on the actions done so far. *)
Definition signAndSendToBinanceChain (done : list Action) (tai : TxArrayItem) (height : Z)
  : list Action * error :=
  if negb (TxID_IsEmpty (TxArrayItem_OutHash tai)) then (done, None) else
  let '(hexTx, _) := SignTx done tai height in
  let done := done ++ [Sign tai height] in
  match hexTx with
  | None => (done, None)
  | Some hexTx =>
      match BroadcastTx done hexTx with
      | Some err =>
          (done ++ [Broadcast hexTx],
           Some ("fail to broadcast a tx to binance chain: " ++ err)%string)
      | None => (done ++ [Broadcast hexTx], None)
      end
  end.

(** The loop of [signTxOutAndSendToBinanceChain]; the error of an item is
    logged and the loop goes on. *)
Fixpoint signItems (height : string) (items : list TxArrayItem) (done : list Action)
  : list Action * error :=
  match items with
  | [] => (done, None)
  | item :: items' =>
      match ParseInt height with
      | Err err => (done, Some ("fail to parse block height: " ++ height ++ " : " ++ err)%string)
      | Ok h =>
          if negb (shouldSign item) then signItems height items' done else
          if (String.length (TxArrayItem_To item) =? 0)%nat then signItems height items' done else
          let '(done', _) := signAndSendToBinanceChain done item h in
          signItems height items' done'
      end
  end.

Definition signTxOutAndSendToBinanceChain (txOut : TxOut) (done : list Action)
  : list Action * error :=
  signItems (TxOut_Height txOut) (TxOut_TxArray txOut) done.

End Signer.
End Signer.

(** ** Instances of the other parameters, and inputs for them *)

Module SampleMore.
Import Sample.
Local Open Scope list_scope.

#[export] Instance nodeOps : NodeOps := {|
  TryAddSignerPubKey := fun na _ => na
|}.

(** [a.GTE(b)] on versions of three numbers. *)
Definition version_gte (a b : Version) : bool :=
  let '(a1, a2, a3) := a in
  let '(b1, b2, b3) := b in
  (b1 <? a1)%N
  || ((a1 =? b1)%N && ((b2 <? a2)%N || ((a2 =? b2)%N && (b3 <=? a3)%N))).

#[export] Instance handlerOps : HandlerOps := {|
  ValidateBasic := fun msg =>
    if (String.length (Msg_PubKey msg) =? 0)%nat then Some "pubkey cannot be empty" else None;
  isSignedByActiveNodeAccounts := fun st _ =>
    existsb (fun na => bool_decide (NodeAccount_Status na = NodeActive)) (ks_nodes st);
  Version_GTE := version_gte;
  upsertYggdrasilFundEvent := fun _ _ st => Ok st
|}.

(** A codec that encodes nothing. *)
Definition failingCodec : Codec := {|
  Buf := Keygens;
  MarshalBinaryBare := fun _ => Err "codec is closed";
  UnmarshalBinaryBare := Ok;
  GetKey := fun prefix key => (prefix ++ "/" ++ key)%string;
  dbError := fun wrap err => (wrap ++ ": " ++ err)%string
|}.

(** A return of 2 BNB and 1 BTC reported for the pub key of the second
    node, which has no vault record, sent to an address that is not the
    address of the active asgard vault. *)
Definition strayReturn : MsgYggdrasil :=
  let coins := [mkCoin BNB (2 * One); mkCoin BTC (1 * One)] in
  mkMsgYggdrasil "pk2" false coins
    (mkTx "C3D4" "BNB" "BNB/pk2" "BNB/elsewhere" coins "yggdrasil-").

Definition unrecorded : KState :=
  mkKState [activeVault] [node1; node2; node3] ∅ [].

(** Scenario 5 with three active asgard vaults that hold 500, 200 and 300
    BTC: the second is the one with the least. *)
Definition asgardA : Vault :=
  mkVault H "asgardA" [mkCoin BTC (500 * One)] AsgardVault ActiveVault H ["pk1"].
Definition asgardB : Vault :=
  mkVault H "asgardB" [mkCoin BNB (900 * One); mkCoin BTC (200 * One)]
          AsgardVault ActiveVault H ["pk2"].
Definition asgardC : Vault :=
  mkVault H "asgardC" [mkCoin BTC (300 * One)] AsgardVault ActiveVault H ["pk3"].

Definition migratingSeveral : KState :=
  mkKState [retiringVault; asgardA; asgardB; asgardC; yggVault] [node1; node2; node3] ∅ [].

(** A state before a rotation: the active asgard vault of the first two
    nodes holds 1000 BTC, and the new vault is of the last two nodes. *)
Definition fundedVault : Vault :=
  mkVault 10 "asgard1" [mkCoin BTC (1000 * One)] AsgardVault ActiveVault 10 ["pk1"; "pk2"].

Definition nextVault : Vault :=
  mkVault H "asgard2" [] AsgardVault ActiveVault H ["pk2"; "pk3"].

Definition rotating : KState :=
  mkKState [fundedVault] [node1; node2; node3] ∅ [].

(** A state with a retiring vault that has nothing left, next to the
    retiring vault of scenario 5, which has funds. *)
Definition emptiedVault : Vault :=
  mkVault 10 "asgard9" [mkCoin BTC 0] AsgardVault RetiringVault H ["pk1"].

Definition emptied : KState :=
  mkKState [emptiedVault; retiringVault; activeVault] [node1; node2; node3] ∅ [].

(** The gas pools of an event. *)
Definition gasPools : list Events.GasPool :=
  [Events.mkGasPool BNB 37500 1000 1; Events.mkGasPool BTC 500 2000 3].

(** Unspent outputs as a key and the pub key of the vault; the keys are
    ASCII, and on them case folding is equality of the lowered strings. *)
#[export] Instance utxoOps : UtxoOps := {|
  UnspentTransactionOutput := string * PubKey;
  UTXO_GetKey := fst;
  UTXO_VaultPubKey := snd;
  PubKey_Equals := String.eqb;
  float64 := Z;
  EqualFold := fun a b => String.eqb (ToLower a) (ToLower b)
|}.

(** Stored values as the values themselves. *)
#[export] Instance jsonCodec : Bitcoin.JsonCodec := {|
  Bitcoin.BBuf := Bitcoin.BlockMeta + Bitcoin.TransactionFee;
  Bitcoin.BBuf_len := fun _ => 1%nat;
  Bitcoin.Marshal_BlockMeta := fun m => Ok (inl m);
  Bitcoin.Unmarshal_BlockMeta := fun buf =>
    match buf with
    | inl m => Ok m
    | inr _ => Err "json: cannot unmarshal into a block meta"
    end;
  Bitcoin.Marshal_TransactionFee := fun f => Ok (inr f);
  Bitcoin.Unmarshal_TransactionFee := fun buf =>
    match buf with
    | inr f => Ok f
    | inl _ => Err "json: cannot unmarshal into a transaction fee"
    end
|}.

Definition block100 : Bitcoin.BlockMeta :=
  Bitcoin.mkBlockMeta "00aa" 100 "00bb" [("tx1:0", "pk1"); ("tx2:1", "pk2")] false.
Definition block101 : Bitcoin.BlockMeta :=
  Bitcoin.mkBlockMeta "00bb" 101 "00cc" [] false.
Definition block102 : Bitcoin.BlockMeta :=
  Bitcoin.mkBlockMeta "00cc" 102 "00dd" [("tx3:0", "pk1")] false.

(** A block meta with two outputs whose keys differ by the case only. *)
Definition blockTwice : Bitcoin.BlockMeta :=
  Bitcoin.mkBlockMeta "00aa" 100 "00bb"
    [("tx0:1", "pk2"); ("tx1:0", "pk1"); ("TX1:0", "pk1"); ("tx2:0", "pk1")] false.

(** An iterator whose buffer is overwritten at every step, as it is for
    keys of one length: every slice kept holds, in the end, the key visited
    last. *)
#[export] Instance reusedBuffer : Bitcoin.IteratorOps := {|
  Bitcoin.Key_read := fun keys _ => List.last keys ""
|}.

(** A database with the block metas of three heights and a fee. *)
Definition threeBlocks : gmap string Bitcoin.BBuf :=
  <[Bitcoin.getBlockMetaKey 101 := inl block101]>
    (<[Bitcoin.TransactionFeeKey := inr (Bitcoin.mkTransactionFee 25%Z 250)]>
       (<[Bitcoin.getBlockMetaKey 102 := inl block102]>
          (<[Bitcoin.getBlockMetaKey 100 := inl block100]> ∅))).

(** A signer that holds the key of one vault, signs whatever it is asked
    to, the signed bytes being those of the memo of the item, and fails to
    broadcast. *)
#[export] Instance signerOps : Signer.SignerOps := {|
  Signer.HasKey := fun pk => String.eqb pk "asgard1";
  Signer.TxID_IsEmpty := fun t => (String.length t =? 0)%nat;
  Signer.SignTx := fun _ tai _ =>
    (Some (map byte_of_ascii (list_ascii_of_string (Signer.TxArrayItem_Memo tai))), None);
  Signer.BroadcastTx := fun _ _ => Some "connection refused"
|}.

(** A block of five items: one to sign, one of another vault, one without
    a recipient, one that was sent already, and one more to sign. *)
Definition block5100 : Signer.TxOut :=
  Signer.mkTxOut "5100" "BNB"
    [Signer.mkTxArrayItem "bnb1to" "asgard1" "outbound:A1" "";
     Signer.mkTxArrayItem "bnb1to" "asgard0" "outbound:A2" "";
     Signer.mkTxArrayItem "" "asgard1" "outbound:A3" "";
     Signer.mkTxArrayItem "bnb1to" "asgard1" "outbound:A4" "F00D";
     Signer.mkTxArrayItem "bnb2to" "asgard1" "outbound:A5" ""].

End SampleMore.

(** * Properties *)

(** ** The model at work on concrete inputs *)

Module Checks.
Import Memo Sample.

Example Split_fields : Split "swap:BNB.BNB::12" ":" = ["swap"; "BNB.BNB"; ""; "12"].
Proof. reflexivity. Qed.

Example Split_single_field : Split "leave" ":" = ["leave"].
Proof. reflexivity. Qed.

Example Split_trailing_separator : Split "unstake:" ":" = ["unstake"; ""].
Proof. reflexivity. Qed.

Example ToLower_mixed_case : ToLower "StAkE+" = "stake+".
Proof. reflexivity. Qed.

Example FormatUint_height : FormatUint 1718 = "1718" /\ FormatInt (-42) = "-42".
Proof. split; reflexivity. Qed.

Example stringToTxType_aliases :
  map (fun s => fst (stringToTxType s)) ["+"; "WD"; "="; "%"; "$"; "Yggdrasil-"; "x"]
  = [txStake; txUnstake; txSwap; txAdd; txGas; txYggdrasilReturn; txUnknown].
Proof. reflexivity. Qed.

Example ParseMemo_empty : ParseMemo "" = (noMemo, Some "memo can't be empty").
Proof. reflexivity. Qed.

Example ParseMemo_unknown_action :
  ParseMemo "bogus:BNB.BNB" = (noMemo, Some "invalid tx type: bogus").
Proof. reflexivity. Qed.

Example ParseMemo_swap :
  ParseMemo "SWAP:BNB.BNB::12"
  = (SwapMemo (mkMemoBase txSwap BNB) NoAddress 12, None).
Proof. reflexivity. Qed.

Example ParseMemo_unstake_bounds :
  map (fun m => snd (ParseMemo m))
      ["unstake:BNB.BNB:10000"; "unstake:BNB.BNB:10001"; "unstake:BNB.BNB:0";
       "unstake:BNB.BNB:"; "unstake:BNB.BNB"; "unstake"]
  = [None;
     Some "withdraw amount :10001 is invalid";
     Some "withdraw amount :0 is invalid";
     Some "cannot convert  to big.Int";
     None;
     Some "cannot parse given memo: length 1"].
Proof. reflexivity. Qed.

Example ParseMemo_migrate_round_trip :
  ParseMemo (Memo_String (NewMigrateMemo 1024))
  = (MigrateMemo (mkMemoBase txMigrate EmptyAsset) 1024, None).
Proof. reflexivity. Qed.

Example migratedAt_rounds :
  map migratedAt [H; H + 50; H + 100; H + 200; H + 300; H + 400; H + 500]%Z
  = [Ok [200 * One]; Ok []; Ok [400 * One]; Ok [600 * One]; Ok [800 * One];
     Ok [1000 * One]; Ok [1000 * One]]%N.
Proof. vm_compute. reflexivity. Qed.

End Checks.

(** ** Memo parser *)

Module MemoProofs.
Import Memo.

Lemma Split_not_nil s sep : Split s sep <> [].
Proof.
  destruct s as [|c s]; cbn; [discriminate|].
  destruct (Ascii.eqb c sep); [discriminate|].
  destruct (Split s sep); discriminate.
Qed.

Lemma Split_empty sep : Split "" sep = [""].
Proof. reflexivity. Qed.

(** A memo with two fields or more, or with a first field that is not empty,
    is not the empty string. *)
Lemma Split_length_nonzero memo sep t rest :
  Split memo sep = t :: rest -> (rest <> [] \/ t <> "") ->
  (String.length memo =? 0)%nat = false.
Proof.
  intros HS Hne. destruct memo as [|c memo]; [|reflexivity].
  rewrite Split_empty in HS. injection HS as <- <-. destruct Hne; congruence.
Qed.

Lemma stringToTxType_nonempty t tx : stringToTxType t = (tx, None) -> t <> "".
Proof. intros H ->. discriminate H. Qed.

Section Parse.
Context `{Ext : Externals}.

(** The head of [ParseMemo], up to the switch on the action. *)
Ltac parse_head HS Hlen Htx :=
  unfold ParseMemo; rewrite Hlen, HS; cbn [idx nth]; rewrite Htx;
  match goal with
  | |- context [fold_left ?f noAssetMemos true] =>
      let b := eval vm_compute in (fold_left f noAssetMemos true) in
      change (fold_left f noAssetMemos true) with b
  end;
  cbn [length Nat.ltb Nat.leb]; cbv iota.

Lemma ParseMemo_stored_type memo tx m :
  stringToTxType (idx (Split memo ":") 0) = (tx, None) ->
  ParseMemo memo = (m, None) ->
  GetType m = storedType tx.
Proof.
  intros Htx. unfold ParseMemo.
  destruct (String.length memo =? 0)%nat; [discriminate|].
  rewrite Htx.
  destruct tx; cbn [fold_left noAssetMemos];
    repeat match goal with
           | |- context [match ?x with _ => _ end] =>
               lazymatch x with
               | context [match _ with _ => _ end] => fail
               | _ => destruct x eqn:?
               end
           end;
    intros H; inversion H; subst; try reflexivity.
Qed.

(** C3.  Parsing is meant to give back the action of the memo.  For a memo
    whose first field is an alias of the reserve action the parser answers
    with a [ReserveMemo] whose stored type is [txYggdrasilReturn]: the type
    read back is not the reserve action, and [IsType] denies it. *)
Theorem ParseMemo_reserve_type memo :
  stringToTxType (idx (Split memo ":") 0) = (txReserve, None) ->
  ParseMemo memo = (ReserveMemo (mkMemoBase txYggdrasilReturn EmptyAsset), None)
  /\ GetType (fst (ParseMemo memo)) = txYggdrasilReturn
  /\ GetType (fst (ParseMemo memo)) <> txReserve
  /\ IsType (fst (ParseMemo memo)) txReserve = false.
Proof.
  intros Htx.
  assert (Hp : ParseMemo memo
               = (ReserveMemo (mkMemoBase txYggdrasilReturn EmptyAsset), None)).
  { destruct (Split memo ":") as [|t rest] eqn:HS; [now apply Split_not_nil in HS|].
    cbn [idx nth] in Htx.
    assert (Hlen : (String.length memo =? 0)%nat = false).
    { eapply Split_length_nonzero; [exact HS|right].
      eapply stringToTxType_nonempty; exact Htx. }
    parse_head HS Hlen Htx. reflexivity. }
  rewrite Hp. cbn. repeat split; discriminate.
Qed.

(** C5.  An unstake memo with a third field is accepted exactly when the
    field parses to a value in (0, 10000]: a value of 0 or above
    [MaxUnstakeBasisPoints] is an error, a field that does not parse is an
    error, and an accepted memo is an [UnstakeMemo] that carries the field
    as written.  An unstake memo that has no asset field is rejected. *)
Theorem ParseMemo_unstake_basis_points :
  (forall memo t a w rest asset,
     Split memo ":" = t :: a :: w :: rest ->
     stringToTxType t = (txUnstake, None) ->
     NewAsset a = Ok asset ->
     (forall n, ParseUint w = Ok n -> (n = 0 \/ MaxUnstakeBasisPoints < n)%N ->
                ParseMemo memo = (noMemo, Some ("withdraw amount :" ++ w ++ " is invalid")))
     /\ (forall n, ParseUint w = Ok n -> (0 < n <= MaxUnstakeBasisPoints)%N ->
                   ParseMemo memo = (UnstakeMemo (mkMemoBase txUnstake asset) w, None))
     /\ (forall e, ParseUint w = Err e -> ParseMemo memo = (noMemo, Some e)))
  /\ (forall memo t,
        Split memo ":" = [t] ->
        stringToTxType t = (txUnstake, None) ->
        ParseMemo memo = (noMemo, Some "cannot parse given memo: length 1")).
Proof.
  split.
  - intros memo t a w rest asset HS Htx Ha.
    assert (Hlen : (String.length memo =? 0)%nat = false).
    { eapply Split_length_nonzero; [exact HS|left; discriminate]. }
    repeat split.
    + intros n Hw Hn. parse_head HS Hlen Htx. rewrite Ha. cbn [idx nth]. rewrite Hw.
      assert (Hb : negb (0 <? n)%N || (MaxUnstakeBasisPoints <? n)%N = true).
      { destruct Hn as [-> | Hn]; [reflexivity|].
        apply N.ltb_lt in Hn. rewrite Hn. apply orb_true_r. }
      rewrite Hb. reflexivity.
    + intros n Hw [Hlo Hhi]. parse_head HS Hlen Htx. rewrite Ha. cbn [idx nth]. rewrite Hw.
      assert (Hb : negb (0 <? n)%N || (MaxUnstakeBasisPoints <? n)%N = false).
      { apply N.ltb_lt in Hlo. rewrite Hlo. cbn. apply N.ltb_ge. exact Hhi. }
      rewrite Hb. reflexivity.
    + intros e Hw. parse_head HS Hlen Htx. rewrite Ha. cbn [idx nth]. rewrite Hw. reflexivity.
  - intros memo t HS Htx.
    assert (Hlen : (String.length memo =? 0)%nat = false).
    { eapply Split_length_nonzero; [exact HS|right].
      eapply stringToTxType_nonempty; exact Htx. }
    parse_head HS Hlen Htx. reflexivity.
Qed.

(** C9.  A stake memo for an asset of a chain that is not the chain RUNE
    lives on (the parser's test is [!asset.Chain.IsBNB()]) needs an address:
    without a third field it is an error, with one it is a [StakeMemo] whose
    destination is the address parsed from that field (or the error of
    parsing it).  A stake memo for an asset of the BNB chain is accepted
    without an address field, with the empty address. *)
Theorem ParseMemo_stake_address :
  (forall memo t a asset,
     Split memo ":" = [t; a] ->
     stringToTxType t = (txStake, None) ->
     NewAsset a = Ok asset ->
     IsBNB (Asset_Chain asset) = false ->
     ParseMemo memo
     = (noMemo, Some "invalid stake. Cannot stake to a non BNB-based pool without providing an associated address"))
  /\ (forall memo t a w rest asset,
        Split memo ":" = t :: a :: w :: rest ->
        stringToTxType t = (txStake, None) ->
        NewAsset a = Ok asset ->
        IsBNB (Asset_Chain asset) = false ->
        (forall addr, NewAddress w = Ok addr ->
           ParseMemo memo = (StakeMemo (mkMemoBase txStake asset) "" "" addr, None)
           /\ GetDestination (fst (ParseMemo memo)) = addr)
        /\ (forall e, NewAddress w = Err e -> ParseMemo memo = (noMemo, Some e)))
  /\ (forall memo t a asset,
        Split memo ":" = [t; a] ->
        stringToTxType t = (txStake, None) ->
        NewAsset a = Ok asset ->
        IsBNB (Asset_Chain asset) = true ->
        ParseMemo memo = (StakeMemo (mkMemoBase txStake asset) "" "" NoAddress, None)).
Proof.
  split; [|split].
  - intros memo t a asset HS Htx Ha Hb.
    assert (Hlen : (String.length memo =? 0)%nat = false).
    { eapply Split_length_nonzero; [exact HS|left; discriminate]. }
    parse_head HS Hlen Htx. rewrite Ha. cbn [idx nth]. rewrite Hb. reflexivity.
  - intros memo t a w rest asset HS Htx Ha Hb.
    assert (Hlen : (String.length memo =? 0)%nat = false).
    { eapply Split_length_nonzero; [exact HS|left; discriminate]. }
    assert (Hp : forall addr, NewAddress w = Ok addr ->
              ParseMemo memo = (StakeMemo (mkMemoBase txStake asset) "" "" addr, None)).
    { intros addr Hw. parse_head HS Hlen Htx. rewrite Ha. cbn [idx nth].
      rewrite Hb. cbn [negb]. rewrite Hw. reflexivity. }
    split.
    + intros addr Hw. rewrite (Hp addr Hw). split; reflexivity.
    + intros e Hw. parse_head HS Hlen Htx. rewrite Ha. cbn [idx nth].
      rewrite Hb. cbn [negb]. rewrite Hw. reflexivity.
  - intros memo t a asset HS Htx Ha Hb.
    assert (Hlen : (String.length memo =? 0)%nat = false).
    { eapply Split_length_nonzero; [exact HS|left; discriminate]. }
    parse_head HS Hlen Htx. rewrite Ha. cbn [idx nth]. rewrite Hb. reflexivity.
Qed.

End Parse.
End MemoProofs.

(** ** Pool-unit issuance *)

Module StakeProofs.
Import Stake.
Local Open Scope N_scope.


(** C4.  A first stake into an empty pool (no units, both balances zero)
    with exactly one side zero is rejected: with the message "total RUNE in
    the pool is zero" when the RUNE side is the zero one, "total asset in
    the pool is zero" when the asset side is, and with no units issued. *)
Theorem calculatePoolUnits_first_stake_one_sided :
  (forall stakeAsset, 0 < stakeAsset ->
     calculatePoolUnits 0 0 0 0 stakeAsset
     = (0, 0, Some "total RUNE in the pool is zero"%string))
  /\ (forall stakeRune, 0 < stakeRune ->
        calculatePoolUnits 0 0 0 stakeRune 0
        = (0, 0, Some "total asset in the pool is zero"%string)).
Proof.
  split.
  - intros a Ha. reflexivity.
  - intros r Hr. unfold calculatePoolUnits.
    rewrite N.add_0_r.
    destruct (N.eqb_spec r 0) as [->|_]; [lia|]. reflexivity.
Qed.

End StakeProofs.

(** ** Keygens in the store *)

Module KeygenProofs.
Section Keygen.
Context `{Cdc : Codec}.

(** C10.  A lookup that finds nothing under the key of a height is not an
    error: the answer is the empty record of that height with a nil error.
    An error is returned only when a record is stored under the key and
    does not decode. *)
Theorem GetKeygens_lookup_miss (st : KState) (height : N) :
  (ks_store st !! keygenKey height = None ->
     GetKeygens st height = (NewKeygens height, None)
     /\ Keygens_Height (fst (GetKeygens st height)) = height
     /\ Keygens_Keygens (fst (GetKeygens st height)) = [])
  /\ (forall e, snd (GetKeygens st height) = Some e ->
        exists buf err, ks_store st !! keygenKey height = Some buf
                        /\ UnmarshalBinaryBare buf = Err err).
Proof.
  unfold GetKeygens. split.
  - intros ->. repeat split.
  - intros e. destruct (ks_store st !! _) as [buf|]; [|discriminate].
    destruct (UnmarshalBinaryBare buf) as [k|err] eqn:Hu; [discriminate|].
    intros _. now exists buf, err.
Qed.

(** What [SetKeygens] stores is what [GetKeygens] reads, when the codec
    decodes what it encodes. *)
Lemma GetKeygens_SetKeygens (st st' : KState) (keygens : Keygens) :
  (forall buf, MarshalBinaryBare keygens = Ok buf -> UnmarshalBinaryBare buf = Ok keygens) ->
  SetKeygens st keygens = Ok st' ->
  GetKeygens st' (Keygens_Height keygens) = (keygens, None).
Proof.
  intros Hrt. unfold SetKeygens, GetKeygens.
  destruct (MarshalBinaryBare keygens) as [buf|] eqn:Hm; [|discriminate].
  intros [= <-]. cbn. rewrite lookup_insert_eq, (Hrt buf eq_refl). reflexivity.
Qed.

End Keygen.
End KeygenProofs.

(** ** Vault manager: genesis *)

Module GenesisProofs.
Import VaultMgr.

Lemma filter_filter_nil {A} (P Q : A -> Prop)
    `{forall x, Decision (P x)} `{forall x, Decision (Q x)} (l : list A) :
  filter P l = [] -> filter P (filter Q l) = [].
Proof.
  induction l as [|x l IH]; [reflexivity|].
  rewrite (filter_cons P). destruct (decide (P x)); [discriminate|].
  intros Hl. rewrite (filter_cons Q). destruct (decide (Q x)); [|now apply IH].
  rewrite filter_cons_False by assumption. now apply IH.
Qed.

Section Genesis.
Context `{Ext : Externals} `{Hlp : Helpers}.

(** C6.  At the genesis height, with no asgard vault in the store:
    one active node account gives one Active asgard vault, keyed by the pub
    key of the node and with that pub key as its only member; two or more
    give no vault but a keygens record at the current height, whose single
    group lists the pub keys of all active nodes.  With an asgard vault in
    the store nothing changes, and at any other height nothing changes. *)
Theorem processGenesisSetup_cases (st : KState) :
  (forall na,
     GetAsgardVaults st = [] ->
     ListActiveNodeAccounts st = [na] ->
     let vault := mkVault 0 (NodeAccount_PubKey na) [] AsgardVault ActiveVault 0
                          [NodeAccount_PubKey na] in
     processGenesisSetup genesisBlockHeight st = Ok (SetVault st vault)
     /\ GetAsgardVaults (SetVault st vault) = [vault]
     /\ ks_store (SetVault st vault) = ks_store st)
  /\ (forall na1 na2 nas buf,
        GetAsgardVaults st = [] ->
        ListActiveNodeAccounts st = na1 :: na2 :: nas ->
        let keygens := mkKeygens (Z.to_N genesisBlockHeight)
                                 [map NodeAccount_PubKey (na1 :: na2 :: nas)] in
        MarshalBinaryBare keygens = Ok buf ->
        let st' := set_store st (<[keygenKey (Z.to_N genesisBlockHeight) := buf]> (ks_store st)) in
        processGenesisSetup genesisBlockHeight st = Ok st'
        /\ ks_vaults st' = ks_vaults st
        /\ (UnmarshalBinaryBare buf = Ok keygens ->
            GetKeygens st' (Z.to_N genesisBlockHeight) = (keygens, None)))
  /\ (GetAsgardVaults st <> [] -> processGenesisSetup genesisBlockHeight st = Ok st)
  /\ (forall height, height <> genesisBlockHeight -> processGenesisSetup height st = Ok st).
Proof.
  split; [|split; [|split]].
  - intros na Hv Ha vault. unfold processGenesisSetup.
    rewrite Z.eqb_refl, Hv, Ha. cbn [negb length Nat.ltb Nat.leb].
    split; [reflexivity|]. split; [|reflexivity].
    unfold GetAsgardVaults, SetVault in *. cbn [ks_vaults set_vaults].
    rewrite filter_app, filter_filter_nil by exact Hv.
    reflexivity.
  - intros na1 na2 nas buf Hv Ha keygens Hm st'. unfold processGenesisSetup.
    rewrite Z.eqb_refl, Hv, Ha. cbn [negb length Nat.ltb Nat.leb].
    unfold TriggerKeygen, SetKeygens. cbn [NewKeygens Keygens_Height].
    fold keygens. rewrite Hm.
    split; [reflexivity|]. split; [reflexivity|].
    intros Hu. unfold GetKeygens, st'. cbn [ks_store set_store].
    rewrite lookup_insert_eq, Hu. reflexivity.
  - intros Hv. unfold processGenesisSetup. rewrite Z.eqb_refl. cbn [negb].
    destruct (GetAsgardVaults st); [congruence|]. reflexivity.
  - intros height Hh. unfold processGenesisSetup.
    destruct (Z.eqb_spec height genesisBlockHeight); [congruence|]. reflexivity.
Qed.

End Genesis.
End GenesisProofs.

(** ** Yggdrasil handler *)

Module YggdrasilProofs.
Import Yggdrasil.
Section Return.
Context `{Ext : Externals} `{Hlp : Helpers}.

Lemma GetNodeAccountByPubKey_pk (st : KState) pk na :
  GetNodeAccountByPubKey st pk = Ok na -> NodeAccount_PubKey na = pk.
Proof.
  unfold GetNodeAccountByPubKey.
  destruct (List.find _ (ks_nodes st)) as [x|] eqn:Hf; [|discriminate].
  intros [= ->]. apply find_some in Hf as [_ Hf]. now apply bool_decide_eq_true in Hf.
Qed.

Lemma GetNodeAccountByPubKey_SetNodeAccount (st : KState) pk na b :
  GetNodeAccountByPubKey st pk = Ok na ->
  GetNodeAccountByPubKey (SetNodeAccount st (set_Bond na b)) pk = Ok (set_Bond na b).
Proof.
  intros Hg. pose proof (GetNodeAccountByPubKey_pk _ _ _ Hg) as Hpk. subst pk.
  revert Hg. unfold GetNodeAccountByPubKey, SetNodeAccount.
  cbn [ks_nodes set_nodes].
  replace (NodeAccount_PubKey (set_Bond na b)) with (NodeAccount_PubKey na) by reflexivity.
  destruct (List.find _ (ks_nodes st)) as [x|] eqn:Hf; [|discriminate].
  intros _.
  assert (He : existsb (fun x => bool_decide (NodeAccount_PubKey x = NodeAccount_PubKey na))
                       (ks_nodes st) = true).
  { apply find_some in Hf as [Hin Hx]. apply existsb_exists. now exists x. }
  rewrite He. clear He. revert Hf.
  induction (ks_nodes st) as [|y l IH]; [discriminate|].
  cbn [map List.find].
  destruct (bool_decide (NodeAccount_PubKey y = NodeAccount_PubKey na)) eqn:Hy.
  - intros _.
    replace (NodeAccount_PubKey (set_Bond na b)) with (NodeAccount_PubKey na) by reflexivity.
    rewrite bool_decide_eq_true_2 by reflexivity. reflexivity.
  - rewrite Hy. exact IH.
Qed.

Lemma set_Bond_set_Bond na b b' : set_Bond (set_Bond na b) b' = set_Bond na b'.
Proof. reflexivity. Qed.

Lemma set_Bond_id na : set_Bond na (NodeAccount_Bond na) = na.
Proof. now destruct na. Qed.

Lemma slashCoins_cons pk c coins (st : KState) :
  slashCoins pk (c :: coins) st
  = match slashNodeAccount st pk (Coin_Asset c) (Coin_Amount c) with
    | Err _ => Err "fail to slash account"
    | Ok st' => slashCoins pk coins st'
    end.
Proof.
  unfold slashCoins. cbn [forM].
  now destruct (slashNodeAccount st pk (Coin_Asset c) (Coin_Amount c)).
Qed.

(** The slashing loop goes through: it touches the node accounts only, and
    the bond of the node ends lower by the value of the coins, each counted
    once, or at zero. *)
Lemma slashCoins_bond pk coins : forall (st : KState) na,
  GetNodeAccountByPubKey st pk = Ok na ->
  exists st1,
    slashCoins pk coins st = Ok st1
    /\ GetNodeAccountByPubKey st1 pk
       = Ok (set_Bond na (NodeAccount_Bond na - slashedValue coins)%N)
    /\ ks_vaults st1 = ks_vaults st /\ ks_txout st1 = ks_txout st
    /\ ks_store st1 = ks_store st.
Proof.
  induction coins as [|c coins IH]; intros st na Hg.
  - exists st. cbn. rewrite N.sub_0_r, set_Bond_id. auto.
  - rewrite slashCoins_cons. unfold slashNodeAccount. rewrite Hg. cbn [rbind].
    pose proof (GetNodeAccountByPubKey_SetNodeAccount st pk na
                  (NodeAccount_Bond na - AssetValueInRune (Coin_Asset c) (Coin_Amount c))%N Hg) as Hg'.
    destruct (IH _ _ Hg') as (st1 & Hs & Hn & Hv & Ht & Hk).
    exists st1. split; [exact Hs|]. split; [|auto].
    rewrite Hn, set_Bond_set_Bond. cbn [slashedValue fold_right set_Bond NodeAccount_Bond].
    fold (slashedValue coins). now rewrite N.sub_add_distr.
Qed.

Lemma Vaults_HasAddress_false vs chain address :
  Vaults_HasAddress vs chain address = Ok false ->
  forall v, v ∈ vs -> GetAddress (Vault_PubKey v) chain <> Ok address.
Proof.
  induction vs as [|x vs IH]; intros Hh v Hv; [now apply elem_of_nil in Hv|].
  cbn in Hh. destruct (GetAddress (Vault_PubKey x) chain) as [addr|] eqn:Hx; [|discriminate].
  cbn in Hh. destruct (String.eqb_spec addr address) as [->|Hne]; [discriminate|].
  apply elem_of_cons in Hv as [->|Hv]; [congruence|]. now apply IH.
Qed.

Lemma Vaults_HasAddress_true vs chain address :
  Vaults_HasAddress vs chain address = Ok true ->
  exists v, v ∈ vs /\ GetAddress (Vault_PubKey v) chain = Ok address.
Proof.
  induction vs as [|x vs IH]; intros Hh; [discriminate|].
  cbn in Hh. destruct (GetAddress (Vault_PubKey x) chain) as [addr|] eqn:Hx; [|discriminate].
  cbn in Hh. destruct (String.eqb_spec addr address) as [->|Hne].
  - exists x. split; [apply list_elem_of_here|assumption].
  - destruct (IH Hh) as (v & Hv & Ha). exists v. split; [now apply list_elem_of_further|assumption].
Qed.

(** C7.  A return observed on a yggdrasil vault.  When the recipient is not
    the address of an Active asgard vault on the chain of the transaction,
    the slashing loop runs over the coins of the transaction and the bond of
    the node ends lower by the RUNE value of every coin, each counted once
    (and not below zero); when it is, the state is left as it was and the
    bond is what it was.  The node account that is then read has that bond
    and is otherwise the account of before: if the node is Active the
    handler is done, without a bond refund; otherwise the bond refund runs
    on the state reached so far. *)
Theorem handleYggdrasilReturn_slash (height : Z) (msg : MsgYggdrasil) (vault : Vault)
    (version : Version) (st : KState) (na : NodeAccount) (isAsgard : bool) :
  Vault_Type vault = YggdrasilVault ->
  Vaults_HasAddress (GetAsgardVaultsByStatus st ActiveVault)
                    (Tx_Chain (Msg_Tx msg)) (Tx_ToAddress (Msg_Tx msg)) = Ok isAsgard ->
  GetNodeAccountByPubKey st (Msg_PubKey msg) = Ok na ->
  let slashed := if isAsgard then 0%N else slashedValue (Tx_Coins (Msg_Tx msg)) in
  (if isAsgard
   then exists v, v ∈ GetAsgardVaultsByStatus st ActiveVault
                  /\ GetAddress (Vault_PubKey v) (Tx_Chain (Msg_Tx msg))
                     = Ok (Tx_ToAddress (Msg_Tx msg))
   else forall v, v ∈ GetAsgardVaultsByStatus st ActiveVault ->
                  GetAddress (Vault_PubKey v) (Tx_Chain (Msg_Tx msg))
                  <> Ok (Tx_ToAddress (Msg_Tx msg)))
  /\ exists st1 na',
       (if isAsgard then st1 = st
        else slashCoins (Msg_PubKey msg) (Tx_Coins (Msg_Tx msg)) st = Ok st1)
       /\ GetNodeAccountByPubKey st1 (Msg_PubKey msg) = Ok na'
       /\ NodeAccount_Bond na' = (NodeAccount_Bond na - slashed)%N
       /\ NodeAccount_Status na' = NodeAccount_Status na
       /\ NodeAccount_PubKey na' = NodeAccount_PubKey na
       /\ NodeAccount_NodeAddress na' = NodeAccount_NodeAddress na
       /\ handleYggdrasilReturn height msg vault version st
          = if bool_decide (NodeAccount_Status na = NodeActive) then Ok st1
            else if GetTxOutStore version then refundBond (Msg_Tx msg) na' st1
                 else Err VaultMgr.errBadVersion.
Proof.
  intros Hty Hh Hg slashed. split.
  - destruct isAsgard.
    + now apply Vaults_HasAddress_true.
    + now apply Vaults_HasAddress_false.
  - unfold handleYggdrasilReturn. rewrite bool_decide_eq_true_2 by exact Hty.
    rewrite Hh. destruct isAsgard; cbn [negb].
    + exists st, na. subst slashed. rewrite N.sub_0_r.
      split; [reflexivity|]. split; [exact Hg|]. repeat (split; [reflexivity|]).
      cbn [rbind]. rewrite Hg. cbn [rbind].
      destruct (bool_decide _); [reflexivity|]. now destruct (GetTxOutStore version).
    + destruct (slashCoins_bond (Msg_PubKey msg) (Tx_Coins (Msg_Tx msg)) st na Hg)
        as (st1 & Hs & Hn & _).
      exists st1, (set_Bond na (NodeAccount_Bond na - slashed)%N).
      split; [exact Hs|]. split; [exact Hn|]. repeat (split; [reflexivity|]).
      rewrite Hs. cbn [rbind]. rewrite Hn. cbn [rbind].
      cbn [set_Bond NodeAccount_Status].
      destruct (bool_decide _); [reflexivity|]. now destruct (GetTxOutStore version).
Qed.

End Return.
End YggdrasilProofs.

(** ** Vault manager: migration of the funds of retiring vaults *)

Module MigrationProofs.
Import VaultMgr.
Local Open Scope list_scope.

Lemma wrap64_id z : (- 2 ^ 63 <= z < 2 ^ 63)%Z -> wrap64 z = z.
Proof.
  intros Hz. unfold wrap64.
  rewrite Z.mod_small by lia. lia.
Qed.

(** The receiver loop keeps a vault it has seen whose amount of the asset is
    the least seen so far. *)
Lemma pickReceiver_fold asset (l : list Vault) : forall (seen : list Vault) (a : Vault),
  a ∈ seen ->
  (forall w, w ∈ seen ->
     (Coin_Amount (Vault_GetCoin a asset) <= Coin_Amount (Vault_GetCoin w asset))%N) ->
  exists b,
    fold_left
      (fun '(cn, pk) asgard =>
         if (Coin_Amount (Vault_GetCoin asgard asset) <? Coin_Amount cn)%N
         then (Vault_GetCoin asgard asset, Vault_PubKey asgard)
         else (cn, pk))
      l (Vault_GetCoin a asset, Vault_PubKey a)
    = (Vault_GetCoin b asset, Vault_PubKey b)
    /\ b ∈ seen ++ l
    /\ forall w, w ∈ seen ++ l ->
         (Coin_Amount (Vault_GetCoin b asset) <= Coin_Amount (Vault_GetCoin w asset))%N.
Proof.
  induction l as [|x l IH]; intros seen a Ha Hmin.
  - exists a. rewrite app_nil_r. auto.
  - cbn [fold_left].
    destruct (N.ltb_spec (Coin_Amount (Vault_GetCoin x asset))
                         (Coin_Amount (Vault_GetCoin a asset))) as [Hlt|Hge].
    + destruct (IH (seen ++ [x]) x) as (b & Hf & Hb & Hm).
      * apply elem_of_app. right. apply list_elem_of_here.
      * intros w Hw. apply elem_of_app in Hw as [Hw|Hw].
        -- specialize (Hmin w Hw). lia.
        -- apply list_elem_of_singleton in Hw as ->. lia.
      * exists b. rewrite <- app_assoc in Hb, Hm. auto.
    + destruct (IH (seen ++ [x]) a) as (b & Hf & Hb & Hm).
      * apply elem_of_app. now left.
      * intros w Hw. apply elem_of_app in Hw as [Hw|Hw]; [now apply Hmin|].
        apply list_elem_of_singleton in Hw as ->. exact Hge.
      * exists b. rewrite <- app_assoc in Hb, Hm. auto.
Qed.

Lemma pickReceiver_min a0 rest asset :
  exists b,
    pickReceiver a0 (a0 :: rest) asset = (Vault_GetCoin b asset, Vault_PubKey b)
    /\ b ∈ a0 :: rest
    /\ forall w, w ∈ a0 :: rest ->
         (Coin_Amount (Vault_GetCoin b asset) <= Coin_Amount (Vault_GetCoin w asset))%N.
Proof.
  destruct (pickReceiver_fold asset (a0 :: rest) [a0] a0) as (b & Hf & Hb & Hm).
  - apply list_elem_of_here.
  - intros w Hw. apply list_elem_of_singleton in Hw as ->. lia.
  - exists b. split; [exact Hf|].
    split.
    + apply elem_of_app in Hb as [Hb|Hb]; [|exact Hb].
      apply list_elem_of_singleton in Hb as ->. apply list_elem_of_here.
    + intros w Hw. apply Hm. apply elem_of_app. now right.
Qed.

(** The amount computed by the code is the amount of the schedule, for a
    vault that retired at or before the current height. *)
Lemma migrateAmount_schedule height statusSince migrateInterval amount :
  (0 < migrateInterval)%Z ->
  (statusSince <= height < 2 ^ 63 - 1)%Z -> (0 <= statusSince)%Z ->
  (amount < 2 ^ 128)%N ->
  migrateAmount (migrateRound height statusSince migrateInterval) amount
  = Ok (scheduleAmount (height - statusSince) migrateInterval amount).
Proof.
  intros Hi Hh Hs Ha. unfold migrateRound, scheduleAmount, migrateAmount.
  set (diff := (height - statusSince)%Z).
  assert (Hd : (0 <= diff < 2 ^ 63 - 1)%Z) by (unfold diff; lia).
  rewrite Z.quot_div_nonneg by lia.
  assert (Hq : (0 <= diff / migrateInterval <= diff)%Z).
  { split; [apply Z.div_pos; lia|]. apply Z.div_le_upper_bound; [lia|]. nia. }
  rewrite wrap64_id by lia.
  replace (diff / migrateInterval + 1)%Z with (1 + diff / migrateInterval)%Z by lia.
  destruct (Z.ltb_spec (1 + diff / migrateInterval) 5) as [Hlt|Hge]; [|reflexivity].
  unfold uint64. rewrite Z.mod_small by lia.
  unfold Uint_MulUint64.
  assert (Hn : (Z.to_N (1 + diff / migrateInterval) < 5)%N) by lia.
  assert (Hm : (amount * Z.to_N (1 + diff / migrateInterval) <=? MaxUint)%N = true).
  { apply N.leb_le. unfold MaxUint.
    assert (amount * Z.to_N (1 + diff / migrateInterval) < 2 ^ 128 * 5)%N by nia.
    assert (2 ^ 128 * 5 <= 2 ^ 256 - 1)%N by (vm_compute; discriminate).
    lia. }
  rewrite Hm. reflexivity.
Qed.

Section Migration.
Context `{Ext : Externals} `{Hlp : Helpers}.

Variable height migrateInterval : Z.
Variable a0 : Vault.
Variable rest : list Vault.

Hypothesis interval_pos : (0 < migrateInterval)%Z.
Hypothesis height_int64 : (height < 2 ^ 63 - 1)%Z.
Hypothesis store_accepts : forall toi, TryAddTxOutItem_err toi = None.
Hypothesis active_addresses :
  forall a chain, a ∈ a0 :: rest -> exists addr, GetAddress (Vault_PubKey a) chain = Ok addr.

Lemma migrateCoin_item vault (st : KState) coin :
  (0 <= Vault_StatusSince vault <= height)%Z ->
  (Coin_Amount coin < 2 ^ 128)%N ->
  exists toi,
    migrateCoin height migrateInterval a0 (a0 :: rest) vault st coin
    = Ok (set_txout st (ks_txout st ++ [toi]))
    /\ migrationItem height migrateInterval a0 (a0 :: rest) (vault, coin) toi.
Proof.
  intros Hs Ha. unfold migrateCoin, migrationItem.
  destruct (pickReceiver_min a0 rest (Coin_Asset coin)) as (b & Hp & Hb & _).
  rewrite Hp. cbn [snd].
  destruct (active_addresses b (Asset_Chain (Coin_Asset coin)) Hb) as [addr Haddr].
  rewrite Haddr. cbn [rbind].
  rewrite migrateAmount_schedule by lia. cbn [rbind].
  unfold TryAddTxOutItem. rewrite store_accepts.
  eexists. split; [reflexivity|]. cbn [TxOutItem_ToAddress]. split; reflexivity.
Qed.

Lemma migrateCoins_items vault coins : forall (st : KState),
  (0 <= Vault_StatusSince vault <= height)%Z ->
  Forall (fun c => (Coin_Amount c < 2 ^ 128)%N) coins ->
  exists st' items,
    forM (migrateCoin height migrateInterval a0 (a0 :: rest) vault) coins st = Ok st'
    /\ ks_txout st' = ks_txout st ++ items
    /\ Forall2 (migrationItem height migrateInterval a0 (a0 :: rest))
               (map (pair vault) coins) items.
Proof.
  induction coins as [|c coins IH]; intros st Hs Hc.
  - exists st, []. cbn. rewrite app_nil_r. auto.
  - apply Forall_cons in Hc as [Hc Hcs].
    destruct (migrateCoin_item vault st c Hs Hc) as (toi & Hm & Hi).
    cbn [forM]. rewrite Hm. cbn [rbind].
    destruct (IH (set_txout st (ks_txout st ++ [toi])) Hs Hcs) as (st' & items & Hf & Ht & Hr).
    exists st', (toi :: items). split; [exact Hf|]. split.
    + rewrite Ht. cbn [ks_txout set_txout]. now rewrite <- app_assoc.
    + cbn [map]. now constructor.
Qed.

Lemma migrateVaults_items retiring : forall (st : KState),
  Forall (wellFormed height) retiring ->
  exists st' items,
    forM (migrateVault height migrateInterval a0 (a0 :: rest)) retiring st = Ok st'
    /\ ks_txout st' = ks_txout st ++ items
    /\ Forall2 (migrationItem height migrateInterval a0 (a0 :: rest))
               (dueCoins height migrateInterval retiring) items.
Proof.
  induction retiring as [|v retiring IH]; intros st Hwf.
  - exists st, []. cbn. rewrite app_nil_r. auto.
  - apply Forall_cons in Hwf as [[Hs Hc] Hwf].
    cbn [forM]. unfold migrateVault at 1. unfold dueCoins. cbn [flat_map].
    fold (dueCoins height migrateInterval retiring).
    destruct (Vault_HasFunds v) eqn:Hf; cbn [negb andb].
    + destruct (Z.eqb_spec migrateInterval 0) as [Hz|_]; [lia|].
      destruct (Z.rem (height - Vault_StatusSince v) migrateInterval =? 0)%Z.
      * destruct (migrateCoins_items v (Vault_Coins v) st Hs Hc) as (st1 & items1 & Hm & Ht1 & Hr1).
        rewrite Hm. cbn [rbind].
        destruct (IH st1 Hwf) as (st' & items & Hm' & Ht & Hr).
        exists st', (items1 ++ items). split; [exact Hm'|]. split.
        -- rewrite Ht, Ht1. now rewrite <- app_assoc.
        -- now apply Forall2_app.
      * cbn [rbind]. destruct (IH st Hwf) as (st' & items & Hm' & Ht & Hr).
        exists st', items. auto.
    + cbn [rbind]. destruct (IH (DeleteVault st (Vault_PubKey v)) Hwf) as (st' & items & Hm' & Ht & Hr).
      exists st', items. auto.
Qed.

(** [EndBlock] away from genesis, with an active asgard to move funds to:
    it succeeds and queues, after what was queued, one item for each due
    coin, in order. *)
Lemma EndBlock_items version (st : KState) :
  height <> genesisBlockHeight ->
  GetAsgardVaultsByStatus st ActiveVault = a0 :: rest ->
  GetTxOutStore version = true ->
  Forall (wellFormed height) (GetAsgardVaultsByStatus st RetiringVault) ->
  exists st' items,
    EndBlock height version migrateInterval st = Ok st'
    /\ ks_txout st' = ks_txout st ++ items
    /\ Forall2 (migrationItem height migrateInterval a0 (a0 :: rest))
               (dueCoins height migrateInterval (GetAsgardVaultsByStatus st RetiringVault))
               items.
Proof.
  intros Hg Hact Hv Hwf. unfold EndBlock.
  destruct (Z.eqb_spec height genesisBlockHeight); [congruence|].
  rewrite Hact, Hv. cbn [negb].
  now apply migrateVaults_items.
Qed.

(** The due coins are the coins of the retiring vaults that have funds and
    whose age is a multiple of the interval. *)
Lemma elem_of_dueCoins retiring vault coin :
  (vault, coin) ∈ dueCoins height migrateInterval retiring
  <-> vault ∈ retiring /\ Vault_HasFunds vault = true
      /\ Z.rem (height - Vault_StatusSince vault) migrateInterval = 0%Z
      /\ coin ∈ Vault_Coins vault.
Proof.
  unfold dueCoins. rewrite list_elem_of_In, in_flat_map. split.
  - intros (v & Hv & Hin). apply list_elem_of_In in Hv.
    destruct (Vault_HasFunds v) eqn:Hf; cbn [andb] in Hin; [|contradiction].
    destruct (Z.eqb_spec (Z.rem (height - Vault_StatusSince v) migrateInterval) 0);
      [|contradiction].
    apply list_elem_of_In, list_elem_of_fmap in Hin as (c & [= -> ->] & Hc). auto.
  - intros (Hv & Hf & Hr & Hc). exists vault. split; [now apply list_elem_of_In|].
    rewrite Hf, Hr. cbn. apply list_elem_of_In, list_elem_of_fmap. now exists coin.
Qed.

(** C2, as the code has it.  Away from genesis, with an active asgard to
    receive, [EndBlock] queues one item for every coin of every retiring
    vault that has funds and whose age [now - status_since] is a multiple of
    the interval.  The item is paid by the retiring vault and its amount is
    the balance of the coin times [nth] over 5 while [nth < 5], the whole
    balance from [nth = 5] on, with [nth = 1 + (now - status_since) /
    interval].  For a balance of 1000 ONE and an interval of 100 that is
    400 ONE at age 100, 600 at 200, 800 at 300 and the whole 1000 ONE at
    400 and at 500; the 200 ONE round is the one at age 0. *)
Theorem EndBlock_migration_schedule version (st : KState) :
  height <> genesisBlockHeight ->
  GetAsgardVaultsByStatus st ActiveVault = a0 :: rest ->
  GetTxOutStore version = true ->
  Forall (wellFormed height) (GetAsgardVaultsByStatus st RetiringVault) ->
  (exists st' items,
     EndBlock height version migrateInterval st = Ok st'
     /\ ks_txout st' = ks_txout st ++ items
     /\ Forall2 (fun '(vault, coin) toi =>
                   TxOutItem_VaultPubKey toi = Vault_PubKey vault
                   /\ TxOutItem_Coin toi
                      = mkCoin (Coin_Asset coin)
                               (scheduleAmount (height - Vault_StatusSince vault)
                                               migrateInterval (Coin_Amount coin)))
                (dueCoins height migrateInterval (GetAsgardVaultsByStatus st RetiringVault))
                items)
  /\ map (fun diff => scheduleAmount diff 100 (1000 * One)) [0; 100; 200; 300; 400; 500]%Z
     = [200 * One; 400 * One; 600 * One; 800 * One; 1000 * One; 1000 * One]%N.
Proof.
  intros Hg Hact Hv Hwf. split; [|vm_compute; reflexivity].
  destruct (EndBlock_items version st Hg Hact Hv Hwf) as (st' & items & He & Ht & Hr).
  exists st', items. split; [exact He|]. split; [exact Ht|].
  eapply Forall2_impl; [exact Hr|].
  intros [vault coin] toi [_ ->]. cbn. auto.
Qed.

(** C8.  Every item that [EndBlock] queues for a coin of a retiring vault
    goes to an Active asgard vault that holds the least of the asset of the
    coin among all Active asgard vaults: the destination is the address of
    the pub key of that vault on the chain of the coin, the paying vault is
    the retiring one and the memo is "migrate". *)
Theorem EndBlock_migration_receiver version (st : KState) :
  height <> genesisBlockHeight ->
  GetAsgardVaultsByStatus st ActiveVault = a0 :: rest ->
  GetTxOutStore version = true ->
  Forall (wellFormed height) (GetAsgardVaultsByStatus st RetiringVault) ->
  exists st' items,
    EndBlock height version migrateInterval st = Ok st'
    /\ ks_txout st' = ks_txout st ++ items
    /\ Forall2 (fun '(vault, coin) toi =>
                  exists asgard,
                    asgard ∈ GetAsgardVaultsByStatus st ActiveVault
                    /\ Vault_Type asgard = AsgardVault /\ Vault_Status asgard = ActiveVault
                    /\ (forall w, w ∈ GetAsgardVaultsByStatus st ActiveVault ->
                          (Coin_Amount (Vault_GetCoin asgard (Coin_Asset coin))
                           <= Coin_Amount (Vault_GetCoin w (Coin_Asset coin)))%N)
                    /\ GetAddress (Vault_PubKey asgard) (Asset_Chain (Coin_Asset coin))
                       = Ok (TxOutItem_ToAddress toi)
                    /\ TxOutItem_Chain toi = Asset_Chain (Coin_Asset coin)
                    /\ TxOutItem_VaultPubKey toi = Vault_PubKey vault
                    /\ TxOutItem_Memo toi = "migrate"%string
                    /\ Coin_Asset (TxOutItem_Coin toi) = Coin_Asset coin)
               (dueCoins height migrateInterval (GetAsgardVaultsByStatus st RetiringVault))
               items.
Proof.
  intros Hg Hact Hv Hwf.
  destruct (EndBlock_items version st Hg Hact Hv Hwf) as (st' & items & He & Ht & Hr).
  exists st', items. split; [exact He|]. split; [exact Ht|].
  eapply Forall2_impl; [exact Hr|].
  intros [vault coin] toi [Haddr Htoi].
  destruct (pickReceiver_min a0 rest (Coin_Asset coin)) as (b & Hp & Hb & Hmin).
  rewrite Hp in Haddr. cbn [snd] in Haddr.
  exists b. rewrite Hact. split; [exact Hb|].
  assert (Hin : b ∈ GetAsgardVaultsByStatus st ActiveVault) by (now rewrite Hact).
  unfold GetAsgardVaultsByStatus, GetAsgardVaults in Hin.
  apply list_elem_of_filter in Hin as [Hst Hin].
  apply list_elem_of_filter in Hin as [Hty _].
  rewrite Htoi. cbn. auto 10.
Qed.

End Migration.
End MigrationProofs.

(** ** The statements at concrete inputs *)

Module Examples.
Import Sample.
Local Open Scope list_scope.

(** C3 at the memo "reserve". *)
Lemma ParseMemo_reserve_type_witness :
  Memo.stringToTxType (idx (Split "reserve" ":") 0) = (Memo.txReserve, None)
  /\ Memo.GetType (fst (Memo.ParseMemo "reserve")) = Memo.txYggdrasilReturn.
Proof.
  split; [reflexivity|].
  exact (proj1 (proj2 (MemoProofs.ParseMemo_reserve_type "reserve" eq_refl))).
Defined.

(** C5 at the memo "unstake:BNB.BNB:5000". *)
Lemma ParseMemo_unstake_basis_points_witness :
  Memo.ParseMemo "unstake:BNB.BNB:5000"
  = (Memo.UnstakeMemo (Memo.mkMemoBase Memo.txUnstake BNB) "5000", None).
Proof.
  refine (proj1 (proj2 (proj1 MemoProofs.ParseMemo_unstake_basis_points
                           "unstake:BNB.BNB:5000"%string "unstake"%string "BNB.BNB"%string
                           "5000"%string [] BNB _ _ _)) 5000%N _ _).
  - reflexivity.
  - reflexivity.
  - reflexivity.
  - reflexivity.
  - unfold MaxUnstakeBasisPoints. lia.
Defined.

(** C9 at the memo "stake:BTC.BTC:bc1qxy". *)
Lemma ParseMemo_stake_address_witness :
  Memo.GetDestination (fst (Memo.ParseMemo "stake:BTC.BTC:bc1qxy")) = "bc1qxy"%string.
Proof.
  refine (proj2 (proj1 (proj1 (proj2 MemoProofs.ParseMemo_stake_address)
                                 "stake:BTC.BTC:bc1qxy"%string "stake"%string
                                 "BTC.BTC"%string "bc1qxy"%string [] BTC _ _ _ _)
                        "bc1qxy"%string _)); reflexivity.
Defined.

(** C4 at the two failing rows of the test table. *)
Lemma calculatePoolUnits_first_stake_one_sided_witness :
  Stake.calculatePoolUnits 0 0 0 0 (100 * One)
  = (0%N, 0%N, Some "total RUNE in the pool is zero"%string)
  /\ Stake.calculatePoolUnits 0 0 0 (100 * One) 0
     = (0%N, 0%N, Some "total asset in the pool is zero"%string).
Proof.
  split.
  - apply (proj1 StakeProofs.calculatePoolUnits_first_stake_one_sided). reflexivity.
  - apply (proj2 StakeProofs.calculatePoolUnits_first_stake_one_sided). reflexivity.
Defined.

(** C10 on an empty store. *)
Lemma GetKeygens_lookup_miss_witness :
  GetKeygens (mkKState [] [] ∅ []) 1718 = (mkKeygens 1718 [], None).
Proof.
  apply (proj1 (KeygenProofs.GetKeygens_lookup_miss (mkKState [] [] ∅ []) 1718%N)).
  reflexivity.
Defined.

(** C6 with one active node and with two. *)
Lemma processGenesisSetup_cases_witness :
  GetAsgardVaults
    match VaultMgr.processGenesisSetup 1 (mkKState [] [node1; node3] ∅ []) with
    | Ok st' => st'
    | Err _ => mkKState [] [] ∅ []
    end
  = [mkVault 0 "pk1" [] AsgardVault ActiveVault 0 ["pk1"%string]]
  /\ VaultMgr.processGenesisSetup 1 (mkKState [] [node1; node2; node3] ∅ [])
     = Ok (mkKState [] [node1; node2; node3]
                    (<["keygen/1"%string := mkKeygens 1 [["pk1"; "pk2"]%string]]> ∅) []).
Proof.
  split.
  - assert (W := proj1 (GenesisProofs.processGenesisSetup_cases
                           (mkKState [] [node1; node3] ∅ [])) node1).
    destruct W as (Hrun & Hvaults & _); [reflexivity|reflexivity|].
    change genesisBlockHeight with 1%Z in Hrun.
    rewrite Hrun. exact Hvaults.
  - refine (proj1 (proj1 (proj2 (GenesisProofs.processGenesisSetup_cases
                                   (mkKState [] [node1; node2; node3] ∅ [])))
                     node1 node2 [] (mkKeygens 1 [["pk1"; "pk2"]%string]) _ _ _));
      reflexivity.
Defined.

(** C7 on scenario 6: the bond of the node goes from 100 ONE to 97 ONE. *)
Lemma handleYggdrasilReturn_slash_witness :
  exists st1 na',
    Yggdrasil.slashCoins "pk3" (Tx_Coins (Msg_Tx misdirected)) migrating = Ok st1
    /\ GetNodeAccountByPubKey st1 "pk3" = Ok na'
    /\ NodeAccount_Bond node3 = (100 * One)%N
    /\ NodeAccount_Bond na' = (97 * One)%N
    /\ Yggdrasil.handleYggdrasilReturn 5100 misdirected yggVault (0, 1, 0)%N migrating
       = refundBond (Msg_Tx misdirected) na' st1.
Proof.
  assert (W := YggdrasilProofs.handleYggdrasilReturn_slash
                 5100 misdirected yggVault (0, 1, 0)%N migrating node3 false).
  destruct W as [_ (st1 & na' & Hs & Hn & Hb & _ & _ & _ & Hr)];
    [reflexivity|reflexivity|reflexivity|].
  exists st1, na'. split; [exact Hs|]. split; [exact Hn|]. split; [reflexivity|].
  split; [exact Hb|exact Hr].
Defined.

(** The side conditions of the migration statements on scenario 5. *)
Ltac scenario5 :=
  lazymatch goal with
  | |- (_ < _)%Z => unfold H; lia
  | |- forall toi, TryAddTxOutItem_err toi = None => intros; reflexivity
  | |- forall a chain, _ -> exists addr, _ => intros a chain _; eexists; reflexivity
  | |- _ <> genesisBlockHeight => unfold H, genesisBlockHeight; lia
  | |- GetAsgardVaultsByStatus _ _ = _ => reflexivity
  | |- GetTxOutStore _ = true => reflexivity
  | |- Forall _ _ =>
      repeat constructor; cbn; unfold H; try lia;
      try (vm_compute; reflexivity)
  end.

(** C2 and C8 on scenario 5, one interval after the vault retired. *)
Lemma EndBlock_migration_schedule_witness :
  exists st' items,
    VaultMgr.EndBlock (H + 100) (0, 1, 0)%N 100 migrating = Ok st'
    /\ ks_txout st' = ks_txout migrating ++ items
    /\ Forall2 (fun '(vault, coin) toi =>
                  TxOutItem_VaultPubKey toi = Vault_PubKey vault
                  /\ TxOutItem_Coin toi
                     = mkCoin (Coin_Asset coin)
                              (VaultMgr.scheduleAmount (H + 100 - Vault_StatusSince vault)
                                                       100 (Coin_Amount coin)))
               [(retiringVault, mkCoin BTC (1000 * One))] items.
Proof.
  eapply proj1.
  eapply (MigrationProofs.EndBlock_migration_schedule (H + 100) 100 activeVault []);
    scenario5.
Defined.

(** C8 on scenario 5 with three active asgard vaults of 500, 200 and 300
    BTC: the one item goes to the address of the vault with 200 BTC, which
    is not the first of the list. *)
Lemma EndBlock_migration_receiver_witness :
  exists st' toi,
    VaultMgr.EndBlock (H + 100) (0, 1, 0)%N 100 SampleMore.migratingSeveral = Ok st'
    /\ GetAsgardVaultsByStatus SampleMore.migratingSeveral ActiveVault
       = [SampleMore.asgardA; SampleMore.asgardB; SampleMore.asgardC]
    /\ map (fun v => Coin_Amount (Vault_GetCoin v BTC))
           (GetAsgardVaultsByStatus SampleMore.migratingSeveral ActiveVault)
       = [500 * One; 200 * One; 300 * One]%N
    /\ ks_txout st' = [toi]
    /\ TxOutItem_ToAddress toi = "BTC/asgardB"%string
    /\ GetAddress (Vault_PubKey SampleMore.asgardB) "BTC" = Ok (TxOutItem_ToAddress toi)
    /\ TxOutItem_VaultPubKey toi = Vault_PubKey retiringVault
    /\ TxOutItem_Memo toi = "migrate"%string
    /\ Coin_Asset (TxOutItem_Coin toi) = BTC.
Proof.
  destruct (MigrationProofs.EndBlock_migration_receiver (H + 100) 100 SampleMore.asgardA
              [SampleMore.asgardB; SampleMore.asgardC]) with
    (version := (0, 1, 0)%N) (st := SampleMore.migratingSeveral)
    as (st' & items & He & Ht & Hr); try scenario5.
  assert (Hact : GetAsgardVaultsByStatus SampleMore.migratingSeveral ActiveVault
                 = [SampleMore.asgardA; SampleMore.asgardB; SampleMore.asgardC])
    by reflexivity.
  assert (Hdue : VaultMgr.dueCoins (H + 100) 100
                   (GetAsgardVaultsByStatus SampleMore.migratingSeveral RetiringVault)
                 = [(retiringVault, mkCoin BTC (1000 * One))])
    by (vm_compute; reflexivity).
  rewrite Hdue in Hr.
  apply Forall2_cons_inv_l in Hr as (toi & items' & Hx & Hnil & ->).
  apply Forall2_nil_inv_l in Hnil as ->.
  destruct Hx as (asgard & Hin & _ & _ & Hmin & Haddr & _ & Hpk & Hmemo & Hasset).
  cbn [Coin_Asset] in Hmin, Haddr, Hasset.
  assert (Hb : asgard = SampleMore.asgardB).
  { rewrite Hact in Hin, Hmin.
    apply elem_of_cons in Hin as [->|Hin].
    { exfalso. assert (Hle := Hmin SampleMore.asgardB
                                (list_elem_of_further _ _ _ (list_elem_of_here _ _))).
      apply N.leb_le in Hle. vm_compute in Hle. discriminate. }
    apply elem_of_cons in Hin as [->|Hin]; [reflexivity|].
    apply list_elem_of_singleton in Hin as ->.
    exfalso. assert (Hle := Hmin SampleMore.asgardB
                              (list_elem_of_further _ _ _ (list_elem_of_here _ _))).
    apply N.leb_le in Hle. vm_compute in Hle. discriminate. }
  subst asgard. exists st', toi.
  split; [exact He|]. split; [exact Hact|]. split; [vm_compute; reflexivity|].
  split; [exact Ht|]. split; [|auto].
  assert (Ha : GetAddress (Vault_PubKey SampleMore.asgardB) (Asset_Chain BTC)
               = Ok "BTC/asgardB"%string) by reflexivity.
  rewrite Ha in Haddr. now injection Haddr as <-.
Defined.

(** C2 as the specification states it fails on scenario 5: one interval
    after the vault retired the round is the second one, and the item
    queued is of 400 BTC, not of 200 BTC. *)
Lemma EndBlock_first_interval_not_200 :
  migratedAt (H + 100) = Ok [400 * One]%N
  /\ migratedAt (H + 100) <> Ok [200 * One]%N
  /\ map migratedAt [H + 100; H + 200; H + 300; H + 400; H + 500]%Z
     <> map (fun n => Ok [n * One]%N) [200; 400; 600; 800; 1000]%N.
Proof.
  split; [vm_compute; reflexivity|].
  split; vm_compute; discriminate.
Qed.

End Examples.

(** ** Memo parser: the alias table, the type names and the other actions *)

Module MemoMore.
Import Memo.

Lemma lower_ascii_idem c : lower_ascii (lower_ascii c) = lower_ascii c.
Proof. destruct c as [[] [] [] [] [] [] [] []]; reflexivity. Qed.

Lemma ToLower_idem s : ToLower (ToLower s) = ToLower s.
Proof. induction s as [|c s IH]; cbn; [reflexivity|]. now rewrite lower_ascii_idem, IH. Qed.

Lemma stringToTxType_known s tx : stringToTxType s = (tx, None) -> tx <> txUnknown.
Proof.
  unfold stringToTxType.
  destruct (map_get stringToTxTypeMap (ToLower s)) as [t|] eqn:Hg; [|discriminate].
  intros [= <-]. revert Hg. cbn.
  repeat match goal with
         | |- context [String.eqb ?a ?b] => destruct (String.eqb a b)
         end; intros [= <-]; discriminate.
Qed.

(** X1.  The two tables agree: a spelling of the name of an action, in any mix
    of upper and lower case, is read back as that action, and a string that
    is read without an error never gives [txUnknown]. *)
Theorem stringToTxType_names :
  (forall tx s, tx <> txUnknown -> ToLower s = TxType_String tx ->
                stringToTxType s = (tx, None))
  /\ (forall s tx, stringToTxType s = (tx, None) -> tx <> txUnknown)
  /\ (forall s s', ToLower s = ToLower s' ->
                   fst (stringToTxType s) = fst (stringToTxType s')).
Proof.
  split; [|split].
  - intros tx s Htx Hs. unfold stringToTxType. rewrite Hs.
    destruct tx; try congruence; reflexivity.
  - apply stringToTxType_known.
  - intros s s' Hs. unfold stringToTxType. rewrite Hs.
    now destruct (map_get stringToTxTypeMap (ToLower s')).
Qed.

(** [Equals] compares the names of two types; the names are pairwise
    different, the unknown type having the empty name, so it decides
    equality, and [IsType] holds of the stored type only. *)
Theorem TxType_Equals_eq :
  (forall tx tx2, TxType_Equals tx tx2 = true <-> tx = tx2)
  /\ (forall m tx, IsType m tx = true <-> GetType m = tx).
Proof.
  assert (He : forall tx tx2, TxType_Equals tx tx2 = true <-> tx = tx2).
  { intros tx tx2. split.
    - destruct tx, tx2; cbn; intros H; try reflexivity; discriminate H.
    - intros <-. destruct tx; reflexivity. }
  split; [exact He|]. intros m tx. apply He.
Qed.

(** Fields and separators. *)
Lemma Split_no_sep s sep :
  Forall (fun c => c <> sep) (list_ascii_of_string s) -> Split s sep = [s].
Proof.
  induction s as [|c s IH]; cbn [Split list_ascii_of_string]; [reflexivity|].
  intros Hf. apply Forall_cons in Hf as [Hc Hs].
  destruct (Ascii.eqb_spec c sep); [congruence|].
  now rewrite (IH Hs).
Qed.

Lemma Split_app_sep a b sep :
  Forall (fun c => c <> sep) (list_ascii_of_string a) ->
  Split (a ++ String sep b) sep = a :: Split b sep.
Proof.
  induction a as [|c a IH].
  - intros _. change ("" ++ String sep b) with (String sep b).
    cbn [Split]. now rewrite Ascii.eqb_refl.
  - intros Hf. apply Forall_cons in Hf as [Hc Ha].
    change (String c a ++ String sep b) with (String c (a ++ String sep b)).
    cbn [Split]. destruct (Ascii.eqb_spec c sep); [congruence|].
    now rewrite (IH Ha).
Qed.

(** A text made of a word without a colon, a colon and a field without a
    colon has these two fields. *)
Lemma Split_word_field w f :
  Forall (fun c => c <> ":"%char) (list_ascii_of_string w) ->
  Forall (fun c => c <> ":"%char) (list_ascii_of_string f) ->
  Split (w ++ String ":" f) ":" = [w; f]
  /\ (String.length (w ++ String ":" f) =? 0)%nat = false.
Proof.
  intros Hw Hf.
  assert (HS : Split (w ++ String ":" f) ":" = [w; f]).
  { rewrite Split_app_sep by exact Hw. now rewrite Split_no_sep by exact Hf. }
  split; [exact HS|].
  eapply MemoProofs.Split_length_nonzero; [exact HS|left; discriminate].
Qed.

(** A number printed in base ten has no colon. *)
Lemma string_of_uint_no_colon d :
  Forall (fun c => c <> ":"%char) (list_ascii_of_string (NilEmpty.string_of_uint d)).
Proof.
  induction d; cbn; constructor; try assumption; discriminate.
Qed.

Lemma FormatInt_no_colon z :
  Forall (fun c => c <> ":"%char) (list_ascii_of_string (FormatInt z)).
Proof.
  unfold FormatInt, NilZero.string_of_int, NilZero.string_of_uint.
  destruct (Z.to_int z) as [d|d]; destruct d; cbn;
    repeat constructor; try discriminate; apply string_of_uint_no_colon.
Qed.

Section Parse.
Context `{Ext : Externals}.

Ltac has_asset :=
  match goal with
  | |- context [fold_left ?f noAssetMemos true] =>
      let b := eval vm_compute in (fold_left f noAssetMemos true) in
      change (fold_left f noAssetMemos true) with b
  end; cbv iota.

Ltac split_matches :=
  repeat match goal with
         | |- context [match ?x with _ => _ end] =>
             lazymatch x with
             | context [match _ with _ => _ end] => fail
             | _ => destruct x eqn:?
             end
         end.

(** X2.  A memo that is refused comes back as the empty memo, except that a
    refused outbound or refund memo still carries the transaction id that
    [common.NewTxID] returned; in every case the type of the returned memo
    is the unknown type and its asset the empty asset. *)
Theorem ParseMemo_refused memo m e :
  ParseMemo memo = (m, Some e) ->
  GetType m = txUnknown /\ GetAsset m = EmptyAsset
  /\ (m = noMemo
      \/ exists t, fst (NewTxID (idx (Split memo ":") 1)) = t
                   /\ (m = NewOutboundMemo t \/ m = NewRefundMemo t)).
Proof.
  unfold ParseMemo.
  destruct (String.length memo =? 0)%nat; [intros [= <- <-]; auto|].
  destruct (stringToTxType (idx (Split memo ":") 0)) as [tx [err|]];
    [intros [= <- <-]; auto|].
  destruct tx; has_asset; split_matches;
    intros H; inversion H; subst; cbn; auto.
  all: split; [reflexivity|split; [reflexivity|right]].
  all: eexists; split; [reflexivity|auto].
Qed.

(** X3.  A memo whose first field is ASCII (so that [strings.ToLower] is the
    lowering of the letters A to Z) and that is accepted is not empty and
    begins with an alias of an action.  For add, stake, unstake and swap it
    has an asset field, and its asset is the one [common.NewAsset] reads
    from that field; for every other action its asset is the empty asset. *)
Theorem ParseMemo_accepted memo m :
  isASCII (idx (Split memo ":") 0) = true ->
  ParseMemo memo = (m, None) ->
  memo <> ""
  /\ exists tx,
       stringToTxType (idx (Split memo ":") 0) = (tx, None)
       /\ tx <> txUnknown
       /\ GetType m = storedType tx
       /\ match tx with
          | txAdd | txStake | txUnstake | txSwap =>
              (2 <= length (Split memo ":"))%nat
              /\ NewAsset (idx (Split memo ":") 1) = Ok (GetAsset m)
          | _ => GetAsset m = EmptyAsset
          end.
Proof.
  intros _ Hp. split.
  { intros ->. discriminate Hp. }
  revert Hp. unfold ParseMemo.
  destruct (String.length memo =? 0)%nat; [discriminate|].
  destruct (stringToTxType (idx (Split memo ":") 0)) as [tx [err|]] eqn:Htx;
    [discriminate|].
  intros Hp. exists tx. split; [reflexivity|].
  split; [eapply stringToTxType_known; exact Htx|].
  revert Hp.
  destruct tx; has_asset;
    try (destruct (length (Split memo ":") <? 2)%nat eqn:Hlen;
         [discriminate|apply Nat.ltb_ge in Hlen]);
    split_matches; intros H; inversion H; subst; cbn; auto.
Qed.

(** The optional fields of a swap memo.  Without a destination field, or
    with an empty one, the destination is the empty address; without a
    price limit field, or with an empty one, the limit is zero; a limit that
    [sdk.ParseUint] does not read is refused with a message that names it. *)
Theorem ParseMemo_swap_fields :
  (forall memo t a asset,
     Split memo ":" = [t; a] ->
     stringToTxType t = (txSwap, None) -> NewAsset a = Ok asset ->
     ParseMemo memo = (SwapMemo (mkMemoBase txSwap asset) NoAddress 0, None))
  /\ (forall memo t a d rest asset dest,
        Split memo ":" = t :: a :: d :: rest ->
        stringToTxType t = (txSwap, None) -> NewAsset a = Ok asset ->
        (d = "" /\ dest = NoAddress \/ d <> "" /\ NewAddress d = Ok dest) ->
        match rest with
        | [] => ParseMemo memo = (SwapMemo (mkMemoBase txSwap asset) dest 0, None)
        | l :: _ =>
            if (String.length l =? 0)%nat
            then ParseMemo memo = (SwapMemo (mkMemoBase txSwap asset) dest 0, None)
            else match ParseUint l with
                 | Ok n => ParseMemo memo = (SwapMemo (mkMemoBase txSwap asset) dest n, None)
                 | Err _ => ParseMemo memo
                            = (noMemo, Some ("swap price limit:" ++ l ++ " is invalid"))
                 end
        end)
  /\ (forall memo t a d rest asset e,
        Split memo ":" = t :: a :: d :: rest ->
        stringToTxType t = (txSwap, None) -> NewAsset a = Ok asset ->
        d <> "" -> NewAddress d = Err e ->
        ParseMemo memo = (noMemo, Some e)).
Proof.
  assert (Hlen : forall memo t a rest, Split memo ":" = t :: a :: rest ->
                   (String.length memo =? 0)%nat = false).
  { intros memo t a rest HS. eapply MemoProofs.Split_length_nonzero; [exact HS|].
    left. discriminate. }
  assert (Hd : forall d, d <> "" -> (0 <? String.length d)%nat = true).
  { intros [|c d] Hne; [congruence|reflexivity]. }
  split; [|split].
  - intros memo t a asset HS Htx Ha.
    unfold ParseMemo. rewrite (Hlen _ _ _ _ HS), HS. cbn [idx nth]. rewrite Htx.
    has_asset. rewrite Ha. reflexivity.
  - intros memo t a d rest asset dest HS Htx Ha Hdest.
    assert (Hdst : (if (0 <? String.length d)%nat then NewAddress d else Ok NoAddress)
                   = Ok dest).
    { destruct Hdest as [[-> ->]|[Hne Hn]]; [reflexivity|]. now rewrite (Hd d Hne). }
    assert (Hp : ParseMemo memo
                 = match (if (0 <? length rest)%nat && (0 <? String.length (idx rest 0))%nat
                          then match ParseUint (idx rest 0) with
                               | Err _ => Err ("swap price limit:" ++ idx rest 0 ++ " is invalid")
                               | Ok amount => Ok amount
                               end
                          else Ok 0%N) with
                   | Err e => (noMemo, Some e)
                   | Ok n => (SwapMemo (mkMemoBase txSwap asset) dest n, None)
                   end).
    { unfold ParseMemo. rewrite (Hlen _ _ _ _ HS), HS.
      change (idx (t :: a :: d :: rest) 0) with t.
      change (idx (t :: a :: d :: rest) 1) with a.
      change (idx (t :: a :: d :: rest) 2) with d.
      change (idx (t :: a :: d :: rest) 3) with (idx rest 0).
      change (length (t :: a :: d :: rest) <? 2)%nat with false.
      change (2 <? length (t :: a :: d :: rest))%nat with true.
      change (3 <? length (t :: a :: d :: rest))%nat with (0 <? length rest)%nat.
      rewrite Htx. has_asset. rewrite Ha. cbn [andb]. rewrite Hdst. reflexivity. }
    rewrite Hp. destruct rest as [|l rest]; [reflexivity|].
    destruct l as [|c l]; [reflexivity|].
    change (idx (String c l :: rest) 0) with (String c l).
    change ((0 <? length (String c l :: rest))%nat
            && (0 <? String.length (String c l))%nat) with true.
    cbn [String.length Nat.eqb].
    now destruct (ParseUint (String c l)).
  - intros memo t a d rest asset e HS Htx Ha Hne Hn.
    unfold ParseMemo. rewrite (Hlen _ _ _ _ HS), HS. cbn [idx nth]. rewrite Htx.
    change (idx (t :: a :: d :: rest) 2) with d.
    change (length (t :: a :: d :: rest) <? 2)%nat with false.
    change (2 <? length (t :: a :: d :: rest))%nat with true.
    has_asset. rewrite Ha. cbn [andb].
    rewrite (Hd d Hne), Hn. reflexivity.
Qed.

(** X4.  Print, then parse.  The memos of migrate and ragnarok are printed as
    "MIGRATE:<height>" and "RAGNAROK:<height>"; parsing the text gives the
    memo of that action with the same height, when [strconv.ParseInt] reads
    back the height that was printed. *)
Theorem ParseMemo_String_height b height :
  ParseInt (FormatInt height) = Ok height ->
  ParseMemo (Memo_String (MigrateMemo b height))
  = (MigrateMemo (mkMemoBase txMigrate EmptyAsset) height, None)
  /\ ParseMemo (Memo_String (RagnarokMemo b height))
     = (RagnarokMemo (mkMemoBase txRagnarok EmptyAsset) height, None).
Proof.
  intros Hp. split.
  - destruct (Split_word_field "MIGRATE" (FormatInt height)) as [HS Hlen];
      [repeat constructor; discriminate|apply FormatInt_no_colon|].
    unfold ParseMemo, Memo_String.
    change ("MIGRATE:" ++ FormatInt height) with ("MIGRATE" ++ String ":" (FormatInt height)).
    rewrite Hlen, HS. cbn [idx nth].
    rewrite (eq_refl : stringToTxType "MIGRATE" = (txMigrate, None)).
    has_asset. cbn [length Nat.ltb Nat.leb]. rewrite Hp. reflexivity.
  - destruct (Split_word_field "RAGNAROK" (FormatInt height)) as [HS Hlen];
      [repeat constructor; discriminate|apply FormatInt_no_colon|].
    unfold ParseMemo, Memo_String.
    change ("RAGNAROK:" ++ FormatInt height) with ("RAGNAROK" ++ String ":" (FormatInt height)).
    rewrite Hlen, HS. cbn [idx nth].
    rewrite (eq_refl : stringToTxType "RAGNAROK" = (txRagnarok, None)).
    has_asset. cbn [length Nat.ltb Nat.leb]. rewrite Hp. reflexivity.
Qed.

(** X5.  The memos of outbound and refund are printed as "OUTBOUND:<id>" and
    "REFUND:<id>"; for an id without a colon, parsing the text gives the
    memo built from what [common.NewTxID] makes of the id, together with
    the error of [common.NewTxID], so that a valid id comes back in the memo
    it was printed from. *)
Theorem ParseMemo_String_txid b txid :
  Forall (fun c => c <> ":"%char) (list_ascii_of_string txid) ->
  ParseMemo (Memo_String (OutboundMemo b txid))
  = (NewOutboundMemo (fst (NewTxID txid)), snd (NewTxID txid))
  /\ ParseMemo (Memo_String (RefundMemo b txid))
     = (NewRefundMemo (fst (NewTxID txid)), snd (NewTxID txid))
  /\ (NewTxID txid = (txid, None) ->
      ParseMemo (Memo_String (NewOutboundMemo txid)) = (NewOutboundMemo txid, None)
      /\ ParseMemo (Memo_String (NewRefundMemo txid)) = (NewRefundMemo txid, None)).
Proof.
  intros Hc.
  assert (Ho : ParseMemo (Memo_String (OutboundMemo b txid))
               = (NewOutboundMemo (fst (NewTxID txid)), snd (NewTxID txid))).
  { destruct (Split_word_field "OUTBOUND" txid) as [HS Hlen];
      [repeat constructor; discriminate|exact Hc|].
    unfold ParseMemo, Memo_String.
    change ("OUTBOUND:" ++ txid) with ("OUTBOUND" ++ String ":" txid).
    rewrite Hlen, HS. cbn [idx nth].
    rewrite (eq_refl : stringToTxType "OUTBOUND" = (txOutbound, None)).
    has_asset. cbn [length Nat.ltb Nat.leb]. now destruct (NewTxID txid). }
  assert (Hr : ParseMemo (Memo_String (RefundMemo b txid))
               = (NewRefundMemo (fst (NewTxID txid)), snd (NewTxID txid))).
  { destruct (Split_word_field "REFUND" txid) as [HS Hlen];
      [repeat constructor; discriminate|exact Hc|].
    unfold ParseMemo, Memo_String.
    change ("REFUND:" ++ txid) with ("REFUND" ++ String ":" txid).
    rewrite Hlen, HS. cbn [idx nth].
    rewrite (eq_refl : stringToTxType "REFUND" = (txRefund, None)).
    has_asset. cbn [length Nat.ltb Nat.leb]. now destruct (NewTxID txid). }
  split; [exact Ho|]. split; [exact Hr|].
  intros Hn. rewrite Hn in Ho, Hr. cbn [fst snd] in Ho, Hr.
  split; [exact Ho|exact Hr].
Qed.

End Parse.

End MemoMore.

(** ** Keygens in the store: writing, reading back, other heights *)

Module KeygenMore.

Lemma to_uint_nonnil n : N.to_uint n <> Decimal.Nil.
Proof. destruct n; [discriminate|apply DecimalPos.Unsigned.to_uint_nonnil]. Qed.

Lemma FormatUint_inj n m : FormatUint n = FormatUint m -> n = m.
Proof.
  unfold FormatUint. intros H.
  apply DecimalN.Unsigned.to_uint_inj.
  assert (Hu : NilZero.uint_of_string (NilZero.string_of_uint (N.to_uint n))
               = NilZero.uint_of_string (NilZero.string_of_uint (N.to_uint m)))
    by now rewrite H.
  rewrite !NilZero.usu in Hu by apply to_uint_nonnil.
  now injection Hu.
Qed.

Section Keygen.
Context `{Cdc : Codec}.

(** X6.  Writing the keygens of a height changes what is read at that height
    only: at every other height [GetKeygens] answers as before, and the
    vaults, node accounts and queued items are as before.  The keys of two
    heights are taken to differ when their decimal texts differ. *)
Theorem SetKeygens_other_heights (st st' : KState) (keygens : Keygens) :
  (forall a b, GetKey prefixKeygen a = GetKey prefixKeygen b -> a = b) ->
  SetKeygens st keygens = Ok st' ->
  (forall height, height <> Keygens_Height keygens ->
                  GetKeygens st' height = GetKeygens st height)
  /\ ks_vaults st' = ks_vaults st /\ ks_nodes st' = ks_nodes st
  /\ ks_txout st' = ks_txout st.
Proof.
  intros Hinj. unfold SetKeygens.
  destruct (MarshalBinaryBare keygens) as [buf|]; [|discriminate].
  intros [= <-]. split; [|auto].
  intros height Hne. unfold GetKeygens. cbn [ks_store set_store].
  rewrite lookup_insert_ne; [reflexivity|].
  unfold keygenKey. intros Hk. apply Hinj, FormatUint_inj in Hk. congruence.
Qed.

(** X7.  Writing, then reading: what was written last at a height is what is
    read there, so that a second keygen triggered at the same height
    replaces the group of the first instead of joining it. *)
Theorem TriggerKeygen_read_back (height : Z) (st st1 st2 : KState) (nas1 nas2 : list NodeAccount) :
  (forall k buf, MarshalBinaryBare k = Ok buf -> UnmarshalBinaryBare buf = Ok k) ->
  VaultMgr.TriggerKeygen height st nas1 = Ok st1 ->
  VaultMgr.TriggerKeygen height st1 nas2 = Ok st2 ->
  GetKeygens st1 (Z.to_N height)
  = (mkKeygens (Z.to_N height) [map NodeAccount_PubKey nas1], None)
  /\ GetKeygens st2 (Z.to_N height)
     = (mkKeygens (Z.to_N height) [map NodeAccount_PubKey nas2], None)
  /\ ks_vaults st2 = ks_vaults st /\ ks_nodes st2 = ks_nodes st.
Proof.
  intros Hrt H1 H2. unfold VaultMgr.TriggerKeygen in *. cbn [NewKeygens Keygens_Height] in *.
  split; [|split].
  - apply (KeygenProofs.GetKeygens_SetKeygens st st1 _ (Hrt _) H1).
  - apply (KeygenProofs.GetKeygens_SetKeygens st1 st2 _ (Hrt _) H2).
  - unfold SetKeygens in *.
    destruct (MarshalBinaryBare _) in H1; [|discriminate].
    destruct (MarshalBinaryBare _) in H2; [|discriminate].
    injection H1 as <-. injection H2 as <-. auto.
Qed.

End Keygen.

End KeygenMore.

(** ** Vault manager: what [EndBlock] leaves alone, errors and bounds *)

Module VaultMgrMore.
Import VaultMgr.
Local Open Scope list_scope.

Lemma scheduleAmount_le diff interval balance :
  (0 <= diff)%Z -> (0 < interval)%Z ->
  (scheduleAmount diff interval balance <= balance)%N
  /\ ((4 * interval <= diff)%Z -> scheduleAmount diff interval balance = balance).
Proof.
  intros Hd Hi. unfold scheduleAmount.
  assert (Hq : (0 <= diff / interval)%Z) by (apply Z.div_pos; lia).
  split.
  - destruct (Z.ltb_spec (1 + diff / interval) 5) as [Hlt|_]; [|lia].
    apply N.Div0.div_le_upper_bound. nia.
  - intros H4. assert (4 <= diff / interval)%Z by (apply Z.div_le_lower_bound; lia).
    destruct (Z.ltb_spec (1 + diff / interval) 5); [lia|reflexivity].
Qed.

Lemma pickReceiver_fold_first asset (l : list Vault) : forall (s1 s2 : list Vault) (a : Vault),
  (forall w, w ∈ s1 ->
     (Coin_Amount (Vault_GetCoin a asset) < Coin_Amount (Vault_GetCoin w asset))%N) ->
  (forall w, w ∈ s2 ->
     (Coin_Amount (Vault_GetCoin a asset) <= Coin_Amount (Vault_GetCoin w asset))%N) ->
  exists l1 b l2,
    fold_left
      (fun '(cn, pk) asgard =>
         if (Coin_Amount (Vault_GetCoin asgard asset) <? Coin_Amount cn)%N
         then (Vault_GetCoin asgard asset, Vault_PubKey asgard)
         else (cn, pk))
      l (Vault_GetCoin a asset, Vault_PubKey a)
    = (Vault_GetCoin b asset, Vault_PubKey b)
    /\ s1 ++ a :: s2 ++ l = l1 ++ b :: l2
    /\ (forall w, w ∈ l1 ->
          (Coin_Amount (Vault_GetCoin b asset) < Coin_Amount (Vault_GetCoin w asset))%N)
    /\ (forall w, w ∈ l2 ->
          (Coin_Amount (Vault_GetCoin b asset) <= Coin_Amount (Vault_GetCoin w asset))%N).
Proof.
  induction l as [|x l IH]; intros s1 s2 a H1 H2.
  - exists s1, a, s2. rewrite app_nil_r. auto.
  - cbn [fold_left].
    destruct (N.ltb_spec (Coin_Amount (Vault_GetCoin x asset))
                         (Coin_Amount (Vault_GetCoin a asset))) as [Hlt|Hge].
    + destruct (IH (s1 ++ a :: s2) [] x) as (l1 & b & l2 & Hf & Hl & Hb1 & Hb2).
      * intros w Hw. apply elem_of_app in Hw as [Hw|Hw]; [specialize (H1 w Hw); lia|].
        apply elem_of_cons in Hw as [->|Hw]; [exact Hlt|]. specialize (H2 w Hw). lia.
      * intros w Hw. now apply elem_of_nil in Hw.
      * exists l1, b, l2. split; [exact Hf|]. split; [|auto].
        rewrite <- Hl. cbn [app]. now rewrite <- !app_assoc.
    + destruct (IH s1 (s2 ++ [x]) a) as (l1 & b & l2 & Hf & Hl & Hb1 & Hb2).
      * exact H1.
      * intros w Hw. apply elem_of_app in Hw as [Hw|Hw]; [now apply H2|].
        apply list_elem_of_singleton in Hw as ->. exact Hge.
      * exists l1, b, l2. split; [exact Hf|]. split; [|auto].
        rewrite <- Hl. now rewrite <- !app_assoc.
Qed.

(** X8.  The receiver of a coin is the first of the active asgard vaults, in the
    order of the keeper, that holds the least of the asset: the vaults
    before it hold strictly more, the vaults after it at least as much. *)
Theorem pickReceiver_first_least a0 rest asset :
  exists l1 b l2,
    pickReceiver a0 (a0 :: rest) asset = (Vault_GetCoin b asset, Vault_PubKey b)
    /\ a0 :: rest = l1 ++ b :: l2
    /\ (forall w, w ∈ l1 ->
          (Coin_Amount (Vault_GetCoin b asset) < Coin_Amount (Vault_GetCoin w asset))%N)
    /\ (forall w, w ∈ l2 ->
          (Coin_Amount (Vault_GetCoin b asset) <= Coin_Amount (Vault_GetCoin w asset))%N).
Proof.
  unfold pickReceiver. cbn [fold_left]. rewrite N.ltb_irrefl.
  destruct (pickReceiver_fold_first asset rest [] [] a0) as (l1 & b & l2 & Hf & Hl & H1 & H2).
  - intros w Hw. now apply elem_of_nil in Hw.
  - intros w Hw. now apply elem_of_nil in Hw.
  - exists l1, b, l2. auto.
Qed.

Section EndBlock.
Context `{Ext : Externals} `{Hlp : Helpers}.

(** The loops of [EndBlock] write to the queue of outbound items and delete
    vaults; they never touch the node accounts or the store of keygens. *)
Lemma migrateCoins_frame height interval a0 active vault coins : forall (st st' : KState),
  forM (migrateCoin height interval a0 active vault) coins st = Ok st' ->
  ks_vaults st' = ks_vaults st /\ ks_nodes st' = ks_nodes st /\ ks_store st' = ks_store st.
Proof.
  induction coins as [|c coins IH]; intros st st'; cbn [forM].
  - intros [= <-]. auto.
  - unfold migrateCoin at 1.
    destruct (pickReceiver a0 active (Coin_Asset c)) as [cn pk].
    destruct (GetAddress pk _); cbn [rbind]; [|discriminate].
    destruct (migrateAmount _ _); cbn [rbind]; [|discriminate].
    unfold TryAddTxOutItem. destruct (TryAddTxOutItem_err _); cbn [rbind]; [discriminate|].
    intros Hf. apply IH in Hf. exact Hf.
Qed.

Lemma migrateVaults_frame height interval a0 active retiring : forall (st st' : KState),
  forM (migrateVault height interval a0 active) retiring st = Ok st' ->
  (forall v, v ∈ ks_vaults st' <->
             v ∈ ks_vaults st
             /\ forall r, r ∈ retiring -> Vault_HasFunds r = false ->
                          Vault_PubKey v <> Vault_PubKey r)
  /\ ks_nodes st' = ks_nodes st /\ ks_store st' = ks_store st.
Proof.
  induction retiring as [|r retiring IH]; intros st st'; cbn [forM].
  - intros [= <-]. split; [|auto]. intros v. split; [intros Hv; split; [exact Hv|]|tauto].
    intros r Hr. now apply elem_of_nil in Hr.
  - unfold migrateVault at 1.
    destruct (Vault_HasFunds r) eqn:Hf; cbn [negb].
    + assert (Hstep : forall st1, ks_vaults st1 = ks_vaults st -> ks_nodes st1 = ks_nodes st ->
                        ks_store st1 = ks_store st ->
                        forM (migrateVault height interval a0 active) retiring st1 = Ok st' ->
                        (forall v, v ∈ ks_vaults st' <->
                                   v ∈ ks_vaults st
                                   /\ forall r0, r0 ∈ r :: retiring -> Vault_HasFunds r0 = false ->
                                                 Vault_PubKey v <> Vault_PubKey r0)
                        /\ ks_nodes st' = ks_nodes st /\ ks_store st' = ks_store st).
      { intros st1 Hv Hn Hs Hrun. destruct (IH _ _ Hrun) as (Hv' & Hn' & Hs').
        split; [|split; congruence]. intros v. rewrite Hv', Hv. split.
        - intros [Hin Hne]. split; [exact Hin|]. intros r0 Hr0 Hf0.
          apply elem_of_cons in Hr0 as [->|Hr0]; [congruence|]. now apply Hne.
        - intros [Hin Hne]. split; [exact Hin|]. intros r0 Hr0 Hf0.
          apply Hne; [now apply list_elem_of_further|exact Hf0]. }
      destruct (interval =? 0)%Z; [discriminate|].
      destruct (Z.rem _ _ =? 0)%Z.
      * destruct (forM (migrateCoin _ _ _ _ _) _ st) as [st1|] eqn:Hc; [|discriminate].
        cbn [rbind]. apply migrateCoins_frame in Hc as (Hv & Hn & Hs).
        now apply Hstep.
      * cbn [rbind]. now apply Hstep.
    + cbn [rbind]. intros Hrun. destruct (IH _ _ Hrun) as (Hv' & Hn' & Hs').
      split; [|auto]. intros v. rewrite Hv'.
      unfold DeleteVault. cbn [ks_vaults set_vaults]. rewrite list_elem_of_filter. split.
      * intros [[Hne Hin] Hrest]. split; [exact Hin|]. intros r0 Hr0 Hf0.
        apply elem_of_cons in Hr0 as [->|Hr0]; [exact Hne|]. now apply Hrest.
      * intros [Hin Hne]. split; [split; [|exact Hin]|].
        -- apply Hne; [apply list_elem_of_here|exact Hf].
        -- intros r0 Hr0 Hf0. apply Hne; [now apply list_elem_of_further|exact Hf0].
Qed.

Lemma migrateVaults_off_tick height interval a0 active retiring : forall (st st' : KState),
  (forall r, r ∈ retiring -> Vault_HasFunds r = true ->
             Z.rem (height - Vault_StatusSince r) interval <> 0%Z) ->
  forM (migrateVault height interval a0 active) retiring st = Ok st' ->
  ks_txout st' = ks_txout st.
Proof.
  induction retiring as [|r retiring IH]; intros st st' Hoff; cbn [forM].
  - now intros [= <-].
  - assert (Hoff' : forall r0, r0 ∈ retiring -> Vault_HasFunds r0 = true ->
                      Z.rem (height - Vault_StatusSince r0) interval <> 0%Z).
    { intros r0 Hr0. apply Hoff. now apply list_elem_of_further. }
    unfold migrateVault at 1.
    destruct (Vault_HasFunds r) eqn:Hf; cbn [negb].
    + destruct (interval =? 0)%Z; [discriminate|].
      destruct (Z.eqb_spec (Z.rem (height - Vault_StatusSince r) interval) 0) as [Hz|_].
      { exfalso. apply (Hoff r); [apply list_elem_of_here|exact Hf|exact Hz]. }
      cbn [rbind]. now apply IH.
    + cbn [rbind]. intros Hrun. now rewrite (IH _ _ Hoff' Hrun).
Qed.

(** X9.  A block in which no migration is due: no retiring vault with funds
    has an age that is a multiple of the interval, so that nothing is
    handed to the outbound store.  When [EndBlock] succeeds in such a block,
    away from genesis, the vaults it leaves are those it found, less the
    vaults stored under the pub key of a retiring asgard vault that has no
    funds left: an exhausted retiring vault is deleted, every other vault is
    kept as it was, and the node accounts, the keygens and the outbound
    items are not touched. *)
Theorem EndBlock_deletes_exhausted height version interval (st st' : KState) :
  height <> genesisBlockHeight ->
  GetAsgardVaultsByStatus st ActiveVault <> [] ->
  (forall r, r ∈ GetAsgardVaultsByStatus st RetiringVault ->
             Vault_HasFunds r = true ->
             Z.rem (height - Vault_StatusSince r) interval <> 0%Z) ->
  EndBlock height version interval st = Ok st' ->
  (forall v, v ∈ ks_vaults st' <->
             v ∈ ks_vaults st
             /\ forall r, r ∈ GetAsgardVaultsByStatus st RetiringVault ->
                          Vault_HasFunds r = false -> Vault_PubKey v <> Vault_PubKey r)
  /\ (forall r, r ∈ GetAsgardVaultsByStatus st RetiringVault ->
                Vault_HasFunds r = false -> r ∉ ks_vaults st')
  /\ ks_nodes st' = ks_nodes st /\ ks_store st' = ks_store st
  /\ ks_txout st' = ks_txout st.
Proof.
  intros Hg Hact Hoff. unfold EndBlock.
  destruct (Z.eqb_spec height genesisBlockHeight); [congruence|].
  destruct (GetAsgardVaultsByStatus st ActiveVault) as [|a0 rest] eqn:Ha; [congruence|].
  destruct (GetTxOutStore version); cbn [negb]; [|discriminate].
  intros Hrun. pose proof (migrateVaults_off_tick _ _ _ _ _ _ _ Hoff Hrun) as Hq.
  apply migrateVaults_frame in Hrun as (Hv & Hn & Hs).
  split; [exact Hv|]. split; [|auto].
  intros r Hr Hf Hin. apply Hv in Hin as [_ Hne]. now apply (Hne r Hr Hf).
Qed.

(** X10.  A migration never asks a retiring vault for more than the vault holds
    of the coin: every item queued is of the asset of its coin, for an
    amount of at most the balance, and for the whole balance once the vault
    has been retiring for four intervals. *)
Theorem EndBlock_amount_bounded height interval a0 rest version (st : KState) :
  (0 < interval)%Z -> (height < 2 ^ 63 - 1)%Z ->
  (forall toi, TryAddTxOutItem_err toi = None) ->
  (forall a chain, a ∈ a0 :: rest -> exists addr, GetAddress (Vault_PubKey a) chain = Ok addr) ->
  height <> genesisBlockHeight ->
  GetAsgardVaultsByStatus st ActiveVault = a0 :: rest ->
  GetTxOutStore version = true ->
  Forall (wellFormed height) (GetAsgardVaultsByStatus st RetiringVault) ->
  exists st' items,
    EndBlock height version interval st = Ok st'
    /\ ks_txout st' = ks_txout st ++ items
    /\ Forall2 (fun '(vault, coin) toi =>
                  Coin_Asset (TxOutItem_Coin toi) = Coin_Asset coin
                  /\ (Coin_Amount (TxOutItem_Coin toi) <= Coin_Amount coin)%N
                  /\ ((4 * interval <= height - Vault_StatusSince vault)%Z ->
                      Coin_Amount (TxOutItem_Coin toi) = Coin_Amount coin))
               (dueCoins height interval (GetAsgardVaultsByStatus st RetiringVault))
               items.
Proof.
  intros Hi Hh Hacc Haddr Hg Hact Hv Hwf.
  destruct (MigrationProofs.EndBlock_items height interval a0 rest Hi Hh Hacc Haddr
              version st Hg Hact Hv Hwf) as (st' & items & He & Ht & Hr).
  exists st', items. split; [exact He|]. split; [exact Ht|].
  assert (Hdue : Forall (fun vc => wellFormed height (fst vc))
                        (dueCoins height interval (GetAsgardVaultsByStatus st RetiringVault))).
  { apply Forall_forall. intros [v c] Hin.
    apply MigrationProofs.elem_of_dueCoins in Hin as (Hin & _).
    rewrite Forall_forall in Hwf. now apply Hwf. }
  revert Hdue Hr.
  generalize (dueCoins height interval (GetAsgardVaultsByStatus st RetiringVault)) as due0.
  intros due0 Hdue Hr. clear Ht He.
  induction Hr as [|[v c] toi due items' [_ Htoi] _ IH].
  - constructor.
  - apply Forall_cons in Hdue as [[Hs _] Hdue]. cbn [fst] in Hs.
    constructor; [|now apply IH].
    rewrite Htoi. cbn [TxOutItem_Coin Coin_Asset Coin_Amount].
    destruct (scheduleAmount_le (height - Vault_StatusSince v) interval (Coin_Amount c))
      as [Hle Hfull]; [lia|exact Hi|].
    auto.
Qed.

(** X11.  [EndBlock] queues nothing at the genesis height, nothing when there is
    no active asgard vault, and nothing when no retiring vault with funds
    has an age that is a multiple of the interval. *)
Theorem EndBlock_queues_nothing height version interval (st st' : KState) :
  EndBlock height version interval st = Ok st' ->
  height = genesisBlockHeight
  \/ GetAsgardVaultsByStatus st ActiveVault = []
  \/ (forall r, r ∈ GetAsgardVaultsByStatus st RetiringVault ->
                Vault_HasFunds r = true ->
                Z.rem (height - Vault_StatusSince r) interval <> 0%Z) ->
  ks_txout st' = ks_txout st.
Proof.
  unfold EndBlock. intros Hrun Hcase.
  destruct (Z.eqb_spec height genesisBlockHeight) as [Hg|Hg].
  { revert Hrun. unfold processGenesisSetup, TriggerKeygen, SetKeygens.
    destruct (negb _); [now intros [= <-]|].
    destruct (0 <? _)%nat; [now intros [= <-]|].
    destruct (ListActiveNodeAccounts st) as [|na [|na2 nas]]; [discriminate|now intros [= <-]|].
    destruct (MarshalBinaryBare _); [now intros [= <-]|discriminate]. }
  destruct (GetAsgardVaultsByStatus st ActiveVault) as [|a0 rest] eqn:Ha;
    [now injection Hrun as <-|].
  destruct Hcase as [?|[?|Hoff]]; [congruence|congruence|].
  destruct (GetTxOutStore version); cbn [negb] in Hrun; [|discriminate].
  eapply migrateVaults_off_tick; [exact Hoff|exact Hrun].
Qed.

(** X12.  An interval of zero: with an active asgard vault and a retiring vault
    that has funds, the test of the age against the interval divides by
    zero, and [EndBlock] does not return normally. *)
Theorem EndBlock_zero_interval height version (st : KState) r :
  height <> genesisBlockHeight ->
  GetAsgardVaultsByStatus st ActiveVault <> [] ->
  GetTxOutStore version = true ->
  r ∈ GetAsgardVaultsByStatus st RetiringVault -> Vault_HasFunds r = true ->
  EndBlock height version 0 st = Err "panic: integer divide by zero".
Proof.
  intros Hg Hact Hv. unfold EndBlock.
  destruct (Z.eqb_spec height genesisBlockHeight); [congruence|].
  destruct (GetAsgardVaultsByStatus st ActiveVault) as [|a0 rest]; [congruence|].
  rewrite Hv. cbn [negb]. generalize (a0 :: rest) as active. intros active.
  generalize (GetAsgardVaultsByStatus st RetiringVault) as retiring. intros retiring.
  revert st. induction retiring as [|x retiring IH]; intros st Hin Hf.
  - now apply elem_of_nil in Hin.
  - cbn [forM]. unfold migrateVault at 1.
    destruct (Vault_HasFunds x) eqn:Hx; cbn [negb]; [reflexivity|].
    cbn [rbind]. apply elem_of_cons in Hin as [->|Hin]; [congruence|].
    now apply IH.
Qed.

(** X13.  The errors of the genesis setup: with no asgard vault and no active
    node account it cannot proceed, and with several active node accounts
    an error of the keygens codec is passed on: the text is what [dbError]
    makes of "fail to marshal keygens" and the error of the codec, after
    "fail to trigger a keygen: ". *)
Theorem processGenesisSetup_errors (st : KState) :
  GetAsgardVaults st = [] ->
  (ListActiveNodeAccounts st = [] ->
   processGenesisSetup genesisBlockHeight st = Err "no active accounts,cannot proceed")
  /\ (forall err, (2 <= length (ListActiveNodeAccounts st))%nat ->
        MarshalBinaryBare
          (mkKeygens (Z.to_N genesisBlockHeight)
                     [map NodeAccount_PubKey (ListActiveNodeAccounts st)]) = Err err ->
        processGenesisSetup genesisBlockHeight st
        = Err ("fail to trigger a keygen: "
               ++ dbError "fail to marshal keygens" err)%string).
Proof.
  intros Hv. unfold processGenesisSetup. rewrite Z.eqb_refl, Hv. cbn [negb length Nat.ltb Nat.leb].
  split.
  - intros ->. reflexivity.
  - intros err Hlen. destruct (ListActiveNodeAccounts st) as [|na [|na2 nas]]; cbn in Hlen; try lia.
    unfold TriggerKeygen, SetKeygens. cbn [NewKeygens Keygens_Height].
    intros ->. reflexivity.
Qed.

End EndBlock.
End VaultMgrMore.

(** ** Vault manager: rotation *)

Module RotationProofs.
Import VaultMgr Rotation.
Local Open Scope list_scope.

Lemma conflicts_shared vault asgard :
  conflicts vault asgard = true
  <-> exists m, m ∈ Vault_Membership asgard /\ m ∈ Vault_Membership vault.
Proof.
  unfold conflicts, Vault_Contains. rewrite existsb_exists. split.
  - intros (m & Hm & He). apply existsb_exists in He as (m' & Hm' & He).
    apply String.eqb_eq in He as ->. exists m'. now rewrite !list_elem_of_In.
  - intros (m & Hm & Hv). exists m. rewrite <- list_elem_of_In. split; [exact Hm|].
    apply existsb_exists. exists m. rewrite <- list_elem_of_In. split; [exact Hv|].
    apply String.eqb_refl.
Qed.

Section Rotation.
Context `{Ext : Externals} `{Hlp : Helpers} `{Nops : NodeOps}.

Lemma elem_of_SetVault (st : KState) a v :
  v ∈ ks_vaults (SetVault st a)
  <-> v = a \/ (v ∈ ks_vaults st /\ Vault_PubKey v <> Vault_PubKey a).
Proof.
  unfold SetVault. cbn [ks_vaults set_vaults].
  rewrite elem_of_app, list_elem_of_filter, list_elem_of_singleton. tauto.
Qed.

(** The loop over the active asgards: where a vault of the result comes
    from. *)
Lemma retire_elem_of height vault l : forall (st : KState) v,
  v ∈ ks_vaults (fold_left (retireConflicting height vault) l st) ->
  (v ∈ ks_vaults st
   /\ forall a, a ∈ l -> conflicts vault a = true -> Vault_PubKey v <> Vault_PubKey a)
  \/ exists a, a ∈ l /\ conflicts vault a = true
               /\ v = Vault_UpdateStatus a RetiringVault height.
Proof.
  induction l as [|x l IH]; intros st v; cbn [fold_left].
  - intros Hv. left. split; [exact Hv|]. intros a Ha. now apply elem_of_nil in Ha.
  - intros Hv. apply IH in Hv as [[Hv Hne]|(a & Ha & Hc & ->)].
    + unfold retireConflicting in Hv. destruct (conflicts vault x) eqn:Hx.
      * apply elem_of_SetVault in Hv as [->|[Hv Hpk]].
        -- right. exists x. split; [apply list_elem_of_here|auto].
        -- left. split; [exact Hv|]. intros a Ha Hc.
           apply elem_of_cons in Ha as [->|Ha]; [exact Hpk|now apply Hne].
      * left. split; [exact Hv|]. intros a Ha Hc.
        apply elem_of_cons in Ha as [->|Ha]; [congruence|now apply Hne].
    + right. exists a. split; [now apply list_elem_of_further|auto].
Qed.

(** A vault stays through the loop when no active asgard shares its pub
    key. *)
Lemma retire_keeps height vault l : forall (st : KState) v,
  v ∈ ks_vaults st ->
  (forall a, a ∈ l -> conflicts vault a = true -> Vault_PubKey v <> Vault_PubKey a) ->
  v ∈ ks_vaults (fold_left (retireConflicting height vault) l st).
Proof.
  induction l as [|x l IH]; intros st v Hv Hne; cbn [fold_left]; [exact Hv|].
  apply IH.
  - unfold retireConflicting. destruct (conflicts vault x) eqn:Hx; [|exact Hv].
    apply elem_of_SetVault. right. split; [exact Hv|].
    change (Vault_PubKey (Vault_UpdateStatus x RetiringVault height)) with (Vault_PubKey x).
    apply Hne; [apply list_elem_of_here|exact Hx].
  - intros a Ha. apply Hne. now apply list_elem_of_further.
Qed.

Lemma retire_retired height vault l : forall (st : KState) a,
  NoDup (map Vault_PubKey l) ->
  a ∈ l -> conflicts vault a = true ->
  Vault_UpdateStatus a RetiringVault height
  ∈ ks_vaults (fold_left (retireConflicting height vault) l st).
Proof.
  induction l as [|x l IH]; intros st a Hnd Ha Hc; [now apply elem_of_nil in Ha|].
  cbn [map] in Hnd. apply NoDup_cons in Hnd as [Hx Hnd]. cbn [fold_left].
  apply elem_of_cons in Ha as [->|Ha]; [|now apply IH].
  apply retire_keeps.
  - unfold retireConflicting. rewrite Hc. apply elem_of_SetVault. now left.
  - intros b Hb _. cbn [Vault_UpdateStatus Vault_PubKey]. intros Heq.
    apply Hx. rewrite Heq. apply list_elem_of_fmap. now exists b.
Qed.

Lemma retire_frame height vault l : forall (st : KState),
  ks_nodes (fold_left (retireConflicting height vault) l st) = ks_nodes st.
Proof.
  induction l as [|x l IH]; intros st; cbn [fold_left]; [reflexivity|].
  rewrite IH. unfold retireConflicting. now destruct (conflicts vault x).
Qed.

(** A node account that can be read can still be read after another one is
    written. *)
Lemma GetNodeAccountByPubKey_after_Set (st : KState) na pk :
  is_Ok (GetNodeAccountByPubKey st pk) = true ->
  is_Ok (GetNodeAccountByPubKey (SetNodeAccount st na) pk) = true.
Proof.
  unfold GetNodeAccountByPubKey, SetNodeAccount. cbn [ks_nodes set_nodes].
  destruct (List.find _ (ks_nodes st)) as [x|] eqn:Hf; [intros _|discriminate].
  apply find_some in Hf as [Hin Hx]. apply bool_decide_eq_true in Hx.
  assert (Hex : exists y, In y (if existsb (fun x => bool_decide (NodeAccount_PubKey x = NodeAccount_PubKey na)) (ks_nodes st)
                          then map (fun x => if bool_decide (NodeAccount_PubKey x = NodeAccount_PubKey na) then na else x) (ks_nodes st)
                          else ks_nodes st ++ [na])
                      /\ NodeAccount_PubKey y = pk).
  { destruct (existsb _ (ks_nodes st)).
    - destruct (bool_decide (NodeAccount_PubKey x = NodeAccount_PubKey na)) eqn:Hb.
      + exists na. split.
        * apply in_map_iff. exists x. now rewrite Hb.
        * apply bool_decide_eq_true in Hb. congruence.
      + exists x. split; [|exact Hx]. apply in_map_iff. exists x. now rewrite Hb.
    - exists x. split; [|exact Hx]. apply in_or_app. now left. }
  destruct Hex as (y & Hy & Hpk).
  destruct (List.find _ _) as [z|] eqn:Hz; [reflexivity|].
  exfalso. eapply find_none in Hz; [|exact Hy].
  apply bool_decide_eq_false in Hz. congruence.
Qed.

Lemma addSigners_run vault members : forall (st : KState),
  Forall (fun m => is_Ok (GetNodeAccountByPubKey st m) = true) members ->
  exists st', forM (addSigner vault) members st = Ok st'
              /\ ks_vaults st' = ks_vaults st.
Proof.
  induction members as [|m members IH]; intros st Hall; cbn [forM].
  - now exists st.
  - apply Forall_cons in Hall as [Hm Hall]. unfold addSigner at 1.
    destruct (GetNodeAccountByPubKey st m) as [na|] eqn:Hg; [|discriminate].
    cbn [rbind].
    destruct (IH (SetNodeAccount st (TryAddSignerPubKey na (Vault_PubKey vault))))
      as (st' & Hrun & Hv).
    + eapply Forall_impl; [exact Hall|]. intros m' Hm'.
      now apply GetNodeAccountByPubKey_after_Set.
    + exists st'. split; [exact Hrun|exact Hv].
Qed.

Lemma RotateVault_effect (height : Z) (vault : Vault) (st : KState) :
  Forall (fun m => is_Ok (GetNodeAccountByPubKey st m) = true) (Vault_Membership vault) ->
  exists st',
    RotateVault height vault st = Ok st'
    /\ vault ∈ ks_vaults st'
    /\ (forall v, v ∈ GetAsgardVaultsByStatus st' ActiveVault ->
          v = vault
          \/ (v ∈ GetAsgardVaultsByStatus st ActiveVault
              /\ forall m, m ∈ Vault_Membership v -> m ∉ Vault_Membership vault))
    /\ (NoDup (map Vault_PubKey (ks_vaults st)) ->
        forall a m, a ∈ GetAsgardVaultsByStatus st ActiveVault ->
          m ∈ Vault_Membership a -> m ∈ Vault_Membership vault ->
          Vault_PubKey a <> Vault_PubKey vault ->
          Vault_UpdateStatus a RetiringVault height ∈ GetAsgardVaultsByStatus st' RetiringVault).
Proof.
  intros Hall. unfold RotateVault.
  set (active := GetAsgardVaultsByStatus st ActiveVault).
  set (st1 := fold_left (retireConflicting height vault) active st).
  destruct (addSigners_run vault (Vault_Membership vault) st1) as (st2 & Hrun & Hv2).
  { eapply Forall_impl; [exact Hall|]. intros m. unfold st1.
    unfold GetNodeAccountByPubKey. now rewrite retire_frame. }
  exists (SetVault st2 vault). rewrite Hrun. cbn [rbind].
  split; [reflexivity|]. split; [apply elem_of_SetVault; now left|]. split.
  - intros v Hv. unfold GetAsgardVaultsByStatus, GetAsgardVaults in Hv.
    apply list_elem_of_filter in Hv as [Hst Hv].
    apply list_elem_of_filter in Hv as [Hty Hv].
    apply elem_of_SetVault in Hv as [->|[Hv Hpk]]; [now left|]. right.
    rewrite Hv2 in Hv. apply retire_elem_of in Hv as [[Hv Hne]|(a & Ha & Hc & ->)].
    + assert (Hact : v ∈ active).
      { unfold active, GetAsgardVaultsByStatus, GetAsgardVaults.
        apply list_elem_of_filter. split; [exact Hst|].
        apply list_elem_of_filter. now split. }
      split; [exact Hact|]. intros m Hm Hin.
      assert (Hc : conflicts vault v = true) by (apply conflicts_shared; eauto).
      now apply (Hne v Hact Hc).
    + discriminate Hst.
  - intros Hnd a m Ha Hm Hin Hpk.
    assert (Hc : conflicts vault a = true) by (apply conflicts_shared; eauto).
    assert (Hnd' : NoDup (map Vault_PubKey active)).
    { unfold active, GetAsgardVaultsByStatus, GetAsgardVaults.
      assert (Hsub : map Vault_PubKey
                       (filter (fun v => Vault_Status v = ActiveVault)
                               (filter (fun v => Vault_Type v = AsgardVault) (ks_vaults st)))
                     `sublist_of` map Vault_PubKey (ks_vaults st)).
      { apply (fmap_sublist Vault_PubKey). etrans; apply sublist_filter. }
      exact (sublist_NoDup _ _ Hnd Hsub). }
    pose proof (retire_retired height vault active st a Hnd' Ha Hc) as Hret.
    fold st1 in Hret. rewrite <- Hv2 in Hret.
    unfold GetAsgardVaultsByStatus, GetAsgardVaults.
    apply list_elem_of_filter. split; [reflexivity|].
    apply list_elem_of_filter. split.
    + unfold active, GetAsgardVaultsByStatus, GetAsgardVaults in Ha.
      apply list_elem_of_filter in Ha as [_ Ha].
      apply list_elem_of_filter in Ha as [Hty _]. exact Hty.
    + apply elem_of_SetVault. right. split; [exact Hret|exact Hpk].
Qed.

(** X14.  Rotation.  When every member of the new vault has a node account,
    [RotateVault] succeeds and stores the new vault; the asgard vaults that
    are Active afterwards are the new vault, if it is Active, and the Active
    ones of before that share no member with it; and every Active asgard of
    before that shares a member with the new vault (and is stored under
    another pub key, the pub keys in the store being distinct) is now
    Retiring, dated at the current height, with its coins and members as
    they were. *)
Theorem RotateVault_retires (height : Z) (vault : Vault) (st : KState) :
  Forall (fun m => is_Ok (GetNodeAccountByPubKey st m) = true) (Vault_Membership vault) ->
  exists st',
    RotateVault height vault st = Ok st'
    /\ vault ∈ ks_vaults st'
    /\ (forall v, v ∈ GetAsgardVaultsByStatus st' ActiveVault ->
          v = vault
          \/ (v ∈ GetAsgardVaultsByStatus st ActiveVault
              /\ forall m, m ∈ Vault_Membership v -> m ∉ Vault_Membership vault))
    /\ (NoDup (map Vault_PubKey (ks_vaults st)) ->
        forall a m, a ∈ GetAsgardVaultsByStatus st ActiveVault ->
          m ∈ Vault_Membership a -> m ∈ Vault_Membership vault ->
          Vault_PubKey a <> Vault_PubKey vault ->
          Vault_UpdateStatus a RetiringVault height ∈ GetAsgardVaultsByStatus st' RetiringVault).
Proof. apply RotateVault_effect. Qed.

Lemma addSigners_vaults vault members : forall (st st' : KState),
  forM (addSigner vault) members st = Ok st' -> ks_vaults st' = ks_vaults st.
Proof.
  induction members as [|m members IH]; intros st st'; cbn [forM].
  - now intros [= <-].
  - unfold addSigner at 1.
    destruct (GetNodeAccountByPubKey st m) as [na|]; cbn [rbind]; [|discriminate].
    intros Hrun. now rewrite (IH _ _ Hrun).
Qed.

(** Where the vaults come from that a rotation leaves. *)
Lemma RotateVault_vaults (height : Z) (vault : Vault) (st st' : KState) :
  RotateVault height vault st = Ok st' ->
  forall v, v ∈ ks_vaults st' ->
    v = vault \/ v ∈ ks_vaults st
    \/ exists a, a ∈ GetAsgardVaultsByStatus st ActiveVault
                 /\ v = Vault_UpdateStatus a RetiringVault height.
Proof.
  unfold RotateVault.
  destruct (forM (addSigner vault) (Vault_Membership vault) _) as [st2|] eqn:Hrun;
    cbn [rbind]; [|discriminate].
  intros [= <-] v Hv. apply addSigners_vaults in Hrun.
  apply elem_of_SetVault in Hv as [->|[Hv _]]; [now left|]. right.
  rewrite Hrun in Hv. apply retire_elem_of in Hv as [[Hv _]|(a & Ha & _ & ->)].
  - now left.
  - right. now exists a.
Qed.

(** X15.  Rotation, then the end of the same block.  A funded active vault
    that the rotation retires is due at once: [EndBlock] at the height of
    the rotation, away from genesis and with the new vault an active asgard
    vault, hands over an item for each of its coins, paid by the retired
    vault, with the memo "migrate" and for a fifth of the balance, the
    amount of the first round. *)
Theorem RotateVault_first_round (height interval : Z) (version : Version) (vault : Vault)
    (st : KState) a m c :
  Forall (fun m => is_Ok (GetNodeAccountByPubKey st m) = true) (Vault_Membership vault) ->
  NoDup (map Vault_PubKey (ks_vaults st)) ->
  Forall (wellFormed height) (ks_vaults st) ->
  a ∈ GetAsgardVaultsByStatus st ActiveVault ->
  m ∈ Vault_Membership a -> m ∈ Vault_Membership vault ->
  Vault_PubKey a <> Vault_PubKey vault ->
  Vault_HasFunds a = true -> c ∈ Vault_Coins a ->
  Vault_Type vault = AsgardVault -> Vault_Status vault = ActiveVault ->
  (0 < interval)%Z -> (height < 2 ^ 63 - 1)%Z -> height <> genesisBlockHeight ->
  (forall toi, TryAddTxOutItem_err toi = None) ->
  (forall pk chain, exists addr, GetAddress pk chain = Ok addr) ->
  GetTxOutStore version = true ->
  exists st' st'' items toi,
    RotateVault height vault st = Ok st'
    /\ EndBlock height version interval st' = Ok st''
    /\ ks_txout st'' = ks_txout st' ++ items
    /\ toi ∈ items
    /\ TxOutItem_VaultPubKey toi = Vault_PubKey a
    /\ TxOutItem_Coin toi = mkCoin (Coin_Asset c) (Coin_Amount c / 5)%N
    /\ TxOutItem_Memo toi = "migrate"%string.
Proof.
  intros Hall Hnd Hwf Ha Hm Hin Hpk Hf Hc Hty Hst Hi Hh Hg Hacc Haddr Hv.
  destruct (RotateVault_effect height vault st Hall) as (st' & Hrun & Hnew & _ & Hret).
  specialize (Hret Hnd a m Ha Hm Hin Hpk).
  assert (Hact : vault ∈ GetAsgardVaultsByStatus st' ActiveVault).
  { unfold GetAsgardVaultsByStatus, GetAsgardVaults.
    apply list_elem_of_filter. split; [exact Hst|].
    apply list_elem_of_filter. split; [exact Hty|exact Hnew]. }
  destruct (GetAsgardVaultsByStatus st' ActiveVault) as [|a0 rest] eqn:Hactive;
    [now apply elem_of_nil in Hact|].
  assert (Hheight : (0 <= height)%Z).
  { rewrite Forall_forall in Hwf.
    assert (Hin' : a ∈ ks_vaults st).
    { unfold GetAsgardVaultsByStatus, GetAsgardVaults in Ha.
      apply list_elem_of_filter in Ha as [_ Ha].
      now apply list_elem_of_filter in Ha as [_ Ha]. }
    destruct (Hwf a Hin') as [Hs _]. lia. }
  assert (Hwf' : Forall (wellFormed height) (GetAsgardVaultsByStatus st' RetiringVault)).
  { apply Forall_forall. intros v Hv'.
    unfold GetAsgardVaultsByStatus, GetAsgardVaults in Hv'.
    apply list_elem_of_filter in Hv' as [Hvs Hv'].
    apply list_elem_of_filter in Hv' as [_ Hv'].
    destruct (RotateVault_vaults _ _ _ _ Hrun v Hv') as [->|[Hold|(b & Hb & ->)]].
    - congruence.
    - rewrite Forall_forall in Hwf. now apply Hwf.
    - unfold GetAsgardVaultsByStatus, GetAsgardVaults in Hb.
      apply list_elem_of_filter in Hb as [_ Hb].
      apply list_elem_of_filter in Hb as [_ Hb].
      rewrite Forall_forall in Hwf. destruct (Hwf b Hb) as [_ Hcoins].
      split; [cbn [Vault_UpdateStatus Vault_StatusSince]; lia|exact Hcoins]. }
  destruct (MigrationProofs.EndBlock_items height interval a0 rest Hi Hh Hacc
              (fun a1 chain _ => Haddr (Vault_PubKey a1) chain)
              version st' Hg Hactive Hv Hwf') as (st'' & items & He & Ht & Hr).
  assert (Hdue : (Vault_UpdateStatus a RetiringVault height, c)
                 ∈ dueCoins height interval (GetAsgardVaultsByStatus st' RetiringVault)).
  { apply MigrationProofs.elem_of_dueCoins.
    split; [exact Hret|].
    cbn [Vault_UpdateStatus Vault_StatusSince Vault_Coins].
    split; [exact Hf|]. split; [|exact Hc].
    rewrite Z.sub_diag. apply Z.rem_0_l. lia. }
  apply list_elem_of_lookup in Hdue as [i Hi'].
  destruct (Forall2_lookup_l _ _ _ _ _ Hr Hi') as (toi & Htoi & [_ Hitem]).
  exists st', st'', items, toi.
  split; [exact Hrun|]. split; [exact He|]. split; [exact Ht|].
  split; [now apply list_elem_of_lookup_2 in Htoi|].
  rewrite Hitem. cbn [TxOutItem_VaultPubKey TxOutItem_Coin TxOutItem_Memo
                      Vault_UpdateStatus Vault_PubKey Vault_StatusSince].
  split; [reflexivity|]. split; [|reflexivity].
  rewrite Z.sub_diag. unfold scheduleAmount. rewrite Z.div_0_l by lia.
  cbn. now rewrite N.mul_1_r.
Qed.

End Rotation.
End RotationProofs.

(** ** Yggdrasil handler: the gates of [Run] and the vault it works with *)

Module HandlerProofs.
Import Yggdrasil Handler.
Section Handler.
Context `{Ext : Externals} `{Hlp : Helpers} {Hops : HandlerOps}.

(** [Run] changes the state only for a yggdrasil message that passes every
    gate: the version is 0.1.0 or later, the message is well formed and it
    is signed by active node accounts.  What it then returns is what
    [handleV1] returns; a message that is not signed is refused with the
    error of an unauthorized sender. *)
Theorem Run_gates height m version (st : KState) :
  (forall st', Run height m version st = Ok st' ->
     exists msg, m = MsgYggdrasil_ msg
                 /\ Version_GTE version (0, 1, 0)%N = true
                 /\ ValidateBasic msg = None
                 /\ isSignedByActiveNodeAccounts st msg = true
                 /\ handleV1 height msg version st = Ok st')
  /\ (forall msg, m = MsgYggdrasil_ msg ->
        Version_GTE version (0, 1, 0)%N = true -> ValidateBasic msg = None ->
        isSignedByActiveNodeAccounts st msg = false ->
        Run height m version st = Err "not signed by an active node account")
  /\ (forall msg, m = MsgYggdrasil_ msg ->
        Version_GTE version (0, 1, 0)%N = false ->
        Run height m version st = Err VaultMgr.errBadVersion).
Proof.
  split; [|split].
  - intros st'. destruct m as [msg|kind]; cbn [Run]; [|discriminate].
    unfold validate, validateV1, handle.
    destruct (Version_GTE version (0, 1, 0)%N) eqn:Hv; [|discriminate].
    destruct (ValidateBasic msg) eqn:Hb; [discriminate|].
    destruct (isSignedByActiveNodeAccounts st msg) eqn:Hs; cbn [negb]; [|discriminate].
    intros Hrun. exists msg. unfold handleV1. repeat split; try assumption; reflexivity.
  - intros msg -> Hv Hb Hs. cbn [Run]. unfold validate, validateV1.
    now rewrite Hv, Hb, Hs.
  - intros msg -> Hv. cbn [Run]. unfold validate. now rewrite Hv.
Qed.

(** X16.  A return message for a pub key that has no vault in the store is
    handled as a return observed on a yggdrasil vault: when the recipient is
    not the address of an Active asgard vault, the bond of the node account
    stored afterwards is the bond of before less the RUNE value of the
    coins of the transaction (and not below zero), the account is otherwise
    the same, and for a node that is Active nothing else is done. *)
Theorem Run_return_of_unknown_vault height msg version (st : KState) na :
  Version_GTE version (0, 1, 0)%N = true ->
  ValidateBasic msg = None ->
  isSignedByActiveNodeAccounts st msg = true ->
  Msg_AddFunds msg = false ->
  GetVault st (Msg_PubKey msg) = None ->
  Vaults_HasAddress (GetAsgardVaultsByStatus st ActiveVault)
                    (Tx_Chain (Msg_Tx msg)) (Tx_ToAddress (Msg_Tx msg)) = Ok false ->
  GetNodeAccountByPubKey st (Msg_PubKey msg) = Ok na ->
  NodeAccount_Status na = NodeActive ->
  exists st1 na',
    Run height (MsgYggdrasil_ msg) version st = Ok st1
    /\ GetNodeAccountByPubKey st1 (Msg_PubKey msg) = Ok na'
    /\ NodeAccount_Bond na'
       = (NodeAccount_Bond na - slashedValue (Tx_Coins (Msg_Tx msg)))%N
    /\ NodeAccount_Status na' = NodeAccount_Status na
    /\ NodeAccount_PubKey na' = NodeAccount_PubKey na
    /\ NodeAccount_NodeAddress na' = NodeAccount_NodeAddress na
    /\ ks_vaults st1 = ks_vaults st /\ ks_txout st1 = ks_txout st.
Proof.
  intros Hv Hb Hs Hadd Hg Hha Hna Hact.
  destruct (YggdrasilProofs.slashCoins_bond (Msg_PubKey msg) (Tx_Coins (Msg_Tx msg)) st na Hna)
    as (st1 & Hsl & Hn & Hvs & Hq & _).
  exists st1, (set_Bond na (NodeAccount_Bond na - slashedValue (Tx_Coins (Msg_Tx msg)))%N).
  split; [|split; [exact Hn|]; repeat (split; [reflexivity|]); auto].
  cbn [Run]. unfold validate, validateV1, handle, handleV1, vaultOrYggdrasil.
  rewrite Hv, Hb, Hs, Hadd, Hg. cbn [negb].
  unfold handleYggdrasilReturn. cbn [Vault_Type].
  rewrite bool_decide_eq_true_2 by reflexivity.
  rewrite Hha. cbn [negb]. rewrite Hsl. cbn [rbind]. rewrite Hn. cbn [rbind].
  cbn [set_Bond NodeAccount_Status]. now rewrite bool_decide_eq_true_2 by exact Hact.
Qed.

End Handler.
End HandlerProofs.

(** ** Events: popping by hash and the gas pools of a gas event *)

Module EventsProofs.
Import Events.
Local Open Scope list_scope.

Section Pop.
Variable TxID_Equals : TxID -> TxID -> bool.

Lemma PopByInHash_fold (evts : list Event) (txID : TxID) (found events : list Event) :
  fold_left
    (fun '(found, events) evt =>
       if TxID_Equals (Tx_ID (Event_InTx evt)) txID
       then (found ++ [evt], events)
       else (found, events ++ [evt]))
    evts (found, events)
  = (found ++ List.filter (fun evt => TxID_Equals (Tx_ID (Event_InTx evt)) txID) evts,
     events ++ List.filter (fun evt => negb (TxID_Equals (Tx_ID (Event_InTx evt)) txID)) evts).
Proof.
  revert found events. induction evts as [|evt evts IH]; intros found events.
  - cbn. now rewrite !app_nil_r.
  - cbn [fold_left List.filter].
    destruct (TxID_Equals (Tx_ID (Event_InTx evt)) txID); cbn [negb];
      rewrite IH, <- app_assoc; reflexivity.
Qed.

(** X17.  [PopByInHash] splits the events in two without losing, repeating or
    reordering any: [found] is the events whose inbound transaction has the
    hash, in their order, [events] is the others, in their order; the two
    together are a permutation of the input, and popping the same hash from
    what is left finds nothing and leaves it as it is. *)
Theorem PopByInHash_partition (evts : list Event) (txID : TxID) :
  PopByInHash TxID_Equals evts txID
  = (List.filter (fun evt => TxID_Equals (Tx_ID (Event_InTx evt)) txID) evts,
     List.filter (fun evt => negb (TxID_Equals (Tx_ID (Event_InTx evt)) txID)) evts)
  /\ evts ≡ₚ fst (PopByInHash TxID_Equals evts txID) ++ snd (PopByInHash TxID_Equals evts txID)
  /\ PopByInHash TxID_Equals (snd (PopByInHash TxID_Equals evts txID)) txID
     = ([], snd (PopByInHash TxID_Equals evts txID)).
Proof.
  assert (Hpop : forall l, PopByInHash TxID_Equals l txID
                 = (List.filter (fun evt => TxID_Equals (Tx_ID (Event_InTx evt)) txID) l,
                    List.filter (fun evt => negb (TxID_Equals (Tx_ID (Event_InTx evt)) txID)) l)).
  { intros l. unfold PopByInHash. now rewrite PopByInHash_fold. }
  split; [apply Hpop|]. rewrite !Hpop. cbn [fst snd]. split.
  - induction evts as [|evt evts IH]; [reflexivity|].
    cbn [List.filter]. destruct (TxID_Equals (Tx_ID (Event_InTx evt)) txID); cbn [negb].
    + cbn. now constructor.
    + rewrite <- Permutation_middle. now constructor.
  - f_equal.
    + induction evts as [|evt evts IH]; [reflexivity|].
      cbn [List.filter]. destruct (TxID_Equals (Tx_ID (Event_InTx evt)) txID) eqn:Hh;
        cbn [negb]; [exact IH|].
      cbn [List.filter]. now rewrite Hh.
    + induction evts as [|evt evts IH]; [reflexivity|].
      cbn [List.filter]. destruct (TxID_Equals (Tx_ID (Event_InTx evt)) txID) eqn:Hh;
        cbn [negb]; [exact IH|].
      cbn [List.filter]. rewrite Hh. cbn [negb]. now f_equal.
Qed.

End Pop.

Lemma Uint_Add_Ok (a b c : N) : Uint_Add a b = Ok c -> c = (a + b)%N.
Proof. unfold Uint_Add. destruct (a + b <=? MaxUint)%N; congruence. Qed.

(** X18.  [UpsertGasPool] adds the amounts of the pool to the totals of the event,
    whichever branch it takes: the sum of the RUNE amounts grows by the RUNE
    amount of the pool and the sum of the asset amounts by its asset amount.
    It returns whenever the two new totals fit an unsigned 256-bit number. *)
Theorem UpsertGasPool_totals (pools : list GasPool) (pool : GasPool) :
  (forall pools', UpsertGasPool pools pool = Ok pools' ->
     totalRune pools' = (totalRune pools + GasPool_RuneAmt pool)%N
     /\ totalAsset pools' = (totalAsset pools + GasPool_AssetAmt pool)%N)
  /\ ((totalRune pools + GasPool_RuneAmt pool <= MaxUint)%N ->
      (totalAsset pools + GasPool_AssetAmt pool <= MaxUint)%N ->
      is_Ok (UpsertGasPool pools pool) = true).
Proof.
  split.
  - induction pools as [|p ps IH]; intros pools'; cbn [UpsertGasPool].
    + intros [= <-]. cbn. lia.
    + destruct (bool_decide (GasPool_Asset p = GasPool_Asset pool)).
      * destruct (Uint_Add (GasPool_RuneAmt p) (GasPool_RuneAmt pool)) as [r|] eqn:Hr;
          cbn [rbind]; [|discriminate].
        destruct (Uint_Add (GasPool_AssetAmt p) (GasPool_AssetAmt pool)) as [a|] eqn:Ha;
          cbn [rbind]; [|discriminate].
        intros [= <-]. apply Uint_Add_Ok in Hr, Ha. subst. cbn. lia.
      * destruct (UpsertGasPool ps pool) as [ps'|] eqn:Hps; cbn [rbind]; [|discriminate].
        intros [= <-]. destruct (IH ps' eq_refl) as [Hr Ha]. cbn.
        unfold totalRune, totalAsset in Hr, Ha. rewrite Hr, Ha. lia.
  - induction pools as [|p ps IH]; cbn [UpsertGasPool]; [reflexivity|].
    cbn [totalRune totalAsset fold_right]. fold (totalRune ps) (totalAsset ps). intros Hr Ha.
    destruct (bool_decide (GasPool_Asset p = GasPool_Asset pool)).
    + unfold Uint_Add.
      rewrite (proj2 (N.leb_le (GasPool_RuneAmt p + GasPool_RuneAmt pool) MaxUint)) by lia.
      cbn [rbind].
      rewrite (proj2 (N.leb_le (GasPool_AssetAmt p + GasPool_AssetAmt pool) MaxUint)) by lia.
      reflexivity.
    + destruct (UpsertGasPool ps pool) as [ps'|]; [reflexivity|].
      exfalso. cbn in IH. assert (false = true) by (apply IH; lia). discriminate.
Qed.

(** X19.  The pools of a gas event built by [UpsertGasPool] have one pool for an
    asset: when the assets of the pools are distinct they are still distinct
    afterwards, and they are the assets there were and the asset of the
    pool. *)
Theorem UpsertGasPool_one_pool_per_asset (pools pools' : list GasPool) (pool : GasPool) :
  NoDup (map GasPool_Asset pools) ->
  UpsertGasPool pools pool = Ok pools' ->
  NoDup (map GasPool_Asset pools')
  /\ forall a, a ∈ map GasPool_Asset pools'
               <-> a = GasPool_Asset pool \/ a ∈ map GasPool_Asset pools.
Proof.
  revert pools'. induction pools as [|p ps IH]; intros pools' Hnd; cbn [UpsertGasPool].
  - intros [= <-]. cbn. split; [apply NoDup_singleton|].
    intros a. rewrite list_elem_of_singleton. split; [auto|].
    intros [H|H]; [exact H|]. now apply elem_of_nil in H.
  - apply NoDup_cons in Hnd as [Hp Hnd]. fold (map GasPool_Asset ps) in Hp, Hnd.
    destruct (bool_decide (GasPool_Asset p = GasPool_Asset pool)) eqn:Hd.
    + apply bool_decide_eq_true_1 in Hd.
      destruct (Uint_Add (GasPool_RuneAmt p) (GasPool_RuneAmt pool)) as [r|];
        cbn [rbind]; [|discriminate].
      destruct (Uint_Add (GasPool_AssetAmt p) (GasPool_AssetAmt pool)) as [a0|];
        cbn [rbind]; [|discriminate].
      intros [= <-]. cbn [map GasPool_Asset]. split.
      * apply NoDup_cons. auto.
      * intros a. rewrite !elem_of_cons, Hd. tauto.
    + apply bool_decide_eq_false_1 in Hd.
      destruct (UpsertGasPool ps pool) as [ps'|] eqn:Hps; cbn [rbind]; [|discriminate].
      intros [= <-]. destruct (IH ps' Hnd eq_refl) as [Hnd' Hin]. cbn [map]. split.
      * apply NoDup_cons. split; [|exact Hnd'].
        rewrite Hin. intros [Heq|Hin']; [now apply Hd|now apply Hp].
      * intros a. rewrite !elem_of_cons, Hin. tauto.
Qed.

(** X20.  Merging into the pool of an asset adds the two amounts and nothing else:
    the transaction count of the pool that is merged in is dropped, and the
    counts of the pools of the event stay what they were.  A pool of an
    asset without a pool is appended as it is. *)
Theorem UpsertGasPool_count_kept (pools pools' : list GasPool) (pool : GasPool) :
  UpsertGasPool pools pool = Ok pools' ->
  if bool_decide (GasPool_Asset pool ∈ map GasPool_Asset pools)
  then map GasPool_Count pools' = map GasPool_Count pools
       /\ map GasPool_Asset pools' = map GasPool_Asset pools
  else pools' = pools ++ [pool].
Proof.
  revert pools'. induction pools as [|p ps IH]; intros pools'; cbn [UpsertGasPool].
  - intros [= <-]. rewrite bool_decide_eq_false_2; [reflexivity|]. cbn. apply not_elem_of_nil.
  - destruct (bool_decide (GasPool_Asset p = GasPool_Asset pool)) eqn:Hd.
    + apply bool_decide_eq_true_1 in Hd.
      destruct (Uint_Add (GasPool_RuneAmt p) (GasPool_RuneAmt pool)) as [r|];
        cbn [rbind]; [|discriminate].
      destruct (Uint_Add (GasPool_AssetAmt p) (GasPool_AssetAmt pool)) as [a0|];
        cbn [rbind]; [|discriminate].
      intros [= <-]. rewrite bool_decide_eq_true_2; [now cbn|].
      cbn [map]. rewrite Hd. apply list_elem_of_here.
    + apply bool_decide_eq_false_1 in Hd.
      destruct (UpsertGasPool ps pool) as [ps'|] eqn:Hps; cbn [rbind]; [|discriminate].
      intros [= <-]. specialize (IH ps' eq_refl).
      destruct (bool_decide (GasPool_Asset pool ∈ map GasPool_Asset ps)) eqn:Hin.
      * apply bool_decide_eq_true_1 in Hin.
        rewrite bool_decide_eq_true_2 by (cbn [map]; now apply list_elem_of_further).
        destruct IH as [Hc Ha]. cbn [map]. now rewrite Hc, Ha.
      * apply bool_decide_eq_false_1 in Hin.
        rewrite bool_decide_eq_false_2.
        -- now rewrite IH.
        -- cbn [map]. rewrite elem_of_cons. intros [Heq|Hin']; [now apply Hd|now apply Hin].
Qed.

End EventsProofs.

(** ** Bitcoin chain client: the unspent outputs of a block meta *)

Module BlockMetaProofs.
Import Bitcoin.
Local Open Scope list_scope.

Section BlockMeta.
Context `{Uops : UtxoOps}.

Lemma idxToDelete_none (utxos : list UnspentTransactionOutput) (key : string) (i : nat) :
  Forall (fun item => EqualFold (UTXO_GetKey item) key = false) utxos ->
  idxToDelete utxos key i = None.
Proof.
  intros Hall. revert i. induction Hall as [|item utxos Hitem _ IH]; intros i; [reflexivity|].
  cbn [idxToDelete]. rewrite Hitem. apply IH.
Qed.

Lemma idxToDelete_first (before after : list UnspentTransactionOutput) utxo key (i : nat) :
  Forall (fun item => EqualFold (UTXO_GetKey item) key = false) before ->
  EqualFold (UTXO_GetKey utxo) key = true ->
  idxToDelete (before ++ utxo :: after) key i = Some (i + length before)%nat.
Proof.
  intros Hall Hu. revert i. induction Hall as [|item utxos Hitem _ IH]; intros i.
  - cbn. rewrite Hu. f_equal. lia.
  - cbn [app idxToDelete length]. rewrite Hitem, IH. f_equal. lia.
Qed.

Lemma idxToDelete_some (utxos : list UnspentTransactionOutput) (key : string) (j i : nat) :
  idxToDelete utxos key j = Some i ->
  exists before utxo after,
    utxos = before ++ utxo :: after
    /\ Forall (fun item => EqualFold (UTXO_GetKey item) key = false) before
    /\ EqualFold (UTXO_GetKey utxo) key = true.
Proof.
  revert j. induction utxos as [|x l IH]; intros j; cbn [idxToDelete]; [discriminate|].
  destruct (EqualFold (UTXO_GetKey x) key) eqn:Hx.
  - intros _. exists [], x, l. auto.
  - intros Hrec. destruct (IH _ Hrec) as (before & utxo & after & -> & Hall & Hu).
    exists (x :: before), utxo, after. auto.
Qed.

Lemma RemoveUTXO_split (b : BlockMeta) (key : string) before utxo after :
  BlockMeta_UnspentTransactionOutputs b = before ++ utxo :: after ->
  Forall (fun item => EqualFold (UTXO_GetKey item) key = false) before ->
  EqualFold (UTXO_GetKey utxo) key = true ->
  RemoveUTXO b key = set_utxos b (before ++ after).
Proof.
  intros Hb Hall Hu. unfold RemoveUTXO.
  rewrite Hb, (idxToDelete_first before after utxo key 0 Hall Hu).
  cbn [Nat.add]. f_equal. rewrite take_app_length.
  rewrite (cons_middle utxo before after), app_assoc.
  rewrite drop_app_length'; [reflexivity|]. rewrite length_app. cbn. lia.
Qed.

(** X21.  [RemoveUTXO] takes out one output, the first whose key is equal to
    the given key under [strings.EqualFold], and leaves the others in their
    order; a later output with an equal key stays.  When no output has such
    a key, the block meta is unchanged. *)
Theorem RemoveUTXO_first_match (b : BlockMeta) (key : string) :
  (Forall (fun item => EqualFold (UTXO_GetKey item) key = false)
          (BlockMeta_UnspentTransactionOutputs b) ->
   RemoveUTXO b key = b)
  /\ (forall before utxo after,
        BlockMeta_UnspentTransactionOutputs b = before ++ utxo :: after ->
        Forall (fun item => EqualFold (UTXO_GetKey item) key = false) before ->
        EqualFold (UTXO_GetKey utxo) key = true ->
        RemoveUTXO b key = set_utxos b (before ++ after)).
Proof.
  split.
  - intros Hall. unfold RemoveUTXO. now rewrite idxToDelete_none.
  - apply RemoveUTXO_split.
Qed.

(** X22.  An output added to a block meta in which no output has a key equal
    to the given one under [strings.EqualFold] is taken out again by
    [RemoveUTXO] with any key that is equal to its own: the block meta is
    what it was before. *)
Theorem AddUTXO_RemoveUTXO (b : BlockMeta) (utxo : UnspentTransactionOutput) (key : string) :
  EqualFold (UTXO_GetKey utxo) key = true ->
  Forall (fun item => EqualFold (UTXO_GetKey item) key = false)
         (BlockMeta_UnspentTransactionOutputs b) ->
  RemoveUTXO (AddUTXO b utxo) key = b.
Proof.
  intros Hu Hall.
  rewrite (RemoveUTXO_split (AddUTXO b utxo) key
             (BlockMeta_UnspentTransactionOutputs b) utxo [] eq_refl Hall Hu).
  rewrite app_nil_r. now destruct b.
Qed.

(** The outputs of a vault after [AddUTXO] are those it had, followed by the
    new output when it is of the vault; [RemoveUTXO] takes none of the
    outputs of a vault away other than one with the key. *)
Theorem GetUTXOs_AddUTXO (b : BlockMeta) (utxo : UnspentTransactionOutput) (pubKey : PubKey) :
  GetUTXOs (AddUTXO b utxo) pubKey
  = GetUTXOs b pubKey
    ++ (if PubKey_Equals (UTXO_VaultPubKey utxo) pubKey then [utxo] else [])
  /\ (forall key item,
        item ∈ GetUTXOs b pubKey -> EqualFold (UTXO_GetKey item) key = false ->
        item ∈ GetUTXOs (RemoveUTXO b key) pubKey).
Proof.
  split.
  - unfold GetUTXOs, AddUTXO. cbn [set_utxos BlockMeta_UnspentTransactionOutputs].
    rewrite List.filter_app. reflexivity.
  - intros key item Hin Hk. unfold GetUTXOs in *.
    apply list_elem_of_In, filter_In in Hin as [Hin Hpk].
    apply list_elem_of_In, filter_In. split; [|exact Hpk].
    destruct (idxToDelete (BlockMeta_UnspentTransactionOutputs b) key 0) as [i|] eqn:Hi.
    + destruct (idxToDelete_some _ _ _ _ Hi) as (before & u & after & Hb & Hall & Hu).
      rewrite (RemoveUTXO_split b key before u after Hb Hall Hu).
      cbn [set_utxos BlockMeta_UnspentTransactionOutputs].
      rewrite Hb in Hin. apply in_app_or in Hin as [Hin|[->|Hin]];
        [apply in_or_app; now left|congruence|apply in_or_app; now right].
    + unfold RemoveUTXO. now rewrite Hi.
Qed.

End BlockMeta.
End BlockMetaProofs.

(** ** Bitcoin chain client: the block metas in the database *)

Module AccessorProofs.
Import Bitcoin.
Local Open Scope list_scope.

Lemma append_inj_l (p a b : string) : (p ++ a)%string = (p ++ b)%string -> a = b.
Proof.
  induction p as [|c p IH]; [trivial|].
  change (String c p ++ a)%string with (String c (p ++ a)%string).
  change (String c p ++ b)%string with (String c (p ++ b)%string).
  intros [= H]. auto.
Qed.

Lemma FormatInt_inj (z z' : Z) : FormatInt z = FormatInt z' -> z = z'.
Proof.
  unfold FormatInt. intros H. apply DecimalZ.to_int_inj.
  assert (Hn : forall z, Z.to_int z <> Decimal.Pos Decimal.Nil
                         /\ Z.to_int z <> Decimal.Neg Decimal.Nil).
  { intros [|q|q]; cbn; split; try discriminate; intros [= Hq];
      now apply DecimalPos.Unsigned.to_uint_nonnil in Hq. }
  assert (Hs : NilZero.int_of_string (NilZero.string_of_int (Z.to_int z))
               = NilZero.int_of_string (NilZero.string_of_int (Z.to_int z')))
    by now rewrite H.
  rewrite !NilZero.isi in Hs by apply Hn. now injection Hs.
Qed.

Section Accessor.
Context `{Jc : JsonCodec} `{Iops : IteratorOps}.

Lemma getBlockMetaKey_inj (h h' : Z) : getBlockMetaKey h = getBlockMetaKey h' -> h = h'.
Proof. unfold getBlockMetaKey. intros H. now apply FormatInt_inj, (append_inj_l PrefixBlocMeta). Qed.

Lemma getBlockMetaKey_prefix (h : Z) : String.prefix PrefixBlocMeta (getBlockMetaKey h) = true.
Proof. unfold getBlockMetaKey. generalize (FormatInt h). intros [|c s]; reflexivity. Qed.

Lemma getBlockMetaKey_not_fee (h : Z) : getBlockMetaKey h <> TransactionFeeKey.
Proof.
  intros H. pose proof (getBlockMetaKey_prefix h) as Hp. rewrite H in Hp. discriminate.
Qed.

(** X23.  A block meta saved under a height is the one read back at that height,
    when the stored form of the block meta decodes to it; the block metas at
    the other heights and the transaction fee are what they were. *)
Theorem SaveBlockMeta_GetBlockMeta (db : gmap string BBuf) (height : Z)
    (blockMeta : BlockMeta) (buf : BBuf) :
  Marshal_BlockMeta blockMeta = Ok buf ->
  Unmarshal_BlockMeta buf = Ok blockMeta ->
  exists db',
    SaveBlockMeta db height blockMeta = Ok db'
    /\ GetBlockMeta db' height = (Some blockMeta, None)
    /\ (forall h, h <> height -> GetBlockMeta db' h = GetBlockMeta db h)
    /\ GetTransactionFee db' = GetTransactionFee db.
Proof.
  intros Hm Hu. unfold SaveBlockMeta. rewrite Hm. eexists. split; [reflexivity|].
  split; [|split].
  - unfold GetBlockMeta. now rewrite lookup_insert_eq, Hu.
  - intros h Hh. unfold GetBlockMeta. rewrite lookup_insert_ne; [reflexivity|].
    intros Heq. apply getBlockMetaKey_inj in Heq. congruence.
  - unfold GetTransactionFee. rewrite lookup_insert_ne; [reflexivity|].
    apply getBlockMetaKey_not_fee.
Qed.

(** X24.  The transaction fee that was stored last is the one read back, when its
    stored form decodes to it; storing the fee changes no block meta. *)
Theorem UpsertTransactionFee_GetTransactionFee (db : gmap string BBuf) (fee : float64)
    (vSize : Z) (buf : BBuf) :
  Marshal_TransactionFee (mkTransactionFee fee vSize) = Ok buf ->
  Unmarshal_TransactionFee buf = Ok (mkTransactionFee fee vSize) ->
  exists db',
    UpsertTransactionFee db fee vSize = Ok db'
    /\ GetTransactionFee db' = Ok (fee, vSize)
    /\ (forall fee' vSize' buf',
          Marshal_TransactionFee (mkTransactionFee fee' vSize') = Ok buf' ->
          Unmarshal_TransactionFee buf' = Ok (mkTransactionFee fee' vSize') ->
          exists db'', UpsertTransactionFee db' fee' vSize' = Ok db''
                       /\ GetTransactionFee db'' = Ok (fee', vSize'))
    /\ forall h, GetBlockMeta db' h = GetBlockMeta db h.
Proof.
  intros Hm Hu. unfold UpsertTransactionFee. rewrite Hm. eexists. split; [reflexivity|].
  split; [|split].
  - unfold GetTransactionFee. now rewrite lookup_insert_eq, Hu.
  - intros fee' vSize' buf' Hm' Hu'. rewrite Hm'. eexists. split; [reflexivity|].
    unfold GetTransactionFee. now rewrite lookup_insert_eq, Hu'.
  - intros h. unfold GetBlockMeta. rewrite lookup_insert_ne; [reflexivity|].
    intros Heq. symmetry in Heq. now apply getBlockMetaKey_not_fee in Heq.
Qed.

Lemma elem_of_iterate (prefix : string) (db : gmap string BBuf) (k : string) (buf : BBuf) :
  (k, buf) ∈ iterate prefix db <-> db !! k = Some buf /\ String.prefix prefix k = true.
Proof.
  unfold iterate. rewrite merge_sort_Permutation.
  rewrite list_elem_of_In, filter_In, <- list_elem_of_In, elem_of_map_to_list. reflexivity.
Qed.

(** The entry of a block meta, as the two loops read it: skipped when its
    value is empty, an error when it does not decode. *)
Lemma collect_members (entries : list (string * BBuf)) (acc metas : list BlockMeta) :
  forM (fun blockMetas '(_, buf) =>
          if (BBuf_len buf =? 0)%nat then Ok blockMetas else
          match Unmarshal_BlockMeta buf with
          | Err err => Err ("fail to unmarshal block meta: " ++ err)%string
          | Ok blockMeta => Ok (blockMetas ++ [blockMeta])
          end) entries acc = Ok metas ->
  forall m, m ∈ metas <->
            m ∈ acc \/ exists k buf, (k, buf) ∈ entries /\ BBuf_len buf <> 0%nat
                                     /\ Unmarshal_BlockMeta buf = Ok m.
Proof.
  revert acc. induction entries as [|[k buf] entries IH]; intros acc; cbn [forM].
  - intros [= <-] m. split; [auto|]. intros [H|(k & buf & H & _)]; [exact H|].
    now apply elem_of_nil in H.
  - destruct (BBuf_len buf =? 0)%nat eqn:Hlen; cbn [rbind].
    + apply Nat.eqb_eq in Hlen. intros Hrec m. rewrite (IH _ Hrec m). split.
      * intros [H|(k' & buf' & H & Hr)]; [now left|]. right. exists k', buf'.
        split; [now apply list_elem_of_further|exact Hr].
      * intros [H|(k' & buf' & H & Hl & Hu)]; [now left|].
        apply elem_of_cons in H as [[= -> ->]|H]; [contradiction|].
        right. exists k', buf'. auto.
    + apply Nat.eqb_neq in Hlen.
      destruct (Unmarshal_BlockMeta buf) as [bm|err] eqn:Hu; cbn [rbind]; [|discriminate].
      intros Hrec m. rewrite (IH _ Hrec m), elem_of_app, list_elem_of_singleton. split.
      * intros [[H| ->]|(k' & buf' & H & Hr)]; [now left| |].
        -- right. exists k, buf. split; [apply list_elem_of_here|auto].
        -- right. exists k', buf'. split; [now apply list_elem_of_further|exact Hr].
      * intros [H|(k' & buf' & H & Hl & Hu')]; [now left; left|].
        apply elem_of_cons in H as [[= -> ->]|H].
        -- left; right. congruence.
        -- right. exists k', buf'. auto.
Qed.

Lemma collect_total (entries : list (string * BBuf)) (acc : list BlockMeta) :
  (forall k buf, (k, buf) ∈ entries -> BBuf_len buf <> 0%nat ->
                 is_Ok (Unmarshal_BlockMeta buf) = true) ->
  is_Ok (forM (fun blockMetas '(_, buf) =>
          if (BBuf_len buf =? 0)%nat then Ok blockMetas else
          match Unmarshal_BlockMeta buf with
          | Err err => Err ("fail to unmarshal block meta: " ++ err)%string
          | Ok blockMeta => Ok (blockMetas ++ [blockMeta])
          end) entries acc) = true.
Proof.
  revert acc. induction entries as [|[k buf] entries IH]; intros acc Hall; cbn [forM];
    [reflexivity|].
  assert (Hrest : forall k buf, (k, buf) ∈ entries -> BBuf_len buf <> 0%nat ->
                                is_Ok (Unmarshal_BlockMeta buf) = true)
    by (intros k' buf' H; apply (Hall k'); now apply list_elem_of_further).
  destruct (BBuf_len buf =? 0)%nat eqn:Hlen; cbn [rbind]; [now apply IH|].
  apply Nat.eqb_neq in Hlen. specialize (Hall k buf (list_elem_of_here _ _) Hlen).
  destruct (Unmarshal_BlockMeta buf); [|discriminate]. cbn [rbind]. now apply IH.
Qed.

(** X25.  [GetBlockMetas] returns the block metas of the database and nothing
    else: what the values under the block meta prefix decode to, empty
    values left out, and so never the transaction fee.  It returns whenever
    all of these values decode. *)
Theorem GetBlockMetas_members (db : gmap string BBuf) :
  (forall metas, GetBlockMetas db = Ok metas ->
     forall m, m ∈ metas <->
               exists k buf, db !! k = Some buf /\ String.prefix PrefixBlocMeta k = true
                             /\ BBuf_len buf <> 0%nat /\ Unmarshal_BlockMeta buf = Ok m)
  /\ ((forall k buf, db !! k = Some buf -> String.prefix PrefixBlocMeta k = true ->
                     BBuf_len buf <> 0%nat -> is_Ok (Unmarshal_BlockMeta buf) = true) ->
      is_Ok (GetBlockMetas db) = true).
Proof.
  split.
  - intros metas Hget m. unfold GetBlockMetas in Hget.
    rewrite (collect_members _ _ _ Hget m). split.
    + intros [H|(k & buf & H & Hr)]; [now apply elem_of_nil in H|].
      apply elem_of_iterate in H as [Hk Hp]. exists k, buf. tauto.
    + intros (k & buf & Hk & Hp & Hr). right. exists k, buf.
      split; [now apply elem_of_iterate|exact Hr].
  - intros Hall. apply collect_total. intros k buf H.
    apply elem_of_iterate in H as [Hk Hp]. now apply (Hall k).
Qed.

(** The first loop of [PruneBlockMeta] on the entries from step [n] on:
    the slices appended are those taken at the entries that are due. *)
Lemma targets_members (height : Z) (entries : list (string * BBuf)) :
  forall (n : nat) (acc targets : list nat),
  forM (fun targets '(i, (_, buf)) =>
          if (BBuf_len buf =? 0)%nat then Ok targets else
          match Unmarshal_BlockMeta buf with
          | Err err => Err ("fail to unmarshal block meta: " ++ err)%string
          | Ok blockMeta =>
              if (BlockMeta_Height blockMeta <=? height)%Z
              then Ok (targets ++ [i]) else Ok targets
          end) (combine (seq n (length entries)) entries) acc = Ok targets ->
  forall i, i ∈ targets <->
            i ∈ acc \/ exists j k buf m, i = (n + j)%nat /\ entries !! j = Some (k, buf)
                                         /\ BBuf_len buf <> 0%nat
                                         /\ Unmarshal_BlockMeta buf = Ok m
                                         /\ (BlockMeta_Height m <= height)%Z.
Proof.
  induction entries as [|[k0 buf0] entries IH]; intros n acc targets;
    cbn [length seq combine forM].
  - intros [= <-] i. split; [auto|]. intros [H|(j & k & buf & m & _ & H & _)]; [exact H|].
    discriminate H.
  - assert (Hshift : forall i,
              (exists j k buf m, i = (S n + j)%nat /\ entries !! j = Some (k, buf)
                                 /\ BBuf_len buf <> 0%nat /\ Unmarshal_BlockMeta buf = Ok m
                                 /\ (BlockMeta_Height m <= height)%Z)
              <-> (exists j k buf m, i = (n + S j)%nat
                                     /\ ((k0, buf0) :: entries) !! S j = Some (k, buf)
                                     /\ BBuf_len buf <> 0%nat /\ Unmarshal_BlockMeta buf = Ok m
                                     /\ (BlockMeta_Height m <= height)%Z)).
    { intros i. split; intros (j & k & buf & m & -> & H); exists j, k, buf, m;
        (split; [lia|exact H]). }
    assert (Hcases : forall i (P : Prop),
              (P \/ exists j k buf m, i = (n + S j)%nat
                                      /\ ((k0, buf0) :: entries) !! S j = Some (k, buf)
                                      /\ BBuf_len buf <> 0%nat
                                      /\ Unmarshal_BlockMeta buf = Ok m
                                      /\ (BlockMeta_Height m <= height)%Z)
              \/ (i = n /\ BBuf_len buf0 <> 0%nat
                  /\ exists m, Unmarshal_BlockMeta buf0 = Ok m
                               /\ (BlockMeta_Height m <= height)%Z)
              <-> P \/ exists j k buf m, i = (n + j)%nat
                                         /\ ((k0, buf0) :: entries) !! j = Some (k, buf)
                                         /\ BBuf_len buf <> 0%nat
                                         /\ Unmarshal_BlockMeta buf = Ok m
                                         /\ (BlockMeta_Height m <= height)%Z).
    { intros i P. split.
      - intros [[HP|(j & k & buf & m & H)]|(-> & Hl & m & Hu & Hm)].
        + now left.
        + right. exists (S j), k, buf, m. exact H.
        + right. exists 0%nat, k0, buf0, m. split; [lia|]. split; [reflexivity|auto].
      - intros [HP|(j & k & buf & m & -> & Hj & Hl & Hu & Hm)]; [now left; left|].
        destruct j as [|j].
        + injection Hj as <- <-. right. split; [lia|]. split; [exact Hl|]. now exists m.
        + left; right. exists j, k, buf, m. auto. }
    destruct (BBuf_len buf0 =? 0)%nat eqn:Hlen; cbn [rbind].
    + apply Nat.eqb_eq in Hlen. intros Hrec i.
      rewrite (IH _ _ _ Hrec i), Hshift, <- Hcases. split; [now left|].
      intros [H|(_ & Hl & _)]; [exact H|contradiction].
    + apply Nat.eqb_neq in Hlen.
      destruct (Unmarshal_BlockMeta buf0) as [bm|err] eqn:Hu; cbn [rbind]; [|discriminate].
      destruct (BlockMeta_Height bm <=? height)%Z eqn:Hh; cbn [rbind].
      * apply Z.leb_le in Hh. intros Hrec i.
        rewrite (IH _ _ _ Hrec i), Hshift, <- Hcases, elem_of_app, list_elem_of_singleton.
        split.
        -- intros [[H| ->]|H]; [left; now left| |left; now right].
           right. split; [reflexivity|]. split; [exact Hlen|]. now exists bm.
        -- intros [[H|H]|(-> & _)]; [left; now left|now right|left; now right].
      * apply Z.leb_gt in Hh. intros Hrec i.
        rewrite (IH _ _ _ Hrec i), Hshift, <- Hcases. split; [now left|].
        intros [H|(_ & _ & m & Hm & Hle)]; [exact H|].
        injection Hm as <-. lia.
Qed.




(** The slices that a successful [PruneBlockMeta] has kept are those taken
    at the entries that are due, and the database it leaves is the one
    after the deletions of what they hold. *)
Lemma PruneBlockMeta_targets (db db' : gmap string BBuf) (height : Z) :
  PruneBlockMeta db height = Ok db' ->
  exists targets,
    (forall i, i ∈ targets <->
               exists k buf m, iterate PrefixBlocMeta db !! i = Some (k, buf)
                               /\ BBuf_len buf <> 0%nat
                               /\ Unmarshal_BlockMeta buf = Ok m
                               /\ (BlockMeta_Height m <= height)%Z)
    /\ db' = fold_left (fun db0 i =>
                          delete (Key_read (map fst (iterate PrefixBlocMeta db)) i) db0)
                       targets db.
Proof.
  unfold PruneBlockMeta, targetToDelete. cbv zeta.
  destruct (forM _ (combine _ (iterate PrefixBlocMeta db)) []) as [targets|] eqn:Ht;
    cbn [rbind]; [|discriminate].
  intros [= <-]. exists targets. split; [|reflexivity].
  intros i. rewrite (targets_members _ _ _ _ _ Ht i). split.
  - intros [H|(j & k & buf & m & -> & H)]; [now apply elem_of_nil in H|].
    exists k, buf, m. exact H.
  - intros (k & buf & m & H). right. exists i, k, buf, m. split; [reflexivity|exact H].
Qed.


(** X27.  An iterator that reuses its buffer, so that every slice kept from
    [iterator.Key()] holds, after the iteration, the key visited last.
    Then [PruneBlockMeta] deletes the last key under the block meta prefix,
    whatever its block meta, and nothing else, as soon as some entry is
    due: the entries that are due are kept, unless the last one is among
    them. *)
Theorem PruneBlockMeta_reused_buffer (db db' : gmap string BBuf) (height : Z) :
  (forall i, (i < length (iterate PrefixBlocMeta db))%nat ->
             Key_read (map fst (iterate PrefixBlocMeta db)) i
             = List.last (map fst (iterate PrefixBlocMeta db)) "") ->
  PruneBlockMeta db height = Ok db' ->
  (exists k buf m, db !! k = Some buf /\ String.prefix PrefixBlocMeta k = true
                   /\ BBuf_len buf <> 0%nat /\ Unmarshal_BlockMeta buf = Ok m
                   /\ (BlockMeta_Height m <= height)%Z) ->
  db' = delete (List.last (map fst (iterate PrefixBlocMeta db)) "") db.
Proof.
  intros Hread Hp (k & buf & m & Hk & Hpre & Hl & Hu & Hm).
  destruct (PruneBlockMeta_targets _ _ _ Hp) as (targets & Hmem & ->).
  assert (Hne : targets <> []).
  { assert (Hin : (k, buf) ∈ iterate PrefixBlocMeta db) by now apply elem_of_iterate.
    apply list_elem_of_lookup in Hin as [i Hi].
    assert (Hi' : i ∈ targets) by (apply Hmem; exists k, buf, m; auto).
    intros ->. now apply elem_of_nil in Hi'. }
  assert (Hall : forall i, i ∈ targets ->
            Key_read (map fst (iterate PrefixBlocMeta db)) i
            = List.last (map fst (iterate PrefixBlocMeta db)) "").
  { intros i Hi. apply Hmem in Hi as (k0 & buf0 & m0 & Hi & _).
    apply Hread. now apply lookup_lt_Some in Hi. }
  clear Hmem Hread Hp. revert Hne Hall.
  generalize (Key_read (map fst (iterate PrefixBlocMeta db))) as f.
  generalize (List.last (map fst (iterate PrefixBlocMeta db)) "") as l.
  intros l f Hne Hall.
  destruct targets as [|t targets]; [congruence|]. clear Hne.
  cbn [fold_left]. rewrite (Hall t) by apply list_elem_of_here.
  assert (Hrest : forall i, i ∈ targets -> f i = l)
    by (intros i Hi; apply Hall; now apply list_elem_of_further).
  clear Hall. induction targets as [|t' targets IH]; [reflexivity|].
  cbn [fold_left]. rewrite (Hrest t') by apply list_elem_of_here.
  rewrite delete_delete_eq. apply IH. intros i Hi. apply Hrest. now apply list_elem_of_further.
Qed.

End Accessor.
End AccessorProofs.

(** ** Signer: what is signed and what is broadcast *)

Module SignerProofs.
Import Signer.
Local Open Scope list_scope.

Section Signer.
Context `{Ext : Externals} `{Sops : SignerOps}.

(** What [signAndSendToBinanceChain] adds to the actions done so far. *)
Lemma signAndSend_piece (done : list Action) (tai : TxArrayItem) (h : Z) :
  exists piece,
    fst (signAndSendToBinanceChain done tai h) = done ++ piece
    /\ ((TxID_IsEmpty (TxArrayItem_OutHash tai) = false /\ piece = [])
        \/ (TxID_IsEmpty (TxArrayItem_OutHash tai) = true
            /\ fst (SignTx done tai h) = None /\ piece = [Sign tai h])
        \/ (TxID_IsEmpty (TxArrayItem_OutHash tai) = true
            /\ exists hexTx, fst (SignTx done tai h) = Some hexTx
                             /\ piece = [Sign tai h; Broadcast hexTx])).
Proof.
  unfold signAndSendToBinanceChain.
  destruct (TxID_IsEmpty (TxArrayItem_OutHash tai)); cbn [negb].
  - destruct (SignTx done tai h) as [[hexTx|] e]; cbn [fst].
    + exists [Sign tai h; Broadcast hexTx]. split.
      * destruct (BroadcastTx (done ++ [Sign tai h]) hexTx); cbn [fst];
          now rewrite <- app_assoc.
      * right; right. split; [reflexivity|]. exists hexTx. auto.
    + exists [Sign tai h]. split; [reflexivity|]. right; left. auto.
  - exists []. cbn [fst]. rewrite app_nil_r. split; [reflexivity|]. left. auto.
Qed.

(** X28.  When the height of the block parses, the signer asks for a signature
    once for every item of a vault whose key it holds, with a recipient and
    without an outbound hash, in the order of the items, and for no other
    item; it does so whatever signing and broadcasting the earlier items
    gave, and it reports no error. *)
Theorem signTxOut_signs_each_eligible_once (txOut : TxOut) (h : Z) (done : list Action) :
  ParseInt (TxOut_Height txOut) = Ok h ->
  exists new,
    signTxOutAndSendToBinanceChain txOut done = (done ++ new, None)
    /\ omap (fun a => match a with Sign tai h' => Some (tai, h') | Broadcast _ => None end) new
       = map (fun tai => (tai, h))
             (List.filter (fun tai => HasKey (TxArrayItem_VaultPubKey tai)
                                      && negb (String.length (TxArrayItem_To tai) =? 0)%nat
                                      && TxID_IsEmpty (TxArrayItem_OutHash tai))
                          (TxOut_TxArray txOut)).
Proof.
  intros Hh. unfold signTxOutAndSendToBinanceChain.
  generalize (TxOut_TxArray txOut) as items. intros items. revert done.
  induction items as [|item items IH]; intros done; cbn [signItems List.filter].
  - exists []. now rewrite app_nil_r.
  - rewrite Hh. unfold shouldSign.
    destruct (HasKey (TxArrayItem_VaultPubKey item)); cbn [negb andb]; [|apply IH].
    destruct (String.length (TxArrayItem_To item) =? 0)%nat; cbn [negb andb]; [apply IH|].
    destruct (signAndSend_piece done item h) as (piece & Hp & Hcase).
    destruct (signAndSendToBinanceChain done item h) as [done' e]. cbn [fst] in Hp. subst done'.
    destruct (IH (done ++ piece)) as (new & Hnew & Hsigns).
    exists (piece ++ new). rewrite Hnew, <- app_assoc. split; [reflexivity|].
    rewrite omap_app, Hsigns.
    destruct Hcase as [[-> ->]|[(-> & _ & ->)|(-> & hexTx & _ & ->)]]; reflexivity.
Qed.

(** X29.  The signer broadcasts nothing but what it had signed: every
    broadcast that it makes, each taken at its place among the actions,
    comes right after the request for the signature of an item of the block
    and sends the bytes that this request returned. *)
Theorem signTxOut_broadcasts_signed (txOut : TxOut) (done : list Action) :
  exists new,
    fst (signTxOutAndSendToBinanceChain txOut done) = done ++ new
    /\ forall i hexTx, new !! i = Some (Broadcast hexTx) ->
         exists j tai h,
           i = S j
           /\ new !! j = Some (Sign tai h)
           /\ tai ∈ TxOut_TxArray txOut
           /\ fst (SignTx (done ++ take j new) tai h) = Some hexTx.
Proof.
  unfold signTxOutAndSendToBinanceChain.
  generalize (TxOut_TxArray txOut) as items. intros items. revert done.
  assert (Hskip : forall (item : TxArrayItem) items0 done0,
            (exists new, fst (signItems (TxOut_Height txOut) items0 done0) = done0 ++ new
               /\ forall i hexTx, new !! i = Some (Broadcast hexTx) ->
                    exists j tai h,
                      i = S j /\ new !! j = Some (Sign tai h)
                      /\ tai ∈ items0
                      /\ fst (SignTx (done0 ++ take j new) tai h) = Some hexTx) ->
            exists new, fst (signItems (TxOut_Height txOut) items0 done0) = done0 ++ new
               /\ forall i hexTx, new !! i = Some (Broadcast hexTx) ->
                    exists j tai h,
                      i = S j /\ new !! j = Some (Sign tai h)
                      /\ tai ∈ item :: items0
                      /\ fst (SignTx (done0 ++ take j new) tai h) = Some hexTx).
  { intros item items0 done0 (new & Hnew & Hb). exists new. split; [exact Hnew|].
    intros i hexTx Hi. destruct (Hb i hexTx Hi) as (j & tai & h & H1 & H2 & H3 & H4).
    exists j, tai, h. split; [exact H1|]. split; [exact H2|]. split; [|exact H4].
    now apply list_elem_of_further. }
  induction items as [|item items IH]; intros done; cbn [signItems].
  - exists []. cbn [fst]. rewrite app_nil_r. split; [reflexivity|].
    intros i hexTx Hi. now rewrite lookup_nil in Hi.
  - destruct (ParseInt (TxOut_Height txOut)) as [h|err] eqn:Hh.
    + unfold shouldSign.
      destruct (HasKey (TxArrayItem_VaultPubKey item)); cbn [negb]; [|apply Hskip, IH].
      destruct (String.length (TxArrayItem_To item) =? 0)%nat; [apply Hskip, IH|].
      destruct (signAndSend_piece done item h) as (piece & Hp & Hcase).
      destruct (signAndSendToBinanceChain done item h) as [done' e]. cbn [fst] in Hp.
      subst done'.
      destruct (IH (done ++ piece)) as (new & Hnew & Hb).
      exists (piece ++ new). rewrite Hnew, <- app_assoc. split; [reflexivity|].
      intros i hexTx Hi. apply lookup_app_Some in Hi as [Hi|[Hlen Hi]].
      * destruct Hcase as [[_ ->]|[(_ & _ & ->)|(_ & hexTx' & Hs & ->)]].
        -- now rewrite lookup_nil in Hi.
        -- destruct i as [|[|i]]; cbn in Hi; discriminate.
        -- destruct i as [|[|[|i]]]; cbn in Hi; try discriminate.
           injection Hi as ->. exists 0%nat, item, h.
           split; [reflexivity|]. split; [reflexivity|].
           split; [apply list_elem_of_here|]. cbn [take]. now rewrite app_nil_r.
      * destruct (Hb _ _ Hi) as (j & tai & h' & Hij & Hj & Hin & Hs').
        exists (length piece + j)%nat, tai, h'.
        split; [lia|]. split.
        { rewrite lookup_app_r by lia.
          now replace (length piece + j - length piece)%nat with j by lia. }
        split; [now apply list_elem_of_further|].
        rewrite take_app_add, app_assoc. exact Hs'.
    + exists []. cbn [fst]. rewrite app_nil_r. split; [reflexivity|].
      intros i hexTx Hi. now rewrite lookup_nil in Hi.
Qed.

(** X30.  [signTxOutAndSendToBinanceChain] returns an error in one case only: the
    block has items and its height does not parse, and then nothing is
    signed or broadcast.  A failure to broadcast is never returned. *)
Theorem signTxOut_error_is_height (txOut : TxOut) (done : list Action) :
  (forall err, snd (signTxOutAndSendToBinanceChain txOut done) = Some err ->
     TxOut_TxArray txOut <> []
     /\ (exists e, ParseInt (TxOut_Height txOut) = Err e)
     /\ fst (signTxOutAndSendToBinanceChain txOut done) = done)
  /\ (forall e, ParseInt (TxOut_Height txOut) = Err e -> TxOut_TxArray txOut <> [] ->
        is_Some (snd (signTxOutAndSendToBinanceChain txOut done))).
Proof.
  unfold signTxOutAndSendToBinanceChain. split.
  - intros err. destruct (ParseInt (TxOut_Height txOut)) as [h|e] eqn:Hh.
    + assert (Hnone : forall items done, snd (signItems (TxOut_Height txOut) items done) = None).
      { induction items as [|item items IH]; intros done0; cbn [signItems]; [reflexivity|].
        rewrite Hh. destruct (negb (shouldSign item)); [apply IH|].
        destruct (String.length (TxArrayItem_To item) =? 0)%nat; [apply IH|].
        destruct (signAndSendToBinanceChain done0 item h). apply IH. }
      rewrite Hnone. discriminate.
    + destruct (TxOut_TxArray txOut) as [|item items]; cbn [signItems snd fst]; [discriminate|].
      rewrite Hh. cbn [snd fst]. intros _. split; [discriminate|]. split; [eauto|reflexivity].
  - intros e Hh Hne. destruct (TxOut_TxArray txOut) as [|item items]; [contradiction|].
    cbn [signItems]. rewrite Hh. cbn [snd]. eauto.
Qed.

End Signer.
End SignerProofs.

(** ** The further statements at concrete inputs *)

Module MoreExamples.
Import Sample SampleMore.
Local Open Scope list_scope.

(** An outbound memo whose transaction id is refused. *)
Lemma ParseMemo_refused_witness :
  Memo.GetType (fst (Memo.ParseMemo "outbound:A1B2")) = Memo.txUnknown
  /\ Memo.GetAsset (fst (Memo.ParseMemo "outbound:A1B2")) = EmptyAsset.
Proof.
  assert (Hp : Memo.ParseMemo "outbound:A1B2"
               = (Memo.NewOutboundMemo "", Some "TxID Error: Must be 64 characters"%string))
    by reflexivity.
  destruct (MemoMore.ParseMemo_refused _ _ _ Hp) as (Ht & Ha & _).
  rewrite Hp. cbn [fst]. now split.
Defined.

(** The memo "swap:BNB.BNB". *)
Lemma ParseMemo_accepted_witness :
  exists tx,
    Memo.stringToTxType "swap" = (tx, None)
    /\ Memo.GetType (fst (Memo.ParseMemo "swap:BNB.BNB")) = Memo.storedType tx.
Proof.
  assert (Hp : Memo.ParseMemo "swap:BNB.BNB"
               = (Memo.SwapMemo (Memo.mkMemoBase Memo.txSwap BNB) NoAddress 0, None))
    by reflexivity.
  assert (Ha : isASCII (idx (Split "swap:BNB.BNB" ":") 0) = true) by reflexivity.
  destruct (MemoMore.ParseMemo_accepted _ _ Ha Hp) as (_ & tx & Hs & _ & Ht & _).
  exists tx. rewrite Hp. split; [exact Hs|exact Ht].
Defined.

(** The migrate memo of height 5000. *)
Lemma ParseMemo_String_height_witness :
  Memo.ParseMemo (Memo.Memo_String (Memo.MigrateMemo (Memo.mkMemoBase Memo.txMigrate EmptyAsset) 5000))
  = (Memo.MigrateMemo (Memo.mkMemoBase Memo.txMigrate EmptyAsset) 5000, None).
Proof.
  refine (proj1 (MemoMore.ParseMemo_String_height
                   (Memo.mkMemoBase Memo.txMigrate EmptyAsset) 5000 _)).
  reflexivity.
Defined.

(** The outbound memo of the transaction "A1B2". *)
Lemma ParseMemo_String_txid_witness :
  Memo.ParseMemo (Memo.Memo_String (Memo.OutboundMemo (Memo.mkMemoBase Memo.txOutbound EmptyAsset) "A1B2"))
  = (Memo.NewOutboundMemo (fst (NewTxID "A1B2")), snd (NewTxID "A1B2")).
Proof.
  refine (proj1 (MemoMore.ParseMemo_String_txid
                   (Memo.mkMemoBase Memo.txOutbound EmptyAsset) "A1B2" _)).
  repeat constructor; discriminate.
Defined.

(** Keygens set at height 7 on an empty store, read at height 8. *)
Lemma SetKeygens_other_heights_witness :
  exists st',
    SetKeygens (mkKState [] [] ∅ []) (mkKeygens 7 [["pk1"%string]]) = Ok st'
    /\ GetKeygens st' 8 = GetKeygens (mkKState [] [] ∅ []) 8.
Proof.
  eexists. split; [reflexivity|].
  refine (proj1 (KeygenMore.SetKeygens_other_heights
                   (mkKState [] [] ∅ []) _ (mkKeygens 7 [["pk1"%string]]) _ eq_refl) 8%N _).
  - intros a b Hk. exact (AccessorProofs.append_inj_l "keygen/" a b Hk).
  - discriminate.
Defined.

(** Two keygens triggered at height 7. *)
Lemma TriggerKeygen_read_back_witness :
  exists st1 st2,
    VaultMgr.TriggerKeygen 7 (mkKState [] [] ∅ []) [node1; node2] = Ok st1
    /\ VaultMgr.TriggerKeygen 7 st1 [node2; node3] = Ok st2
    /\ GetKeygens st2 7 = (mkKeygens 7 [["pk2"; "pk3"]%string], None).
Proof.
  eexists. eexists. split; [reflexivity|]. split; [reflexivity|].
  refine (proj1 (proj2 (KeygenMore.TriggerKeygen_read_back
                          7 (mkKState [] [] ∅ []) _ _ [node1; node2] [node2; node3]
                          _ eq_refl eq_refl))).
  intros k buf [= ->]. reflexivity.
Defined.

(** Half an interval after a round: the retiring vault without funds is
    gone after [EndBlock], the one with funds stays. *)
Lemma EndBlock_deletes_exhausted_witness :
  exists st',
    VaultMgr.EndBlock (H + 150) (0, 1, 0)%N 100 emptied = Ok st'
    /\ emptiedVault ∈ ks_vaults emptied
    /\ (emptiedVault ∉ ks_vaults st')
    /\ (retiringVault ∈ ks_vaults st' <-> retiringVault ∈ ks_vaults emptied).
Proof.
  exists (mkKState [retiringVault; activeVault] [node1; node2; node3] ∅ []).
  assert (Hrun : VaultMgr.EndBlock (H + 150) (0, 1, 0)%N 100 emptied
                 = Ok (mkKState [retiringVault; activeVault] [node1; node2; node3] ∅ []))
    by (vm_compute; reflexivity).
  assert (Hret : GetAsgardVaultsByStatus emptied RetiringVault = [emptiedVault; retiringVault])
    by reflexivity.
  destruct (VaultMgrMore.EndBlock_deletes_exhausted (H + 150) (0, 1, 0)%N 100 emptied
              (mkKState [retiringVault; activeVault] [node1; node2; node3] ∅ []))
    as (Hv & Hgone & _).
  - unfold H, genesisBlockHeight. lia.
  - discriminate.
  - intros r Hr Hf. rewrite Hret in Hr.
    apply elem_of_cons in Hr as [->|Hr]; [discriminate Hf|].
    apply list_elem_of_singleton in Hr as ->. vm_compute. discriminate.
  - exact Hrun.
  - split; [exact Hrun|]. split; [apply list_elem_of_here|]. split.
    + apply (Hgone emptiedVault); [rewrite Hret; apply list_elem_of_here|reflexivity].
    + rewrite (Hv retiringVault). split; [tauto|]. intros Hin. split; [exact Hin|].
      intros r Hr Hf. rewrite Hret in Hr.
      apply elem_of_cons in Hr as [->|Hr]; [discriminate|].
      apply list_elem_of_singleton in Hr as ->. discriminate Hf.
Defined.

(** Scenario 5, one interval after the vault retired. *)
Lemma EndBlock_amount_bounded_witness :
  exists st' items,
    VaultMgr.EndBlock (H + 100) (0, 1, 0)%N 100 migrating = Ok st'
    /\ ks_txout st' = ks_txout migrating ++ items
    /\ Forall2 (fun '(vault, coin) toi =>
                  Coin_Asset (TxOutItem_Coin toi) = Coin_Asset coin
                  /\ (Coin_Amount (TxOutItem_Coin toi) <= Coin_Amount coin)%N
                  /\ ((4 * 100 <= H + 100 - Vault_StatusSince vault)%Z ->
                      Coin_Amount (TxOutItem_Coin toi) = Coin_Amount coin))
               (VaultMgr.dueCoins (H + 100) 100
                  (GetAsgardVaultsByStatus migrating RetiringVault)) items.
Proof.
  eapply (VaultMgrMore.EndBlock_amount_bounded (H + 100) 100 activeVault []);
    Examples.scenario5.
Defined.

(** Scenario 5, half an interval after a round. *)
Lemma EndBlock_queues_nothing_witness :
  exists st',
    VaultMgr.EndBlock (H + 150) (0, 1, 0)%N 100 migrating = Ok st'
    /\ ks_txout st' = ks_txout migrating.
Proof.
  exists migrating.
  assert (Hrun : VaultMgr.EndBlock (H + 150) (0, 1, 0)%N 100 migrating = Ok migrating)
    by (vm_compute; reflexivity).
  split; [exact Hrun|].
  refine (VaultMgrMore.EndBlock_queues_nothing (H + 150) (0, 1, 0)%N 100 migrating _ Hrun _).
  right; right. intros r Hr _.
  change (GetAsgardVaultsByStatus migrating RetiringVault) with [retiringVault] in Hr.
  apply list_elem_of_singleton in Hr. subst r. vm_compute. discriminate.
Defined.

(** Scenario 5 with a migration interval of zero. *)
Lemma EndBlock_zero_interval_witness :
  VaultMgr.EndBlock (H + 100) (0, 1, 0)%N 0 migrating = Err "panic: integer divide by zero".
Proof.
  refine (VaultMgrMore.EndBlock_zero_interval (H + 100) (0, 1, 0)%N migrating retiringVault
            _ _ eq_refl _ eq_refl).
  - unfold H, genesisBlockHeight. lia.
  - discriminate.
  - apply list_elem_of_here.
Defined.

(** The first block of a chain without an active node, and of a chain with
    two active nodes whose codec fails. *)
Lemma processGenesisSetup_errors_witness :
  VaultMgr.processGenesisSetup 1 (mkKState [] [node3] ∅ [])
  = Err "no active accounts,cannot proceed"
  /\ @VaultMgr.processGenesisSetup failingCodec 1
       (@mkKState failingCodec [] [node1; node2] ∅ [])
     = Err "fail to trigger a keygen: fail to marshal keygens: codec is closed".
Proof.
  split.
  - exact (proj1 (VaultMgrMore.processGenesisSetup_errors (mkKState [] [node3] ∅ []) eq_refl)
                 eq_refl).
  - refine (proj2 (@VaultMgrMore.processGenesisSetup_errors failingCodec
                     (@mkKState failingCodec [] [node1; node2] ∅ []) eq_refl)
                  "codec is closed"%string _ eq_refl).
    vm_compute. lia.
Defined.

(** The vault of the last two nodes replaces the vault of the first two. *)
Lemma RotateVault_retires_witness :
  exists st',
    Rotation.RotateVault H nextVault rotating = Ok st'
    /\ nextVault ∈ ks_vaults st'.
Proof.
  destruct (RotationProofs.RotateVault_retires H nextVault rotating) as (st' & Hr & Hin & _).
  - repeat constructor.
  - exists st'. auto.
Defined.

(** The rotation at height [H], then the end of that block: the retired
    vault of 1000 BTC pays 200 BTC. *)
Lemma RotateVault_first_round_witness :
  exists st' st'' toi,
    Rotation.RotateVault H nextVault rotating = Ok st'
    /\ VaultMgr.EndBlock H (0, 1, 0)%N 100 st' = Ok st''
    /\ toi ∈ ks_txout st''
    /\ TxOutItem_VaultPubKey toi = Vault_PubKey fundedVault
    /\ TxOutItem_Coin toi = mkCoin BTC (200 * One)
    /\ TxOutItem_Memo toi = "migrate"%string.
Proof.
  destruct (RotationProofs.RotateVault_first_round H 100 (0, 1, 0)%N nextVault rotating
              fundedVault "pk2"%string (mkCoin BTC (1000 * One)))
    as (st' & st'' & items & toi & Hr & He & Ht & Hin & Hpk & Hcoin & Hmemo).
  - repeat constructor.
  - apply NoDup_singleton.
  - repeat constructor; cbn; unfold H; try lia; try (vm_compute; reflexivity).
  - apply list_elem_of_here.
  - apply list_elem_of_further, list_elem_of_here.
  - apply list_elem_of_here.
  - discriminate.
  - reflexivity.
  - apply list_elem_of_here.
  - reflexivity.
  - reflexivity.
  - lia.
  - unfold H. lia.
  - unfold H, genesisBlockHeight. lia.
  - intros toi. reflexivity.
  - intros pk chain. eexists. reflexivity.
  - reflexivity.
  - exists st', st'', toi. split; [exact Hr|]. split; [exact He|].
    split; [rewrite Ht; apply elem_of_app; now right|].
    split; [exact Hpk|]. split; [exact Hcoin|exact Hmemo].
Defined.

(** A return for a pub key without a vault record: the bond of the node
    goes from 100 ONE to 97 ONE. *)
Lemma Run_return_of_unknown_vault_witness :
  exists st1 na',
    Handler.Run 5100 (MsgYggdrasil_ strayReturn) (0, 1, 0)%N unrecorded = Ok st1
    /\ GetNodeAccountByPubKey st1 "pk2" = Ok na'
    /\ NodeAccount_Bond node2 = (100 * One)%N
    /\ NodeAccount_Bond na' = (97 * One)%N.
Proof.
  destruct (HandlerProofs.Run_return_of_unknown_vault 5100 strayReturn (0, 1, 0)%N
              unrecorded node2) as (st1 & na' & Hr & Hn & Hb & _); try reflexivity.
  exists st1, na'. split; [exact Hr|]. split; [exact Hn|]. split; [reflexivity|exact Hb].
Defined.

(** Gas of 100 BNB units merged into the pools of an event. *)
Lemma UpsertGasPool_one_pool_per_asset_witness :
  exists pools',
    Events.UpsertGasPool gasPools (Events.mkGasPool BNB 100 10 1) = Ok pools'
    /\ NoDup (map Events.GasPool_Asset pools').
Proof.
  eexists. split; [reflexivity|].
  refine (proj1 (EventsProofs.UpsertGasPool_one_pool_per_asset
                   gasPools _ (Events.mkGasPool BNB 100 10 1) _ eq_refl)).
  apply NoDup_cons. split; [|apply NoDup_singleton].
  rewrite list_elem_of_singleton. discriminate.
Defined.

Lemma UpsertGasPool_count_kept_witness :
  exists pools',
    Events.UpsertGasPool gasPools (Events.mkGasPool BNB 100 10 1) = Ok pools'
    /\ map Events.GasPool_Count pools' = [1; 3]%Z.
Proof.
  eexists. split; [reflexivity|].
  assert (W := EventsProofs.UpsertGasPool_count_kept
                 gasPools _ (Events.mkGasPool BNB 100 10 1) eq_refl).
  rewrite bool_decide_eq_true_2 in W by apply list_elem_of_here.
  exact (proj1 W).
Defined.

(** Of two outputs with the key of "Tx1:0" the first is taken out. *)
Lemma RemoveUTXO_first_match_witness :
  Bitcoin.RemoveUTXO blockTwice "Tx1:0"
  = Bitcoin.mkBlockMeta "00aa" 100 "00bb"
      [("tx0:1", "pk2"); ("TX1:0", "pk1"); ("tx2:0", "pk1")]%string false
  /\ Bitcoin.RemoveUTXO blockTwice "tx9:9" = blockTwice.
Proof.
  split.
  - refine (proj2 (BlockMetaProofs.RemoveUTXO_first_match blockTwice "Tx1:0")
                  [("tx0:1", "pk2")]%string ("tx1:0", "pk1")%string
                  [("TX1:0", "pk1"); ("tx2:0", "pk1")]%string eq_refl _ eq_refl).
    repeat constructor.
  - apply (proj1 (BlockMetaProofs.RemoveUTXO_first_match blockTwice "tx9:9")).
    repeat constructor.
Defined.

(** An output added and spent again, its key in another case. *)
Lemma AddUTXO_RemoveUTXO_witness :
  Bitcoin.RemoveUTXO (Bitcoin.AddUTXO block100 ("TX3:0"%string, "pk1"%string)) "tx3:0"
  = block100.
Proof.
  refine (BlockMetaProofs.AddUTXO_RemoveUTXO block100 ("TX3:0"%string, "pk1"%string)
            "tx3:0" eq_refl _).
  repeat constructor.
Defined.

(** A block meta saved on an empty database. *)
Lemma SaveBlockMeta_GetBlockMeta_witness :
  exists db',
    Bitcoin.SaveBlockMeta ∅ 100 block100 = Ok db'
    /\ Bitcoin.GetBlockMeta db' 100 = (Some block100, None).
Proof.
  destruct (@AccessorProofs.SaveBlockMeta_GetBlockMeta utxoOps jsonCodec ∅ 100 block100
              (inl block100)
              eq_refl eq_refl) as (db' & Hs & Hg & _).
  exists db'. auto.
Defined.

Lemma UpsertTransactionFee_GetTransactionFee_witness :
  exists db',
    @Bitcoin.UpsertTransactionFee utxoOps jsonCodec ∅ 25%Z 250 = Ok db'
    /\ @Bitcoin.GetTransactionFee utxoOps jsonCodec db' = Ok (25%Z, 250%Z).
Proof.
  destruct (@AccessorProofs.UpsertTransactionFee_GetTransactionFee utxoOps jsonCodec ∅ 25%Z 250
              (inr (@Bitcoin.mkTransactionFee utxoOps 25%Z 250)) eq_refl eq_refl)
    as (db' & Hs & Hg & _).
  exists db'. auto.
Defined.


(** Block metas at the heights 100, 101 and 102, pruned up to 101 with a
    buffer that is reused: the block metas of 100 and 101 are still there,
    the one of 102 is gone, and the fee is kept. *)
Lemma PruneBlockMeta_reused_buffer_witness :
  exists db',
    Bitcoin.PruneBlockMeta threeBlocks 101 = Ok db'
    /\ Bitcoin.GetBlockMeta threeBlocks 102 = (Some block102, None)
    /\ Bitcoin.GetBlockMeta db' 100 = (Some block100, None)
    /\ Bitcoin.GetBlockMeta db' 101 = (Some block101, None)
    /\ Bitcoin.GetBlockMeta db' 102 = (None, None)
    /\ Bitcoin.GetTransactionFee db' = Ok (25%Z, 250%Z).
Proof.
  assert (Hok : is_Ok (Bitcoin.PruneBlockMeta threeBlocks 101) = true)
    by (vm_compute; reflexivity).
  destruct (Bitcoin.PruneBlockMeta threeBlocks 101) as [db'|] eqn:Hp; [|discriminate].
  exists db'. split; [reflexivity|].
  rewrite (@AccessorProofs.PruneBlockMeta_reused_buffer utxoOps jsonCodec reusedBuffer
             threeBlocks db' 101).
  - repeat split; vm_compute; reflexivity.
  - intros i _. reflexivity.
  - exact Hp.
  - exists (Bitcoin.getBlockMetaKey 100), (inl block100), block100.
    repeat split; try (vm_compute; reflexivity); try discriminate.
Defined.

(** A block of five items, two of them for this signer to sign. *)
Lemma signTxOut_signs_each_eligible_once_witness :
  exists new,
    Signer.signTxOutAndSendToBinanceChain block5100 [] = ([] ++ new, None)
    /\ omap (fun a => match a with
                      | Signer.Sign tai h' => Some (tai, h')
                      | Signer.Broadcast _ => None
                      end) new
       = [(Signer.mkTxArrayItem "bnb1to" "asgard1" "outbound:A1" "", 5100%Z);
          (Signer.mkTxArrayItem "bnb2to" "asgard1" "outbound:A5" "", 5100%Z)].
Proof.
  exact (SignerProofs.signTxOut_signs_each_eligible_once block5100 5100 [] eq_refl).
Defined.

(** The same block: the second broadcast, the fourth action, sends the
    bytes signed for the last item, in the action before it. *)
Lemma signTxOut_broadcasts_signed_witness :
  exists new tai h,
    fst (Signer.signTxOutAndSendToBinanceChain block5100 []) = new
    /\ length new = 4%nat
    /\ new !! 3%nat
       = Some (Signer.Broadcast
                 (map byte_of_ascii (list_ascii_of_string "outbound:A5")))
    /\ new !! 2%nat = Some (Signer.Sign tai h)
    /\ Signer.TxArrayItem_Memo tai = "outbound:A5"%string
    /\ fst (Signer.SignTx (take 2 new) tai h)
       = Some (map byte_of_ascii (list_ascii_of_string "outbound:A5")).
Proof.
  destruct (SignerProofs.signTxOut_broadcasts_signed block5100 []) as (new & Hnew & Hb).
  cbn [app] in Hnew, Hb.
  assert (Hlog : fst (Signer.signTxOutAndSendToBinanceChain block5100 [])
                 = [Signer.Sign (Signer.mkTxArrayItem "bnb1to" "asgard1" "outbound:A1" "") 5100;
                    Signer.Broadcast (map byte_of_ascii (list_ascii_of_string "outbound:A1"));
                    Signer.Sign (Signer.mkTxArrayItem "bnb2to" "asgard1" "outbound:A5" "") 5100;
                    Signer.Broadcast (map byte_of_ascii (list_ascii_of_string "outbound:A5"))])
    by (vm_compute; reflexivity).
  rewrite Hlog in Hnew. subst new.
  destruct (Hb 3%nat _ eq_refl) as (j & tai & h & Hj & Hsign & _ & Hbytes).
  injection Hj as <-.
  eexists. exists tai, h.
  split; [exact Hlog|]. split; [reflexivity|]. split; [reflexivity|].
  split; [exact Hsign|]. split; [|exact Hbytes].
  cbn in Hsign. now injection Hsign as <- <-.
Defined.

End MoreExamples.
